(** * RBAC file manager: folder tree and file versions over a storage root

    A shallow embedding of the storage adapter ([utils/storage.js]), the
    folder and file models ([models/folder.model.js], [models/file.model.js])
    and the folder routes ([routes/folder.js]), followed by the properties
    that the specification states about them.

    Conventions of the embedding:
    - JavaScript strings are [string]; the functions of Node's POSIX [path]
      module that the code calls are written out in [NodePath] from their
      documented behaviour (the module is a dependency, not code of the
      repository).
    - MongoDB collections are lists of documents in insertion order; a
      query is a [filter] or a [find] over the list.  ObjectIds are natural
      numbers drawn from a counter.  Mongoose runs setters, then validation,
      then the [pre('save')] hooks, then the write; [findByIdAndUpdate],
      [Model.deleteOne] and [deleteMany] are query operations and run no
      document hook.
    - The disk holds regular files, as a finite association list from
      absolute names to contents, and directories, as a list of absolute
      names.  The calls of [fs] fail as POSIX says they do on such a disk
      (a missing entry, a directory where a file is expected and the other
      way round, a regular file on the way to a name); permissions, links
      and devices are outside the model.
    - A route is a function from the world (database and disk) to a
      response and a new world; an exception raised inside a handler leaves
      the effects performed so far in place, as in the source.  Loops and
      recursions that follow the data carry a bound, and running out of it
      is reported as [Diverge]. *)

From Stdlib Require Import List Arith Bool Lia PeanoNat Sorted.
From Stdlib Require Import Ascii String.
From Stdlib Require DecimalString Decimal DecimalNat.
Import ListNotations.

Local Open Scope list_scope.
Local Open Scope string_scope.

(** ** JavaScript string primitives *)

Module JsString.

Definition ch_slash : ascii := "/"%char.
Definition ch_backslash : ascii := "\"%char.
Definition ch_dot : ascii := "."%char.

(** [s.startsWith(p)] *)
Definition startsWith (s p : string) : bool := String.prefix p s.

(** [s.includes(sub)] *)
Fixpoint includes (s sub : string) : bool :=
  if String.prefix sub s then true
  else match s with
       | EmptyString => false
       | String _ s' => includes s' sub
       end.

Definition rev_string (s : string) : string :=
  string_of_list_ascii (rev (list_ascii_of_string s)).

(** [s.endsWith(p)] *)
Definition endsWith (s p : string) : bool :=
  String.prefix (rev_string p) (rev_string s).

(** [s.replace(/\\/g, "/")] *)
Fixpoint replace_backslashes (s : string) : string :=
  match s with
  | EmptyString => EmptyString
  | String c s' =>
      String (if Ascii.eqb c ch_backslash then ch_slash else c)
             (replace_backslashes s')
  end.

(** [s.split("/")] *)
Fixpoint split_slash (s : string) : list string :=
  match s with
  | EmptyString => [EmptyString]
  | String c s' =>
      if Ascii.eqb c ch_slash then EmptyString :: split_slash s'
      else match split_slash s' with
           | x :: r => String c x :: r
           | [] => [String c EmptyString]
           end
  end.

(** [segs.join("/")] *)
Fixpoint join_slash (segs : list string) : string :=
  match segs with
  | [] => EmptyString
  | [x] => x
  | x :: r => x ++ "/" ++ join_slash r
  end.

(** Index of the last occurrence of [c], as [lastIndexOf] gives it. *)
Fixpoint lastIndexOf_from (c : ascii) (s : string) (i : nat) (acc : option nat)
  : option nat :=
  match s with
  | EmptyString => acc
  | String d s' =>
      lastIndexOf_from c s' (S i) (if Ascii.eqb c d then Some i else acc)
  end.

Definition lastIndexOf (c : ascii) (s : string) : option nat :=
  lastIndexOf_from c s 0 None.

(** [s.slice(i)] and [s.slice(0, n)] *)
Definition slice_from (i : nat) (s : string) : string :=
  substring i (String.length s - i) s.

Definition slice_to (n : nat) (s : string) : string :=
  substring 0 n s.

(** [s.replace(old, new)] with a string pattern: the first occurrence is
    replaced (the callers pass no [$] in [new]). *)
Fixpoint replace_first (s old new : string) : string :=
  if String.prefix old s
  then new ++ substring (String.length old) (String.length s - String.length old) s
  else match s with
       | EmptyString => EmptyString
       | String c s' => String c (replace_first s' old new)
       end.

(** [s.toLowerCase()] on ASCII letters *)
Definition lower_ascii (c : ascii) : ascii :=
  let n := nat_of_ascii c in
  if Nat.leb 65 n && Nat.leb n 90 then ascii_of_nat (n + 32) else c.

Fixpoint toLowerCase (s : string) : string :=
  match s with
  | EmptyString => EmptyString
  | String c s' => String (lower_ascii c) (toLowerCase s')
  end.

Definition is_space (c : ascii) : bool :=
  let n := nat_of_ascii c in
  Nat.eqb n 32 || (Nat.leb 9 n && Nat.leb n 13).

Fixpoint trimStart (s : string) : string :=
  match s with
  | EmptyString => EmptyString
  | String c s' => if is_space c then trimStart s' else s
  end.

(** [s.trim()] *)
Definition trim (s : string) : string :=
  rev_string (trimStart (rev_string (trimStart s))).

(** [String(n)] for a non-negative integer *)
Definition of_nat (n : nat) : string :=
  DecimalString.NilZero.string_of_uint (Nat.to_uint n).

(** Character classes of the regular expressions in the schemas. *)
Definition is_word_char (c : ascii) : bool :=
  let n := nat_of_ascii c in
  (Nat.leb 48 n && Nat.leb n 57) || (Nat.leb 65 n && Nat.leb n 90)
  || (Nat.leb 97 n && Nat.leb n 122) || Nat.eqb n 95.

Fixpoint all_chars (p : ascii -> bool) (s : string) : bool :=
  match s with
  | EmptyString => true
  | String c s' => p c && all_chars p s'
  end.

(** [/^[cls]+$/.test(s)] *)
Definition matches_plus (p : ascii -> bool) (s : string) : bool :=
  negb (String.eqb s "") && all_chars p s.

End JsString.

(** ** Node's [path] module (POSIX flavour) *)

Module NodePath.
Import JsString.

(** One step of [normalizeString]: the stack holds the segments kept so
    far, innermost first. *)
Definition norm_step (allowAboveRoot : bool) (stack : list string) (seg : string)
  : list string :=
  if String.eqb seg "" || String.eqb seg "." then stack
  else if String.eqb seg ".." then
    match stack with
    | top :: rest =>
        if String.eqb top ".." then seg :: stack else rest
    | [] => if allowAboveRoot then [seg] else []
    end
  else seg :: stack.

Definition normalizeString (p : string) (allowAboveRoot : bool) : string :=
  join_slash (rev (fold_left (norm_step allowAboveRoot) (split_slash p) [])).

(** [path.normalize] *)
Definition normalize (p : string) : string :=
  if String.eqb p "" then "."
  else
    let isAbsolute := startsWith p "/" in
    let trailingSeparator := endsWith p "/" in
    let q := normalizeString p (negb isAbsolute) in
    if String.eqb q "" then
      if isAbsolute then "/" else if trailingSeparator then "./" else "."
    else
      let q' := if trailingSeparator then q ++ "/" else q in
      if isAbsolute then "/" ++ q' else q'.

(** [path.join(...args)] *)
Definition join (args : list string) : string :=
  match filter (fun a => negb (String.eqb a "")) args with
  | [] => "."
  | parts => normalize (join_slash parts)
  end.

Fixpoint strip_trailing_slashes_rev (r : list ascii) : list ascii :=
  match r with
  | c :: r' => if Ascii.eqb c ch_slash then strip_trailing_slashes_rev r' else r
  | [] => []
  end.

Definition strip_trailing_slashes (p : string) : string :=
  string_of_list_ascii
    (rev (strip_trailing_slashes_rev (rev (list_ascii_of_string p)))).

(** The last portion of a path, trailing separators ignored. *)
Definition last_portion (p : string) : string :=
  let q := strip_trailing_slashes p in
  match lastIndexOf ch_slash q with
  | Some i => slice_from (S i) q
  | None => q
  end.

(** [path.extname] *)
Definition extname (p : string) : string :=
  let base := last_portion p in
  if String.eqb base ".." then ""
  else match lastIndexOf ch_dot base with
       | Some (S i) => slice_from (S i) base
       | _ => ""
       end.

(** [path.basename(p, ext)] *)
Definition basename (p ext : string) : string :=
  let base := last_portion p in
  if String.eqb ext "" then base
  else if String.eqb ext p then ""
  else if endsWith base ext && negb (String.eqb base ext)
       then slice_to (String.length base - String.length ext) base
       else base.

(** [path.dirname] *)
Definition dirname (p : string) : string :=
  if String.eqb p "" then "."
  else
    let hasRoot := startsWith p "/" in
    let q := strip_trailing_slashes p in
    match lastIndexOf ch_slash q with
    | None => if hasRoot then "/" else "."
    | Some 0 => if String.eqb q "" then "." else "/"
    | Some 1 => if hasRoot then "//" else slice_to 1 q
    | Some i => slice_to i q
    end.

End NodePath.

Import JsString NodePath.

(** ** Documents *)

Inductive Role : Type := admin | sub_admin | user.

Definition role_eqb (a b : Role) : bool :=
  match a, b with
  | admin, admin | sub_admin, sub_admin | user, user => true
  | _, _ => false
  end.

(** [req.user] as the [auth] middleware attaches it. *)
Record User : Type := mkUser { uid : nat; role : Role }.

Inductive Permission : Type := perm_read | perm_write | perm_admin.

Inductive ApprovalStatus : Type := pending | approved | disapproved.

Definition option_nat_eqb (a b : option nat) : bool :=
  match a, b with
  | Some x, Some y => Nat.eqb x y
  | None, None => true
  | _, _ => false
  end.

(** [folderSchema] of models/folder.model.js ([metadata] and the timestamps
    take no part in any path or version computation and are left out). *)
Module Folder.
Record t : Type := mk {
  _id : nat;
  name : string;
  path : string;
  createdBy : nat;
  parentFolder : option nat;
  isSystemFolder : bool;
  depth : nat;
  access : list (nat * Permission)
}.

Definition set_path (p : string) (f : t) : t :=
  mk (_id f) (name f) p (createdBy f) (parentFolder f) (isSystemFolder f)
     (depth f) (access f).
Definition set_name (n : string) (f : t) : t :=
  mk (_id f) n (path f) (createdBy f) (parentFolder f) (isSystemFolder f)
     (depth f) (access f).
Definition set_parentFolder (p : option nat) (f : t) : t :=
  mk (_id f) (name f) (path f) (createdBy f) p (isSystemFolder f)
     (depth f) (access f).
Definition set_depth (d : nat) (f : t) : t :=
  mk (_id f) (name f) (path f) (createdBy f) (parentFolder f)
     (isSystemFolder f) d (access f).
End Folder.

(** [fileSchema] of models/file.model.js (second definition, the one with
    the versioning fields). *)
Module File.
Record t : Type := mk {
  _id : nat;
  filename : string;
  originalFilename : string;
  path : string;
  size : nat;
  mimetype : string;
  extension : string;
  folder : nat;
  owner : nat;
  uploadedBy : nat;
  approvalStatus : ApprovalStatus;
  approvedBy : option nat;
  approvedAt : option nat;
  version : nat;
  isCurrentVersion : bool;
  previousVersions : list nat;
  originalFile : option nat;
  fileHash : string;
  isDeleted : bool
}.

Definition set_isCurrentVersion (b : bool) (f : t) : t :=
  mk (_id f) (filename f) (originalFilename f) (path f) (size f) (mimetype f)
     (extension f) (folder f) (owner f) (uploadedBy f) (approvalStatus f)
     (approvedBy f) (approvedAt f) (version f) b (previousVersions f)
     (originalFile f) (fileHash f) (isDeleted f).
Definition set_previousVersions (l : list nat) (f : t) : t :=
  mk (_id f) (filename f) (originalFilename f) (path f) (size f) (mimetype f)
     (extension f) (folder f) (owner f) (uploadedBy f) (approvalStatus f)
     (approvedBy f) (approvedAt f) (version f) (isCurrentVersion f) l
     (originalFile f) (fileHash f) (isDeleted f).
Definition set_path (p : string) (f : t) : t :=
  mk (_id f) (filename f) (originalFilename f) p (size f) (mimetype f)
     (extension f) (folder f) (owner f) (uploadedBy f) (approvalStatus f)
     (approvedBy f) (approvedAt f) (version f) (isCurrentVersion f)
     (previousVersions f) (originalFile f) (fileHash f) (isDeleted f).
Definition set_filename (n : string) (f : t) : t :=
  mk (_id f) n (originalFilename f) (path f) (size f) (mimetype f)
     (extension f) (folder f) (owner f) (uploadedBy f) (approvalStatus f)
     (approvedBy f) (approvedAt f) (version f) (isCurrentVersion f)
     (previousVersions f) (originalFile f) (fileHash f) (isDeleted f).
Definition set_extension (e : string) (f : t) : t :=
  mk (_id f) (filename f) (originalFilename f) (path f) (size f) (mimetype f)
     e (folder f) (owner f) (uploadedBy f) (approvalStatus f)
     (approvedBy f) (approvedAt f) (version f) (isCurrentVersion f)
     (previousVersions f) (originalFile f) (fileHash f) (isDeleted f).
Definition set_fileHash (h : string) (f : t) : t :=
  mk (_id f) (filename f) (originalFilename f) (path f) (size f) (mimetype f)
     (extension f) (folder f) (owner f) (uploadedBy f) (approvalStatus f)
     (approvedBy f) (approvedAt f) (version f) (isCurrentVersion f)
     (previousVersions f) (originalFile f) h (isDeleted f).
Definition set_id (i : nat) (f : t) : t :=
  mk i (filename f) (originalFilename f) (path f) (size f) (mimetype f)
     (extension f) (folder f) (owner f) (uploadedBy f) (approvalStatus f)
     (approvedBy f) (approvedAt f) (version f) (isCurrentVersion f)
     (previousVersions f) (originalFile f) (fileHash f) (isDeleted f).
Definition set_version (v : nat) (f : t) : t :=
  mk (_id f) (filename f) (originalFilename f) (path f) (size f) (mimetype f)
     (extension f) (folder f) (owner f) (uploadedBy f) (approvalStatus f)
     (approvedBy f) (approvedAt f) v (isCurrentVersion f)
     (previousVersions f) (originalFile f) (fileHash f) (isDeleted f).
End File.

(** ** The world: both collections, the disk and the ObjectId supply *)

Record World : Type := mkWorld {
  folders : list Folder.t;
  files : list File.t;
  disk : list (string * string);
  dirs : list string;
  next_id : nat
}.

Definition with_folders (l : list Folder.t) (w : World) : World :=
  mkWorld l (files w) (disk w) (dirs w) (next_id w).
Definition with_files (l : list File.t) (w : World) : World :=
  mkWorld (folders w) l (disk w) (dirs w) (next_id w).
Definition with_disk (d : list (string * string)) (w : World) : World :=
  mkWorld (folders w) (files w) d (dirs w) (next_id w).
Definition with_dirs (l : list string) (w : World) : World :=
  mkWorld (folders w) (files w) (disk w) l (next_id w).
Definition with_next_id (n : nat) (w : World) : World :=
  mkWorld (folders w) (files w) (disk w) (dirs w) n.

(** What lies under a name on the disk. *)
Inductive Entry : Type :=
| RegularFile (c : string)
| Directory
| Nothing.

(** ** Handlers: state, exceptions and divergence *)

Inductive Outcome (A : Type) : Type :=
| Done (a : A)
| Throw (e : string)
| Diverge.
Arguments Done {A} a.
Arguments Throw {A} e.
Arguments Diverge {A}.

Definition M (A : Type) : Type := World -> Outcome A * World.

Definition ret {A} (a : A) : M A := fun w => (Done a, w).
Definition throw {A} (e : string) : M A := fun w => (Throw e, w).
Definition diverge {A} : M A := fun w => (Diverge, w).

Definition bind {A B} (m : M A) (k : A -> M B) : M B :=
  fun w =>
    match m w with
    | (Done a, w') => k a w'
    | (Throw e, w') => (Throw e, w')
    | (Diverge, w') => (Diverge, w')
    end.

Notation "x <- m ;; k" := (bind m (fun x => k))
  (at level 61, m at next level, right associativity).
Notation "m ;;; k" := (bind m (fun _ => k))
  (at level 61, right associativity).

Definition gets {A} (f : World -> A) : M A := fun w => (Done (f w), w).
Definition modify (f : World -> World) : M unit := fun w => (Done tt, f w).

(** [for (const x of xs) { await body(x) }] *)
Fixpoint for_each {A} (xs : list A) (body : A -> M unit) : M unit :=
  match xs with
  | [] => ret tt
  | x :: r => body x ;;; for_each r body
  end.

(** An HTTP reply: [res.status(s).json({success: true, data})] or
    [res.status(s).json({success: false, error})]. *)
Inductive Response (A : Type) : Type :=
| Reply (status : nat) (data : A)
| Fail (status : nat) (error : string).
Arguments Reply {A} status data.
Arguments Fail {A} status error.

(** [try { ... } catch (error) { res.status(500)... }] *)
Definition try_catch {A} (m : M (Response A)) (handler : string -> Response A)
  : M (Response A) :=
  fun w =>
    match m w with
    | (Throw e, w') => (Done (handler e), w')
    | r => r
    end.

(** The [auth(roles)] middleware: an empty list admits every role. *)
Definition auth (roles : list Role) (u : User) : bool :=
  match roles with
  | [] => true
  | _ => existsb (role_eqb (role u)) roles
  end.

(** ** The deployment

    The directory that holds [utils/] and [storage/], as the segments of its
    resolved absolute name; the working directory of the process; the digest
    function of [crypto.createHash("sha256")]; and whether MongoDB has built
    the [unique] indexes that the schemas declare. *)
Record Deployment : Type := mkDeployment {
  app_dir : list string;
  cwd : string;
  sha256 : string -> string;
  unique_indexes : bool
}.

Section Backend.

Variable dep : Deployment.

(** *** utils/storage.js *)

(** [path.resolve(__dirname, "../storage")] *)
Definition STORAGE_ROOT : string :=
  "/" ++ join_slash (app_dir dep ++ ["storage"])%list.

Definition getFullPath (relativePath : string) : string :=
  join [STORAGE_ROOT; relativePath].

(** How the [fs] module resolves the name it is given. *)
Definition fs_resolve (p : string) : string :=
  if startsWith p "/" then normalize p else join [cwd dep; p].

(** The name of the entry that a resolved name leads to: a trailing
    separator is not part of it. *)
Definition entry_name (r : string) : string :=
  let q := strip_trailing_slashes r in
  if String.eqb q "" then "/" else q.

(** The directories on the way to [q], outermost first, and [q] itself. *)
Definition path_chain (q : string) : list string :=
  let segs := filter (fun s => negb (String.eqb s "")) (split_slash q) in
  "/" :: map (fun n => "/" ++ join_slash (firstn n segs))
             (seq 1 (List.length segs)).

Fixpoint disk_lookup (d : list (string * string)) (p : string) : option string :=
  match d with
  | [] => None
  | (q, c) :: r => if String.eqb q p then Some c else disk_lookup r p
  end.

Definition disk_remove (p : string) (d : list (string * string))
  : list (string * string) :=
  filter (fun e => negb (String.eqb (fst e) p)) d.

Definition disk_write (p c : string) (d : list (string * string))
  : list (string * string) :=
  (p, c) :: disk_remove p d.

Definition disk_has (d : list (string * string)) (p : string) : bool :=
  match disk_lookup d p with Some _ => true | None => false end.

Definition is_dir (w : World) (q : string) : bool :=
  existsb (String.eqb q) (dirs w).

(** A regular file lies on the way to [q]. *)
Definition through_file (w : World) (q : string) : bool :=
  existsb (disk_has (disk w)) (removelast (path_chain q)).

(** What [stat] finds under the name [p]; a name with a trailing separator
    finds a directory or nothing. *)
Definition entry_at (p : string) (w : World) : Entry :=
  let r := fs_resolve p in
  let q := entry_name r in
  if is_dir w q then Directory
  else if endsWith r "/" then Nothing
  else match disk_lookup (disk w) q with
       | Some c => RegularFile c
       | None => Nothing
       end.

Definition exists_at (p : string) (w : World) : bool :=
  match entry_at p w with
  | Nothing => false
  | _ => true
  end.

(** [fs.existsSync]: true for a regular file and for a directory. *)
Definition existsSync (p : string) : M bool := gets (exists_at p).

(** The directories that [mkdir] with [recursive: true] has to make for
    [p]. *)
Definition missing_dirs (p : string) (w : World) : list string :=
  filter (fun a => negb (is_dir w a)) (path_chain (entry_name (fs_resolve p))).

(** Why that [mkdir] fails: a regular file has the name, or lies on the way
    to it. *)
Definition mkdir_error (p : string) (w : World) : option string :=
  let q := entry_name (fs_resolve p) in
  if disk_has (disk w) q then Some "EEXIST"
  else if through_file w q then Some "ENOTDIR"
  else None.

(** [fsp.mkdir(p, { recursive: true })]: an existing directory is no
    error. *)
Definition fsp_mkdir (p : string) : M unit :=
  fun w =>
    match mkdir_error p w with
    | Some e => (Throw e, w)
    | None => (Done tt, with_dirs (dirs w ++ missing_dirs p w)%list w)
    end.

(** Why a regular file cannot be put under the name [p]: a regular file on
    the way, a directory under that name, or no parent directory. *)
Definition write_error (p : string) (w : World) : option string :=
  let r := fs_resolve p in
  let q := entry_name r in
  if through_file w q || (endsWith r "/" && negb (is_dir w q))
  then Some "ENOTDIR"
  else if is_dir w q then Some "EISDIR"
  else if negb (is_dir w (dirname q)) then Some "ENOENT"
  else None.

(** [fsp.unlink]: rejects with code ENOENT when nothing is there, and
    with another code for a directory (EISDIR on Linux) or when the name
    leads through a regular file. *)
Definition fsp_unlink (p : string) : M unit :=
  fun w =>
    let q := entry_name (fs_resolve p) in
    match entry_at p w with
    | RegularFile _ => (Done tt, with_disk (disk_remove q (disk w)) w)
    | Directory => (Throw "EISDIR", w)
    | Nothing =>
        (Throw (if through_file w q || disk_has (disk w) q
                then "ENOTDIR" else "ENOENT"), w)
    end.

(** [fsp.rename(file.path, dst)] for a staged upload holding [content]:
    multer stages uploads in [os.tmpdir()], which is not part of the disk
    of the model. *)
Definition fsp_rename_staged (content dst : string) : M unit :=
  fun w =>
    match write_error dst w with
    | Some e => (Throw e, w)
    | None =>
        (Done tt,
         with_disk (disk_write (entry_name (fs_resolve dst)) content (disk w)) w)
    end.

(** [fsp.copyFile] *)
Definition fsp_copyFile (src dst : string) : M unit :=
  fun w =>
    match entry_at src w with
    | RegularFile c =>
        match write_error dst w with
        | Some e => (Throw e, w)
        | None =>
            (Done tt,
             with_disk (disk_write (entry_name (fs_resolve dst)) c (disk w)) w)
        end
    | Directory => (Throw "EISDIR", w)
    | Nothing => (Throw "ENOENT", w)
    end.

Definition dir_prefix (d : string) : string :=
  if endsWith d "/" then d else d ++ "/".

(** The name of an entry after the directory [s] was renamed to [t]. *)
Definition rebase (s t p : string) : string :=
  if String.eqb p s then t
  else if startsWith p (dir_prefix s)
       then dir_prefix t ++ slice_from (String.length (dir_prefix s)) p
       else p.

(** [fs.rename]: a regular file replaces a regular file; a directory
    moves with everything below it, and replaces an empty directory
    only. *)
Definition fsp_rename (src dst : string) : M unit :=
  fun w =>
    let s := entry_name (fs_resolve src) in
    let t := entry_name (fs_resolve dst) in
    match entry_at src w with
    | Nothing => (Throw "ENOENT", w)
    | RegularFile c =>
        match write_error dst w with
        | Some e => (Throw e, w)
        | None =>
            (Done tt, with_disk (disk_write t c (disk_remove s (disk w))) w)
        end
    | Directory =>
        if String.eqb s t then (Done tt, w)
        else if startsWith t (dir_prefix s) then (Throw "EINVAL", w)
        else if through_file w t || disk_has (disk w) t then (Throw "ENOTDIR", w)
        else if negb (is_dir w (dirname t)) then (Throw "ENOENT", w)
        else if existsb (fun d => startsWith d (dir_prefix t)) (dirs w)
                || existsb (fun e => startsWith (fst e) (dir_prefix t)) (disk w)
             then (Throw "ENOTEMPTY", w)
        else
          (Done tt,
           with_dirs
             (map (rebase s t)
                  (filter (fun d => negb (String.eqb d t)) (dirs w)))
             (with_disk (map (fun e => (rebase s t (fst e), snd e)) (disk w)) w))
    end.

Definition createDirectory (relativePath : string) : M string :=
  let fullPath := getFullPath relativePath in
  fsp_mkdir fullPath ;;;
  ret fullPath.

(** The guard of [deleteDirectory], then the removal of everything below
    the directory and of the directory itself. *)
Definition deleteDirectory (relativePath : string) : M unit :=
  let fullPath := getFullPath relativePath in
  if String.eqb fullPath STORAGE_ROOT || negb (startsWith fullPath STORAGE_ROOT)
  then throw "Attempted to delete protected directory"
  else
    fun w =>
      let q := entry_name (fs_resolve fullPath) in
      match entry_at fullPath w with
      | Directory =>
          (Done tt,
           with_dirs
             (filter (fun d => negb (String.eqb d q
                                     || startsWith d (dir_prefix q)))
                     (dirs w))
             (with_disk
                (filter (fun e => negb (startsWith (fst e) (dir_prefix q)))
                        (disk w)) w))
      | RegularFile _ => (Throw "ENOTDIR", w)
      | Nothing => (Throw "ENOENT", w)
      end.

Definition moveDirectory (oldRelativePath newRelativePath : string) : M unit :=
  let fullOldPath := getFullPath oldRelativePath in
  let fullNewPath := getFullPath newRelativePath in
  fsp_mkdir (dirname fullNewPath) ;;;
  fsp_rename fullOldPath fullNewPath.

(** [stat] succeeds. *)
Definition pathExists (relativePath : string) : M bool :=
  gets (exists_at (getFullPath relativePath)).

(** [readFile]: [ensureFileAvailable] opens the file and reads a byte, and
    passes every error but EPERM on. *)
Definition readFile (relativePath : string) : M string :=
  fun w =>
    match entry_at (getFullPath relativePath) w with
    | RegularFile c => (Done c, w)
    | Directory => (Throw "EISDIR", w)
    | Nothing => (Throw "ENOENT", w)
    end.

(** A fresh ObjectId, as [new Model(...)] draws one. *)
Definition new_ObjectId : M nat :=
  fun w => (Done (next_id w), with_next_id (S (next_id w)) w).

(** *** models/folder.model.js *)

Definition Folder_findById (id : nat) : M (option Folder.t) :=
  gets (fun w => find (fun f => Nat.eqb (Folder._id f) id) (folders w)).

Definition Folder_findOne (q : Folder.t -> bool) : M (option Folder.t) :=
  gets (fun w => find q (folders w)).

Definition Folder_find (q : Folder.t -> bool) : M (list Folder.t) :=
  gets (fun w => filter q (folders w)).

(** The validator of [name]: [/^[\w\-]+$/]. *)
Definition folder_name_char (c : ascii) : bool :=
  is_word_char c || Ascii.eqb c "-"%char.

Definition folder_name_valid (n : string) : bool :=
  matches_plus folder_name_char n.

(** Does another folder document hold this [path]? *)
Definition folder_path_taken (id : nat) (p : string) (w : World) : bool :=
  unique_indexes dep
  && existsb (fun f => String.eqb (Folder.path f) p
                        && negb (Nat.eqb (Folder._id f) id)) (folders w).

(** [folder.save()] on a new document: validation, both [pre('save')]
    hooks (the branch [this.isNew]), then the insert. *)
Definition Folder_save_new (doc : Folder.t) : M Folder.t :=
  if negb (folder_name_valid (Folder.name doc)) || String.eqb (Folder.path doc) ""
  then throw "ValidationError"
  else
    let doc := Folder.set_path (replace_backslashes (Folder.path doc)) doc in
    doc <- match Folder.parentFolder doc with
           | Some pid =>
               parent <- Folder_findById pid ;;
               match parent with
               | Some parent =>
                   ret (Folder.set_path
                          (Folder.path parent ++ "/" ++ Folder.name doc)
                          (Folder.set_depth (Folder.depth parent + 1) doc))
               | None =>
                   ret (Folder.set_path (Folder.name doc) (Folder.set_depth 0 doc))
               end
           | None => ret (Folder.set_path (Folder.name doc) (Folder.set_depth 0 doc))
           end ;;
    let doc := Folder.set_path (replace_backslashes (Folder.path doc)) doc in
    createDirectory (Folder.path doc) ;;;
    taken <- gets (folder_path_taken (Folder._id doc) (Folder.path doc)) ;;
    if taken then throw "E11000 duplicate key"
    else
      modify (fun w => with_folders (folders w ++ [doc])%list w) ;;;
      ret doc.

(** The [$set] document that the update route builds. *)
Record FolderUpdates : Type := mkUpdates {
  upd_name : option string;
  upd_parentFolder : option (option nat);
  upd_path : option string
}.

Definition apply_updates (u : FolderUpdates) (f : Folder.t) : Folder.t :=
  let f := match upd_name u with Some n => Folder.set_name (trim n) f | None => f end in
  let f := match upd_parentFolder u with
           | Some p => Folder.set_parentFolder p f
           | None => f
           end in
  match upd_path u with Some p => Folder.set_path p f | None => f end.

Definition replace_folder (g : Folder.t) (l : list Folder.t) : list Folder.t :=
  map (fun f => if Nat.eqb (Folder._id f) (Folder._id g) then g else f) l.

(** [Folder.findByIdAndUpdate(id, updates, {new: true, runValidators})]:
    no [save] middleware runs on this path. *)
Definition Folder_findByIdAndUpdate (id : nat) (u : FolderUpdates)
           (runValidators : bool) : M (option Folder.t) :=
  found <- Folder_findById id ;;
  match found with
  | None => ret None
  | Some f =>
      let g := apply_updates u f in
      if runValidators
         && match upd_name u with
            | Some _ => negb (folder_name_valid (Folder.name g))
            | None => false
            end
      then throw "ValidationError"
      else
        taken <- gets (folder_path_taken id (Folder.path g)) ;;
        if match upd_path u with Some _ => taken | None => false end
        then throw "E11000 duplicate key"
        else
          modify (fun w => with_folders (replace_folder g (folders w)) w) ;;;
          ret (Some g)
  end.

(** [child.save()] inside the model's [updateChildPaths]: only [path] is
    modified, so the first hook normalises it and the second does nothing. *)
Definition Folder_save_path (child : Folder.t) : M Folder.t :=
  if String.eqb (Folder.path child) "" then throw "ValidationError"
  else
    let child := Folder.set_path (replace_backslashes (Folder.path child)) child in
    taken <- gets (folder_path_taken (Folder._id child) (Folder.path child)) ;;
    if taken then throw "E11000 duplicate key"
    else
      modify (fun w => with_folders (replace_folder child (folders w)) w) ;;;
      ret child.

(** [updateChildPaths(parentId, oldBasePath, newBasePath)] of the model
    file, bounded like the one of the routes. *)
Fixpoint Folder_updateChildPaths (fuel : nat) (parentId : nat)
         (oldBasePath newBasePath : string) : M unit :=
  match fuel with
  | 0 => diverge
  | S fuel' =>
      children <- Folder_find
                    (fun f => option_nat_eqb (Folder.parentFolder f) (Some parentId)) ;;
      for_each children (fun child =>
        let childOldPath := Folder.path child in
        saved <- Folder_save_path
                   (Folder.set_path
                      (replace_first (Folder.path child) oldBasePath newBasePath)
                      child) ;;
        Folder_updateChildPaths fuel' (Folder._id child) childOldPath
                                (Folder.path saved))
  end.

(** [folder.save()] on a stored document whose [name] or [parentFolder] was
    modified: the second [pre('save')] hook, branch
    [this.isModified('name') || this.isModified('parentFolder')], then the
    write.  No route saves a folder this way. *)
Definition Folder_save_modified (doc : Folder.t) : M Folder.t :=
  if negb (folder_name_valid (Folder.name doc)) then throw "ValidationError"
  else
    found <- Folder_findById (Folder._id doc) ;;
    match found with
    | None => throw "TypeError"
    | Some original =>
        newPath <-
          match Folder.parentFolder doc with
          | Some pid =>
              if negb (option_nat_eqb (Some pid) (Folder.parentFolder original))
              then
                parent <- Folder_findById pid ;;
                ret (match parent with
                     | Some p => Folder.path p ++ "/" ++ Folder.name doc
                     | None => Folder.name doc
                     end)
              else
                ret (match lastIndexOf ch_slash (Folder.path original) with
                     | Some i => slice_to i (Folder.path original)
                     | None => ""
                     end ++ "/" ++ Folder.name doc)
          | None =>
              ret (match lastIndexOf ch_slash (Folder.path original) with
                   | Some i => slice_to i (Folder.path original)
                   | None => ""
                   end ++ "/" ++ Folder.name doc)
          end ;;
        let newPath := replace_backslashes newPath in
        moveDirectory (Folder.path original) newPath ;;;
        let doc := Folder.set_path newPath doc in
        fuel <- gets (fun w => S (List.length (folders w))) ;;
        Folder_updateChildPaths fuel (Folder._id doc) (Folder.path original) newPath ;;;
        taken <- gets (folder_path_taken (Folder._id doc) (Folder.path doc)) ;;
        if taken then throw "E11000 duplicate key"
        else
          modify (fun w => with_folders (replace_folder doc (folders w)) w) ;;;
          ret doc
    end.

(** *** routes/folder.js: folders *)

(** [updateChildPaths(parentId, newParentPath)] of the routes file.  The
    recursion follows [parentFolder] links through the collection, so it
    is bounded by [fuel]; running out stands for a call that never
    returns. *)
Fixpoint updateChildPaths (fuel : nat) (parentId : nat) (newParentPath : string)
  : M unit :=
  match fuel with
  | 0 => diverge
  | S fuel' =>
      children <- Folder_find
                    (fun f => option_nat_eqb (Folder.parentFolder f) (Some parentId)) ;;
      for_each children (fun child =>
        let newPath :=
          replace_backslashes (join [newParentPath; Folder.name child]) in
        Folder_findByIdAndUpdate (Folder._id child)
          (mkUpdates None None (Some newPath)) false ;;;
        updateChildPaths fuel' (Folder._id child) newPath)
  end.

(** The character class of the route validators: [/^[\w\s\-().]+$/]. *)
Definition route_name_char (c : ascii) : bool :=
  is_word_char c || is_space c || Ascii.eqb c "-"%char
  || Ascii.eqb c "("%char || Ascii.eqb c ")"%char || Ascii.eqb c "."%char.

(** [router.post("/")]: create a folder. *)
Definition create_folder (u : User) (name0 : string) (parentFolder : option nat)
  : M (Response Folder.t) :=
  if negb (auth [admin] u) then ret (Fail 403 "Access denied")
  else
    let name := trim name0 in
    if negb (matches_plus route_name_char name)
    then ret (Fail 400 "Invalid characters in folder name")
    else
      try_catch
        (parent <- match parentFolder with
                   | Some pid => Folder_findById pid
                   | None => ret None
                   end ;;
         match parentFolder, parent with
         | Some _, None => ret (Fail 404 "Parent folder not found")
         | _, _ =>
             let folderPath :=
               match parent with
               | Some p => replace_backslashes (join [Folder.path p; name])
               | None => replace_backslashes (join ["/"; name])
               end in
             existing <- Folder_findOne (fun f => String.eqb (Folder.path f) folderPath) ;;
             match existing with
             | Some _ => ret (Fail 409 "Folder path already exists")
             | None =>
                 id <- new_ObjectId ;;
                 folder <- Folder_save_new
                   (Folder.mk id (trim name) folderPath (uid u) parentFolder
                              false 0 []) ;;
                 ret (Reply 201 folder)
             end
         end)
        (fun e => Fail 500 e).

(** [req.body.parentFolder]: absent, [null], or an id. *)
Inductive ParentArg : Type := ParentAbsent | ParentNull | ParentId (id : nat).

Definition truthy (s : option string) : option string :=
  match s with
  | Some "" => None
  | o => o
  end.

Definition or_else (s : option string) (d : string) : string :=
  match truthy s with Some x => x | None => d end.

(** [router.put("/:id")]: rename and/or move a folder. *)
Definition update_folder (u : User) (id : nat) (body_name : option string)
           (body_parent : ParentArg) : M (Response (option Folder.t)) :=
  try_catch
    (found <- Folder_findById id ;;
     match found with
     | None => ret (Fail 404 "Folder not found")
     | Some folder =>
         if negb (role_eqb (role u) admin)
            && negb (Nat.eqb (Folder.createdBy folder) (uid u))
         then ret (Fail 403 "Not authorized")
         else
           let finish (updates : FolderUpdates) : M (Response (option Folder.t)) :=
             updated <- Folder_findByIdAndUpdate id updates true ;;
             match truthy (upd_path updates) with
             | Some p =>
                 fuel <- gets (fun w => S (List.length (folders w))) ;;
                 updateChildPaths fuel (Folder._id folder) p
             | None => ret tt
             end ;;;
             ret (Reply 200 updated) in
           match body_parent with
           | ParentNull =>
               finish (mkUpdates (truthy body_name) (Some None)
                         (Some ("/" ++ or_else body_name (Folder.name folder))))
           | ParentId pid =>
               newParent <- Folder_findById pid ;;
               match newParent with
               | None => ret (Fail 404 "Parent folder not found")
               | Some newParent =>
                   if includes (Folder.path newParent) (Folder.path folder)
                   then ret (Fail 400 "Cannot move folder into itself or its children")
                   else
                     finish (mkUpdates (truthy body_name)
                               (Some (Some (Folder._id newParent)))
                               (Some (replace_backslashes
                                        (join [Folder.path newParent;
                                               or_else body_name (Folder.name folder)]))))
               end
           | ParentAbsent =>
               match truthy body_name with
               | Some n =>
                   parentPath <-
                     match Folder.parentFolder folder with
                     | Some pid =>
                         p <- Folder_findById pid ;;
                         match p with
                         | Some p => ret (Folder.path p)
                         | None => throw "TypeError"
                         end
                     | None => ret "/"
                     end ;;
                   finish (mkUpdates (Some n) None
                             (Some (replace_backslashes (join [parentPath; n]))))
               | None => finish (mkUpdates None None None)
               end
           end
     end)
    (fun _ => Fail 500 "Update failed").

(** [router.delete("/:id")]: [Folder.deleteOne(filter)] and
    [File.deleteMany(filter)] are query operations, so no document hook
    runs. *)
Definition delete_folder (u : User) (id : nat) : M (Response unit) :=
  if negb (auth [admin] u) then ret (Fail 403 "Access denied")
  else
    try_catch
      (found <- Folder_findById id ;;
       match found with
       | None => ret (Fail 404 "Folder not found")
       | Some folder =>
           if Folder.isSystemFolder folder
           then ret (Fail 403 "System folder cannot be deleted")
           else
             modify (fun w =>
               with_folders
                 (filter (fun f => negb (Nat.eqb (Folder._id f) (Folder._id folder)))
                         (folders w)) w) ;;;
             modify (fun w =>
               with_files
                 (filter (fun f => negb (Nat.eqb (File.folder f) (Folder._id folder)))
                         (files w)) w) ;;;
             ret (Reply 200 tt)
       end)
      (fun _ => Fail 500 "Delete failed").

(** *** models/file.model.js *)

Definition File_findById (id : nat) : M (option File.t) :=
  gets (fun w => find (fun f => Nat.eqb (File._id f) id) (files w)).

Definition File_findOne (q : File.t -> bool) : M (option File.t) :=
  gets (fun w => find q (files w)).

Definition File_find (q : File.t -> bool) : M (list File.t) :=
  gets (fun w => filter q (files w)).

(** [File.updateMany(filter, { isCurrentVersion: false })] *)
Definition File_demote (q : File.t -> bool) : M unit :=
  modify (fun w =>
    with_files
      (map (fun f => if q f then File.set_isCurrentVersion false f else f)
           (files w)) w).

(** [isDeleted: { $ne: true }] *)
Definition not_deleted (f : File.t) : bool := negb (File.isDeleted f).

(** [fileSchema.statics.generateVersionedName]; [dateStr] stands for
    [new Date().toISOString().split('T')[0]].  Every call site passes a
    version of at least 1. *)
Definition generateVersionedName (originalName : string) (version : nat)
           (format dateStr : string) : string :=
  let ext := extname originalName in
  let baseName := basename originalName ext in
  if String.eqb format "date" then baseName ++ "_" ++ dateStr ++ ext
  else if Nat.eqb version 1 then originalName
       else baseName ++ "(" ++ of_nat (version - 1) ++ ")" ++ ext.

(** [.sort({ version: -1 })] and [.sort({ version: 1 })] *)
Fixpoint insert_desc (f : File.t) (l : list File.t) : list File.t :=
  match l with
  | [] => [f]
  | g :: r => if Nat.leb (File.version g) (File.version f)
              then f :: l else g :: insert_desc f r
  end.

Definition sort_version_desc (l : list File.t) : list File.t :=
  fold_right insert_desc [] l.

Fixpoint insert_asc (f : File.t) (l : list File.t) : list File.t :=
  match l with
  | [] => [f]
  | g :: r => if Nat.leb (File.version f) (File.version g)
              then f :: l else g :: insert_asc f r
  end.

Definition sort_version_asc (l : list File.t) : list File.t :=
  fold_right insert_asc [] l.

(** The validator of [filename]: [/^[\w\-. ()]+$/]. *)
Definition filename_char (c : ascii) : bool :=
  is_word_char c || Ascii.eqb c "-"%char || Ascii.eqb c "."%char
  || Ascii.eqb c " "%char || Ascii.eqb c "("%char || Ascii.eqb c ")"%char.

Definition file_valid (doc : File.t) : bool :=
  matches_plus filename_char (File.filename doc)
  && negb (String.eqb (File.originalFilename doc) "")
  && negb (String.eqb (File.path doc) "")
  && negb (String.eqb (File.mimetype doc) "")
  && negb (String.eqb (File.extension doc) "")
  && negb (String.eqb (File.fileHash doc) "").

(** The unique indexes on [path], on [fileHash] and on
    [(folder, filename)]. *)
Definition file_key_taken (doc : File.t) (w : World) : bool :=
  unique_indexes dep
  && existsb (fun f =>
       negb (Nat.eqb (File._id f) (File._id doc))
       && (String.eqb (File.path f) (File.path doc)
           || String.eqb (File.fileHash f) (File.fileHash doc)
           || (Nat.eqb (File.folder f) (File.folder doc)
               && String.eqb (File.filename f) (File.filename doc))))
      (files w).

(** [file.save()] on a new document: the [trim] setter, validation, the
    [pre('save')] hook, then the insert. *)
Definition File_save_new (doc0 : File.t) : M File.t :=
  let doc := File.set_filename (trim (File.filename doc0)) doc0 in
  if negb (file_valid doc) then throw "ValidationError"
  else
    let doc := File.set_extension (toLowerCase (extname (File.filename doc))) doc in
    folder <- Folder_findById (File.folder doc) ;;
    match folder with
    | None => throw "Folder does not exist"
    | Some folder =>
        dirPresent <- pathExists (Folder.path folder) ;;
        (if dirPresent then ret tt
         else createDirectory (Folder.path folder) ;;; ret tt) ;;;
        let doc :=
          File.set_path
            (replace_backslashes (join [Folder.path folder; File.filename doc])) doc in
        present <- pathExists (File.path doc) ;;
        doc <- (if present
                then fileBuffer <- readFile (File.path doc) ;;
                     ret (File.set_fileHash (sha256 dep fileBuffer) doc)
                else ret doc) ;;
        taken <- gets (file_key_taken doc) ;;
        if taken then throw "E11000 duplicate key"
        else
          modify (fun w => with_files (files w ++ [doc])%list w) ;;;
          ret doc
    end.

(** [newFile.previousVersions = ...; await newFile.save()] on a stored
    document: only the modified field is written. *)
Definition File_save_previousVersions (id : nat) (l : list nat) : M unit :=
  modify (fun w =>
    with_files
      (map (fun f => if Nat.eqb (File._id f) id
                     then File.set_previousVersions l f else f)
           (files w)) w).

(** [originalFile || _id] *)
Definition lineage_root (f : File.t) : nat :=
  match File.originalFile f with Some o => o | None => File._id f end.

(** [fileSchema.statics.findVersions] *)
Definition findVersions (fileId : nat) : M (option (list File.t)) :=
  currentFile <- File_findById fileId ;;
  match currentFile with
  | None => ret None
  | Some currentFile =>
      let originalFileId := lineage_root currentFile in
      versions <- File_find
        (fun f => Nat.eqb (File._id f) originalFileId
                  || option_nat_eqb (File.originalFile f) (Some originalFileId)) ;;
      ret (Some (sort_version_asc versions))
  end.

(** [fileSchema.pre('deleteOne', { document: true })]: the storage module
    exports no [unlink], so reaching the call raises a [TypeError]. *)
Definition File_deleteOne (doc : File.t) : M unit :=
  present <- pathExists (File.path doc) ;;
  (if present then throw "TypeError: storage.unlink is not a function"
   else ret tt) ;;;
  modify (fun w =>
    with_files
      (filter (fun f => negb (Nat.eqb (File._id f) (File._id doc))) (files w)) w).

(** *** routes/folder.js: files *)

(** One element of [req.files] as multer stages it. *)
Record Upload : Type := mkUpload {
  originalname : string;
  content : string;
  up_size : nat;
  up_mimetype : string
}.

(** What the handler pushes on [savedFiles]. *)
Inductive SavedEntry : Type :=
| Stored (f : File.t)
| DuplicateOf (f : File.t).

(** [validateFolderAccess]; no folder document carries [isPublic]. *)
Definition validateFolderAccess (folderId userId : nat) : M (option Folder.t) :=
  Folder_findOne (fun f =>
    Nat.eqb (Folder._id f) folderId
    && (Nat.eqb (Folder.createdBy f) userId
        || existsb (fun a => Nat.eqb (fst a) userId) (Folder.access f))).

(** The access test shared by the file routes. *)
Definition file_hasAccess (u : User) (file : File.t) : M bool :=
  if role_eqb (role u) admin || Nat.eqb (File.owner file) (uid u) then ret true
  else
    f <- validateFolderAccess (File.folder file) (uid u) ;;
    ret (match f with Some _ => true | None => false end).

(** The [while (await File.findOne(...))] loop of the upload handler, with
    a bound on the number of rounds; [find_available_finds] shows that the
    bound the handler is given is never reached.  Mongoose casts the filter
    of a query with the schema, so the [trim] setter of [filename] is
    applied to the name that is looked up. *)
Fixpoint find_available (fuel : nat) (folderId : nat) (originalName : string)
         (counter : nat) (availableName : string) : M string :=
  match fuel with
  | 0 => diverge
  | S fuel' =>
      hit <- File_findOne (fun f =>
               Nat.eqb (File.folder f) folderId
               && String.eqb (File.filename f) (trim availableName)
               && not_deleted f) ;;
      match hit with
      | Some _ =>
          find_available fuel' folderId originalName (S counter)
            (generateVersionedName originalName (S counter) "number" "")
      | None => ret availableName
      end
  end.

(** [if (!fs.existsSync(dirPath)) { await fsp.mkdir(dirPath, { recursive: true }) }] *)
Definition ensure_dir (dirPath : string) : M unit :=
  dirPresent <- existsSync dirPath ;;
  if dirPresent then ret tt else fsp_mkdir dirPath.

Definition in_lineage (folderId : nat) (originalName : string) (f : File.t) : bool :=
  Nat.eqb (File.folder f) folderId
  && String.eqb (File.originalFilename f) originalName
  && not_deleted f.

(** The body of [for (const file of uploadedFiles)]; [None] is a
    [continue] that pushed nothing.  The name is looked up as the [trim]
    setter leaves it, and the bytes go to the name as it was computed. *)
Definition upload_item (u : User) (folder : Folder.t) (versionFormat : option string)
           (dateStr : string) (now : nat) (file : Upload) : M (option SavedEntry) :=
  let isAutoApproved :=
    role_eqb (role u) admin || role_eqb (role u) sub_admin in
  let approvalStatus := if isAutoApproved then approved else pending in
  let originalName := originalname file in
  let dirPath := join [STORAGE_ROOT; Folder.path folder] in
  ensure_dir dirPath ;;;
  existingVersions <-
    gets (fun w => sort_version_desc
                     (filter (in_lineage (Folder._id folder) originalName) (files w))) ;;
  let nextVersion :=
    match existingVersions with
    | v :: _ => File.version v + 1
    | [] => 1
    end in
  let versionedName :=
    generateVersionedName originalName nextVersion
      (or_else versionFormat "number") dateStr in
  existingFileWithName <-
    File_findOne (fun f =>
      Nat.eqb (File.folder f) (Folder._id folder)
      && String.eqb (File.filename f) (trim versionedName)
      && not_deleted f) ;;
  match existingFileWithName with
  | Some _ =>
      fuel <- gets (fun w => S (S (List.length (files w)))) ;;
      find_available fuel (Folder._id folder) originalName nextVersion versionedName ;;;
      throw "TypeError: Assignment to constant variable."
  | None =>
      let finalPath := replace_backslashes (join [dirPath; versionedName]) in
      present <- existsSync finalPath ;;
      if present then ret None
      else
        let fileHash := sha256 dep (content file) in
        duplicateFile <-
          File_findOne (fun f =>
            Nat.eqb (File.folder f) (Folder._id folder)
            && String.eqb (File.fileHash f) fileHash
            && not_deleted f) ;;
        match duplicateFile with
        | Some d => ret (Some (DuplicateOf d))
        | None =>
            fsp_rename_staged (content file) finalPath ;;;
            id <- new_ObjectId ;;
            newFile <- File_save_new
              (File.mk id versionedName originalName finalPath (up_size file)
                 (up_mimetype file) (toLowerCase (extname originalName))
                 (Folder._id folder) (uid u) (uid u) approvalStatus
                 (if isAutoApproved then Some (uid u) else None)
                 (if isAutoApproved then Some now else None)
                 nextVersion true []
                 (match existingVersions with
                  | v :: _ => Some (lineage_root v)
                  | [] => None
                  end)
                 fileHash false) ;;
            match existingVersions with
            | _ :: _ =>
                File_demote (fun f =>
                  String.eqb (File.originalFilename f) originalName
                  && Nat.eqb (File.folder f) (Folder._id folder)
                  && negb (Nat.eqb (File._id f) (File._id newFile))
                  && not_deleted f) ;;;
                File_save_previousVersions (File._id newFile)
                  (map File._id existingVersions) ;;;
                ret (Some (Stored
                       (File.set_previousVersions (map File._id existingVersions)
                                                  newFile)))
            | [] => ret (Some (Stored newFile))
            end
        end
  end.

Fixpoint upload_loop (u : User) (folder : Folder.t) (versionFormat : option string)
         (dateStr : string) (now : nat) (uploadedFiles : list Upload)
  : M (list SavedEntry) :=
  match uploadedFiles with
  | [] => ret []
  | file :: rest =>
      r <- upload_item u folder versionFormat dateStr now file ;;
      saved <- upload_loop u folder versionFormat dateStr now rest ;;
      ret (match r with Some e => e :: saved | None => saved end)
  end.

(** [router.post("/:id/files")] *)
Definition upload_files (u : User) (folderId : nat) (versionFormat : option string)
           (dateStr : string) (now : nat) (uploadedFiles : list Upload)
  : M (Response (list SavedEntry)) :=
  try_catch
    (match uploadedFiles with
     | [] => ret (Fail 400 "No files uploaded")
     | _ =>
         found <- Folder_findById folderId ;;
         match found with
         | None => ret (Fail 404 "Folder not found")
         | Some folder =>
             let hasAccess :=
               role_eqb (role u) admin
               || Nat.eqb (Folder.createdBy folder) (uid u)
               || existsb (fun a =>
                    Nat.eqb (fst a) (uid u)
                    && match snd a with
                       | perm_write | perm_admin => true
                       | perm_read => false
                       end) (Folder.access folder) in
             if negb hasAccess then ret (Fail 403 "Write access required")
             else
               savedFiles <- upload_loop u folder versionFormat dateStr now uploadedFiles ;;
               match savedFiles with
               | [] => ret (Fail 409
                         "No new files were uploaded (duplicates or conflicts detected)")
               | _ => ret (Reply 201 savedFiles)
               end
         end
     end)
    (fun _ => Fail 500 "File upload failed").

(** [try { await fsp.unlink(p) } catch (err) { if (err.code !== "ENOENT") throw err }] *)
Definition unlink_tolerant (p : string) : M unit :=
  fun w =>
    match fsp_unlink p w with
    | (Throw "ENOENT", w') => (Done tt, w')
    | r => r
    end.

(** [router.delete("/files/:id")] *)
Definition delete_file (u : User) (id : nat) : M (Response unit) :=
  try_catch
    (found <- File_findById id ;;
     match found with
     | None => ret (Fail 404 "File not found")
     | Some file =>
         hasAccess <- file_hasAccess u file ;;
         if negb hasAccess then ret (Fail 403 "Access denied")
         else
           let fullPath := join [STORAGE_ROOT; File.path file] in
           if negb (startsWith fullPath (normalize (STORAGE_ROOT ++ "/")))
           then ret (Fail 400 "Invalid file path")
           else
             unlink_tolerant fullPath ;;;
             File_deleteOne file ;;;
             ret (Reply 200 tt)
     end)
    (fun _ => Fail 500 "Failed to delete file").

(** [router.post('/files/:id/restore')]; [new File({ ..., _id: undefined })]
    draws a fresh id. *)
Definition restore_file (u : User) (id : nat) : M (Response File.t) :=
  try_catch
    (found <- File_findById id ;;
     match found with
     | None => ret (Fail 404 "Version not found")
     | Some versionToRestore =>
         hasAccess <- file_hasAccess u versionToRestore ;;
         if negb hasAccess then ret (Fail 403 "Access denied")
         else
           current <- File_findOne (fun f =>
             option_nat_eqb (File.originalFile f)
                            (Some (lineage_root versionToRestore))
             && File.isCurrentVersion f) ;;
           match current with
           | None => ret (Fail 400 "Current version not found")
           | Some currentVersion =>
               nid <- new_ObjectId ;;
               let newVersion :=
                 File.set_previousVersions
                   (File.previousVersions currentVersion
                      ++ [File._id currentVersion])%list
                   (File.set_isCurrentVersion true
                      (File.set_version (File.version currentVersion + 1)
                         (File.set_id nid versionToRestore))) in
               let newPath :=
                 join [dirname (File.path versionToRestore);
                       generateVersionedName
                         (File.originalFilename versionToRestore)
                         (File.version newVersion) "number" ""] in
               fsp_copyFile (File.path versionToRestore) newPath ;;;
               saved <- File_save_new (File.set_path newPath newVersion) ;;
               File_demote (fun f =>
                 (Nat.eqb (File._id f) (File._id versionToRestore)
                  || Nat.eqb (File._id f) (File._id currentVersion))
                 && String.eqb (File.originalFilename f)
                               (File.originalFilename versionToRestore)) ;;;
               ret (Reply 200 saved)
           end
     end)
    (fun _ => Fail 500 "Failed to restore version").

End Backend.

(** ** routes/folder.js: access lists, the folder view and reviews

    What these routes take from outside the repository: the [isEmail] and
    [normalizeEmail] functions of express-validator, the user collection,
    which no folder route writes, read through [User.findOne({ email })],
    and the way the installed Mongoose treats a key whose value is
    [undefined] in an update document (version 5 writes [null], later
    versions drop the key). *)
Record Platform : Type := mkPlatform {
  isEmail : string -> bool;
  normalizeEmail : string -> string;
  user_by_email : string -> option nat;
  update_writes_undefined : bool
}.

Definition Folder_set_access (a : list (nat * Permission)) (f : Folder.t) : Folder.t :=
  Folder.mk (Folder._id f) (Folder.name f) (Folder.path f) (Folder.createdBy f)
            (Folder.parentFolder f) (Folder.isSystemFolder f) (Folder.depth f) a.

Definition File_set_approval (s : ApprovalStatus) (approver approvedAt : option nat)
           (f : File.t) : File.t :=
  File.mk (File._id f) (File.filename f) (File.originalFilename f) (File.path f)
          (File.size f) (File.mimetype f) (File.extension f) (File.folder f)
          (File.owner f) (File.uploadedBy f) s approver approvedAt
          (File.version f) (File.isCurrentVersion f) (File.previousVersions f)
          (File.originalFile f) (File.fileHash f) (File.isDeleted f).

Definition status_eqb (a b : ApprovalStatus) : bool :=
  match a, b with
  | pending, pending | approved, approved | disapproved, disapproved => true
  | _, _ => false
  end.

Definition permission_eqb (a b : Permission) : bool :=
  match a, b with
  | perm_read, perm_read | perm_write, perm_write | perm_admin, perm_admin => true
  | _, _ => false
  end.

(** [check("permission").isIn(["read", "write", "admin"])] *)
Definition parse_permission (s : string) : option Permission :=
  if String.eqb s "read" then Some perm_read
  else if String.eqb s "write" then Some perm_write
  else if String.eqb s "admin" then Some perm_admin
  else None.

(** [folder.access.find(...)] and the assignment to the entry found, or the
    [push] of a new entry. *)
Fixpoint set_permission (userId : nat) (p : Permission) (l : list (nat * Permission))
  : list (nat * Permission) :=
  match l with
  | [] => [(userId, p)]
  | a :: r =>
      if Nat.eqb (fst a) userId then (fst a, p) :: r
      else a :: set_permission userId p r
  end.

(** [{ $pull: { access: { user: userId } } }] *)
Definition pull_user (userId : nat) (l : list (nat * Permission))
  : list (nat * Permission) :=
  filter (fun a => negb (Nat.eqb (fst a) userId)) l.

(** The double quote of the messages that quote a word. *)
Definition dq : string := String (ascii_of_nat 34) EmptyString.

Section Routes.

Variable env : Platform.

(** *** routes/folder.js: access *)

(** [folder.save()] after a change of [access] only: the document is
    validated and written; neither [pre('save')] hook has anything to do. *)
Definition Folder_save_access (doc : Folder.t) : M Folder.t :=
  if negb (folder_name_valid (Folder.name doc)) || String.eqb (Folder.path doc) ""
  then throw "ValidationError"
  else
    modify (fun w => with_folders (replace_folder doc (folders w)) w) ;;;
    ret doc.

(** [router.post("/:id/access")] *)
Definition grant_access (u : User) (id : nat) (email permission : string)
  : M (Response Folder.t) :=
  if negb (auth [admin] u) then ret (Fail 403 "Access denied")
  else if negb (isEmail env email) then ret (Fail 400 "Invalid value")
  else
    match parse_permission permission with
    | None => ret (Fail 400 "Invalid value")
    | Some permission =>
        try_catch
          (match user_by_email env (normalizeEmail env email) with
           | None => ret (Fail 404 "User not found")
           | Some userId =>
               found <- Folder_findById id ;;
               match found with
               | None => ret (Fail 404 "Folder not found")
               | Some folder =>
                   saved <- Folder_save_access
                              (Folder_set_access
                                 (set_permission userId permission (Folder.access folder))
                                 folder) ;;
                   ret (Reply 200 saved)
               end
           end)
          (fun _ => Fail 500 "Failed to update access")
    end.

(** [router.delete("/:id/access")]; [userId] is [None] when
    [mongoose.Types.ObjectId.isValid] rejects the value of the body. *)
Definition revoke_access (u : User) (id : nat) (userId : option nat)
  : M (Response Folder.t) :=
  if negb (auth [admin] u) then ret (Fail 403 "Access denied")
  else
    try_catch
      (match userId with
       | None => ret (Fail 400 "Invalid user ID")
       | Some userId =>
           found <- Folder_findById id ;;
           match found with
           | None => ret (Fail 404 "Folder not found")
           | Some folder =>
               let updated :=
                 Folder_set_access (pull_user userId (Folder.access folder)) folder in
               modify (fun w =>
                 with_folders (replace_folder updated (folders w)) w) ;;;
               ret (Reply 200 updated)
           end
       end)
      (fun _ => Fail 500 "Failed to remove access").

(** *** routes/folder.js: reading a folder *)

(** The file query of [router.get("/:id")], by role. *)
Definition visible_in_folder (u : User) (folderId : nat) (f : File.t) : bool :=
  Nat.eqb (File.folder f) folderId
  && not_deleted f
  && match role u with
     | admin | sub_admin => true
     | user =>
         status_eqb (File.approvalStatus f) approved
         || (Nat.eqb (File.uploadedBy f) (uid u)
             && (status_eqb (File.approvalStatus f) pending
                 || status_eqb (File.approvalStatus f) approved
                 || status_eqb (File.approvalStatus f) disapproved))
     end.

Record FolderView : Type := mkFolderView {
  fv_folder : Folder.t;
  fv_files : list File.t;
  fv_childFolders : list Folder.t;
  fv_fileCount : nat;
  fv_canUpload : bool;
  fv_canApprove : bool
}.

(** [router.get("/:id")]; [.sort({ createdAt: -1 })] reverses the
    collection, which is in the order of insertion. *)
Definition view_folder (u : User) (id : nat) : M (Response FolderView) :=
  try_catch
    (found <- Folder_findById id ;;
     match found with
     | None => ret (Fail 404 "Folder not found")
     | Some folder =>
         hasAccess <- validateFolderAccess id (uid u) ;;
         match hasAccess with
         | None => ret (Fail 403 "Access denied")
         | Some granted =>
             found_files <- File_find (visible_in_folder u (Folder._id folder)) ;;
             childFolders <- Folder_find (fun f =>
               option_nat_eqb (Folder.parentFolder f) (Some (Folder._id folder))) ;;
             ret (Reply 200
                    (mkFolderView folder (rev found_files) childFolders
                       (List.length found_files)
                       (role_eqb (role u) admin
                        || role_eqb (role u) sub_admin
                        || existsb (fun a => permission_eqb (snd a) perm_write)
                                   (Folder.access granted))
                       (role_eqb (role u) admin || role_eqb (role u) sub_admin)))
         end
     end)
    (fun _ => Fail 500 "Failed to retrieve folder").

(** *** routes/folder.js: approval *)

(** [File.findByIdAndUpdate(fileId, updateData, { new: true })] for the
    fields of [updateData] that the document of the model carries. *)
Definition File_findByIdAndUpdate_approval (id : nat) (s : ApprovalStatus)
           (approver approvedAt : option (option nat)) : M (option File.t) :=
  found <- File_findById id ;;
  match found with
  | None => ret None
  | Some f =>
      let g :=
        File_set_approval s
          (match approver with Some v => v | None => File.approvedBy f end)
          (match approvedAt with Some v => v | None => File.approvedAt f end) f in
      modify (fun w =>
        with_files
          (map (fun x => if Nat.eqb (File._id x) id then g else x) (files w)) w) ;;;
      ret (Some g)
  end.

(** [router.patch('/files/:fileId/approval')]; [fileId] is [None] when
    [ObjectId.isValid] rejects the parameter, [now] is [new Date()]. *)
Definition review_file (u : User) (fileId : option nat) (status : string)
           (reason : option string) (now : nat) : M (Response (option File.t)) :=
  if negb (auth [admin; sub_admin] u) then ret (Fail 403 "Access denied")
  else
    try_catch
      (match fileId with
       | None => ret (Fail 400 "Invalid file ID")
       | Some fileId =>
           if negb (String.eqb status "approved" || String.eqb status "disapproved")
           then ret (Fail 400 ("Invalid status. Must be " ++ dq ++ "approved" ++ dq
                               ++ " or " ++ dq ++ "disapproved" ++ dq))
           else if String.eqb status "disapproved"
                   && match reason with
                      | Some r => String.eqb (trim r) ""
                      | None => true
                      end
           then ret (Fail 400 "Reason is required when disapproving a file")
           else
             existingFile <- File_findById fileId ;;
             match existingFile with
             | None => ret (Fail 404 "File not found")
             | Some _ =>
                 updatedFile <-
                   (if String.eqb status "approved"
                    then File_findByIdAndUpdate_approval fileId approved
                           (Some (Some (uid u))) (Some (Some now))
                    else File_findByIdAndUpdate_approval fileId disapproved
                           (if update_writes_undefined env then Some None else None)
                           (if update_writes_undefined env then Some None else None)) ;;
                 ret (Reply 200 updatedFile)
             end
       end)
      (fun _ => Fail 500 "Failed to update file approval status").

(** *** routes/folder.js: versions *)

(** [router.get('/files/:id/versions')] *)
Definition get_versions (u : User) (id : nat) : M (Response (list File.t)) :=
  try_catch
    (versions <- findVersions id ;;
     match versions with
     | None | Some [] => ret (Fail 404 "File not found or no versions available")
     | Some (first :: rest) =>
         hasAccess <- file_hasAccess u first ;;
         if negb hasAccess then ret (Fail 403 "Access denied")
         else ret (Reply 200 (first :: rest))
     end)
    (fun _ => Fail 500 "Failed to retrieve versions").

End Routes.

(** * Specification vocabulary *)

(** A segment without separator. *)
Definition no_slash (s : string) : bool :=
  all_chars (fun c => negb (Ascii.eqb c ch_slash)) s.

(** A segment that [normalize] keeps: not empty, not [.] or [..], and
    without separator. *)
Definition proper_segment (s : string) : bool :=
  no_slash s && negb (String.eqb s "") && negb (String.eqb s ".")
  && negb (String.eqb s "..").

Definition kept (s : string) : bool :=
  negb (String.eqb s "" || String.eqb s ".").

(** The resolved path is the root itself or lies below it: the test of the
    file-delete route, extended with the root. *)
Definition inside_root (dep : Deployment) (p : string) : bool :=
  String.eqb p (STORAGE_ROOT dep) || startsWith p (STORAGE_ROOT dep ++ "/").

(** ** A worked deployment

    The examples run the handlers in one deployment: the application lives
    in [/srv/app], the process is started there, and the unique indexes are
    built.  [digest_stub] stands in for SHA-256 in the examples, which only
    compare digests for equality: it is injective, as SHA-256 is on the few
    contents the examples use. *)
Definition digest_stub (c : string) : string := "sha256:" ++ c.

Definition srv : Deployment :=
  mkDeployment ["srv"; "app"] "/srv/app" digest_stub true.

(** The same deployment started from inside the storage directory. *)
Definition srv_in_storage : Deployment :=
  mkDeployment ["srv"; "app"] "/srv/app/storage" digest_stub true.

(** The same again, when MongoDB has not built the unique indexes. *)
Definition srv_no_index : Deployment :=
  mkDeployment ["srv"; "app"] "/srv/app/storage" digest_stub false.

Definition alice : User := mkUser 100 admin.
Definition bob : User := mkUser 200 user.
Definition carol : User := mkUser 300 sub_admin.

(** The server after its start: empty collections, and on the disk the
    storage root, which [utils/storage.js] makes when it is loaded. *)
Definition empty_world : World :=
  mkWorld [] [] [] ["/"; "/srv"; "/srv/app"; "/srv/app/storage"] 1.

(** The world a handler leaves behind. *)
Definition after {A} (m : M A) (w : World) : World := snd (m w).

(** What a handler answers. *)
Definition answer {A} (m : M A) (w : World) : Outcome A := fst (m w).

(** ** The folder tree *)

(** The ancestors of a folder, nearest first, along [parentFolder]. *)
Fixpoint ancestors (fuel : nat) (l : list Folder.t) (f : Folder.t) : list Folder.t :=
  match fuel with
  | 0 => []
  | S fuel' =>
      match Folder.parentFolder f with
      | None => []
      | Some pid =>
          match find (fun g => Nat.eqb (Folder._id g) pid) l with
          | Some p => p :: ancestors fuel' l p
          | None => []
          end
      end
  end.

(** [path] is the chain of names from the root to the folder joined with
    [/], and [depth] counts the ancestors. *)
Definition path_depth_ok (l : list Folder.t) (f : Folder.t) : bool :=
  let anc := ancestors (List.length l) l f in
  String.eqb (Folder.path f)
             (join_slash (rev (map Folder.name anc) ++ [Folder.name f])%list)
  && Nat.eqb (Folder.depth f) (List.length anc).

(** Following [parentFolder] from [f] ends within [fuel] steps. *)
Fixpoint reaches_top (fuel : nat) (l : list Folder.t) (f : Folder.t) : bool :=
  match Folder.parentFolder f with
  | None => true
  | Some pid =>
      match fuel with
      | 0 => false
      | S fuel' =>
          match find (fun g => Nat.eqb (Folder._id g) pid) l with
          | Some p => reaches_top fuel' l p
          | None => true
          end
      end
  end.

(** No folder is its own ancestor. *)
Definition acyclic (l : list Folder.t) : bool :=
  forallb (reaches_top (List.length l) l) l.

(** What the examples show of a folder document. *)
Definition folder_row (f : Folder.t) : nat * string * string * nat * option nat :=
  (Folder._id f, Folder.name f, Folder.path f, Folder.depth f, Folder.parentFolder f).

(** A handler that leaves the disk alone, files and directories. *)
Definition keeps_disk {A} (m : M A) : Prop :=
  forall w, disk (snd (m w)) = disk w /\ dirs (snd (m w)) = dirs w.

(** Two root folders [a] and [b], and [c] inside [a]. *)
Definition tree_abc : World :=
  after (create_folder srv alice "c" (Some 1))
    (after (create_folder srv alice "b" None)
       (after (create_folder srv alice "a" None) empty_world)).

(** Two root folders, [a] and [data]. *)
Definition tree_a_data : World :=
  after (create_folder srv alice "data" None)
    (after (create_folder srv alice "a" None) empty_world).

(** [R/new/c] is created and [R/new] deleted, which leaves the document of
    [c] behind with its path; then [R/old/c] is created. *)
Definition tree_with_leftover : World :=
  after (create_folder srv alice "c" (Some 4))
    (after (create_folder srv alice "old" (Some 1))
       (after (delete_folder alice 2)
          (after (create_folder srv alice "c" (Some 2))
             (after (create_folder srv alice "new" (Some 1))
                (after (create_folder srv alice "R" None) empty_world))))).

(** A staged upload of a PDF. *)
Definition pdf (name body : string) : Upload :=
  mkUpload name body (String.length body) "application/pdf".

(** One root folder [a] that holds [x.pdf]. *)
Definition folder_a_with_file : World :=
  after (upload_files srv alice 1 None "2024-05-01" 10 [pdf "x.pdf" "XXX"])
    (after (create_folder srv alice "a" None) empty_world).

(** What the examples show of a file document. *)
Definition file_row (f : File.t)
  : nat * string * nat * bool * option nat :=
  (File._id f, File.filename f, File.version f, File.isCurrentVersion f,
   File.originalFile f).

(** Folder [docs] after three uploads of [report.pdf] with different
    contents: documents 2, 3 and 4 are versions 1, 2 and 3. *)
Definition docs_folder : World :=
  after (create_folder srv alice "docs" None) empty_world.

Definition three_versions : World :=
  after (upload_files srv alice 1 None "2024-05-03" 13 [pdf "report.pdf" "CCC"])
    (after (upload_files srv alice 1 None "2024-05-02" 12 [pdf "report.pdf" "BBB"])
       (after (upload_files srv alice 1 None "2024-05-01" 11 [pdf "report.pdf" "AAA"])
          docs_folder)).

(** Folder [docs] holding a file that was uploaded under the name
    [report(1).pdf], and version 1 of [report.pdf]. *)
Definition docs_with_clash : World :=
  after (upload_files srv alice 1 None "2024-05-02" 12 [pdf "report.pdf" "AAA"])
    (after (upload_files srv alice 1 None "2024-05-01" 11 [pdf "report(1).pdf" "ONE"])
       docs_folder).

(** The ids of the versions that [findVersions] returns. *)
Definition version_ids (fileId : nat) (w : World) : option (list nat) :=
  match answer (findVersions fileId) w with
  | Done (Some l) => Some (map File._id l)
  | _ => None
  end.

(** ** File versions *)

(** [d] is [doc] as [save] stores it: the hook rewrites the file name, the
    extension, the path and the hash, and nothing else. *)
Definition saved_from (d doc : File.t) : Prop :=
  d = File.set_fileHash (File.fileHash d)
        (File.set_path (File.path d)
           (File.set_extension (File.extension d)
              (File.set_filename (File.filename d) doc))).

(** The two writes that follow the insert of a new version [newid] of
    [(fid, name)]: the other members lose [isCurrentVersion], the new
    document gets its [previousVersions]. *)
Definition commit_upload (fid : nat) (name : string) (newid : nat)
           (prev : list nat) (f : File.t) : File.t :=
  let f1 :=
    if String.eqb (File.originalFilename f) name
       && Nat.eqb (File.folder f) fid
       && negb (Nat.eqb (File._id f) newid)
       && not_deleted f
    then File.set_isCurrentVersion false f else f in
  if Nat.eqb (File._id f1) newid then File.set_previousVersions prev f1 else f1.

(** The approval annotation that the uploader's role dictates. *)
Definition approval_by_role (u : User) (now : nat) (f : File.t) : Prop :=
  match role u with
  | admin | sub_admin =>
      File.approvalStatus f = approved
      /\ File.approvedBy f = Some (uid u)
      /\ File.approvedAt f = Some now
  | user =>
      File.approvalStatus f = pending
      /\ File.approvedBy f = None
      /\ File.approvedAt f = None
  end.

(** Same document id and same approval annotation. *)
Definition same_approval (g f : File.t) : Prop :=
  File._id g = File._id f
  /\ File.approvalStatus g = File.approvalStatus f
  /\ File.approvedBy g = File.approvedBy f
  /\ File.approvedAt g = File.approvedAt f.

(** The write that follows the insert of a restored version: the restored
    document and the former current one lose [isCurrentVersion]. *)
Definition restore_demote (v cur f : File.t) : File.t :=
  if (Nat.eqb (File._id f) (File._id v) || Nat.eqb (File._id f) (File._id cur))
     && String.eqb (File.originalFilename f) (File.originalFilename v)
  then File.set_isCurrentVersion false f else f.

(** A current member of the lineage [(fid, name)]. *)
Definition is_current_in (fid : nat) (name : string) (f : File.t) : bool :=
  in_lineage fid name f && File.isCurrentVersion f.

(** Every lineage of non-deleted documents that has a member has exactly
    one current member. *)
Definition one_current_per_lineage (l : list File.t) : Prop :=
  forall fid name,
    (exists f, In f l /\ in_lineage fid name f = true) ->
    List.length (filter (is_current_in fid name) l) = 1.

(** [originalFile] points to a stored document of the same folder and the
    same original name. *)
Definition links_in_lineage (l : list File.t) : Prop :=
  forall f x, In f l -> File.originalFile f = Some x ->
    exists r0, In r0 l /\ File._id r0 = x
               /\ File.folder r0 = File.folder f
               /\ File.originalFilename r0 = File.originalFilename f.

(** The state of the file collection that uploads and restores maintain. *)
Record files_ok (w : World) : Prop := mk_files_ok {
  ok_current : one_current_per_lineage (files w);
  ok_links : links_in_lineage (files w);
  ok_live : forall f, In f (files w) -> File.isDeleted f = false;
  ok_fresh : forall f, In f (files w) -> File._id f < next_id w;
  ok_ids : NoDup (map File._id (files w))
}.

(** The fields that place a document in its lineage. *)
Definition same_place (g f : File.t) : Prop :=
  File._id g = File._id f
  /\ File.folder g = File.folder f
  /\ File.originalFilename g = File.originalFilename f
  /\ File.isDeleted g = File.isDeleted f
  /\ File.originalFile g = File.originalFile f.

(** The worlds that upload and restore requests reach from a collection
    without files. *)
Inductive reachable (dep : Deployment) : World -> Prop :=
| reach_start (w : World) : files w = [] -> reachable dep w
| reach_upload (w : World) (u : User) (folderId : nat)
    (versionFormat : option string) (dateStr : string) (now : nat)
    (uploadedFiles : list Upload) :
    reachable dep w ->
    reachable dep
      (after (upload_files dep u folderId versionFormat dateStr now uploadedFiles) w)
| reach_restore (w : World) (u : User) (id : nat) :
    reachable dep w ->
    reachable dep (after (restore_file dep u id) w).

(** The same collections and the same ObjectId supply: the worlds differ on
    the disk at most. *)
Definition same_db (w w' : World) : Prop :=
  folders w' = folders w /\ files w' = files w /\ next_id w' = next_id w.

(** A handler under which a property of the world is stable, whatever the
    outcome. *)
Definition preserves (I : World -> Prop) {A} (m : M A) : Prop :=
  forall w, I w -> I (snd (m w)).

(** The first version of [report.pdf] as alice's upload stores it. *)
Definition first_report : File.t :=
  File.mk 2 "report.pdf" "report.pdf" "docs/report.pdf" 3 "application/pdf"
          ".pdf" 1 100 100 approved (Some 100) (Some 11) 1 true [] None
          "sha256:AAA" false.

(** Folder [docs] when bob has been granted write access. *)
Definition docs_shared_with_bob : World :=
  mkWorld [Folder.mk 1 "docs" "docs" 100 None false 0 [(200, perm_write)]] [] []
          ["/"; "/srv"; "/srv/app"; "/srv/app/storage"; "/srv/app/storage/docs"] 2.

(** A stored document with the id and the approval annotation of [g]. *)
Definition has_doc_like (g : File.t) (w : World) : Prop :=
  exists g', In g' (files w) /\ same_approval g' g.

(** ** Duplicate uploads and deletions *)

(** The directory of a folder on the disk, as the upload handler names
    it. *)
Definition upload_dir (dep : Deployment) (folder : Folder.t) : string :=
  join [STORAGE_ROOT dep; Folder.path folder].

(** The directory [p] is missing and cannot be made: nothing that [stat]
    finds lies under the name, and a regular file is in the way. *)
Definition dir_blocked (dep : Deployment) (p : string) (w : World) : bool :=
  negb (exists_at dep p w)
  && match mkdir_error dep p w with Some _ => true | None => false end.

(** The world once the directory [p] was made where it was missing and
    could be made. *)
Definition with_dir (dep : Deployment) (p : string) (w : World) : World :=
  if exists_at dep p w || dir_blocked dep p w then w
  else with_dirs (dirs w ++ missing_dirs dep p w)%list w.


(** A non-deleted document of folder [fid] stored under the name [n]. *)
Definition named_in (fid : nat) (n : string) (f : File.t) : bool :=
  Nat.eqb (File.folder f) fid && String.eqb (File.filename f) n && not_deleted f.

(** The versioned name that the upload handler computes for [file]. *)
Definition upload_name (folder : Folder.t) (versionFormat : option string)
           (dateStr : string) (file : Upload) (w : World) : string :=
  generateVersionedName (originalname file)
    (match sort_version_desc
             (filter (in_lineage (Folder._id folder) (originalname file)) (files w))
     with
     | v :: _ => File.version v + 1
     | [] => 1
     end)
    (or_else versionFormat "number") dateStr.


(** The write-access test of the upload handler. *)
Definition can_write (u : User) (folder : Folder.t) : bool :=
  role_eqb (role u) admin
  || Nat.eqb (Folder.createdBy folder) (uid u)
  || existsb (fun a =>
       Nat.eqb (fst a) (uid u)
       && match snd a with
          | perm_write | perm_admin => true
          | perm_read => false
          end) (Folder.access folder).


(** Folder [docs] with a sub-folder [README], whose directory the create
    hook made, and the file [a.pdf]. *)
Definition docs_with_readme : World :=
  after (upload_files srv alice 1 None "2024-05-01" 11 [pdf "a.pdf" "AAA"])
    (after (create_folder srv alice "README" (Some 1)) docs_folder).

(** Folder [docs] after the upload of a file whose name starts with a
    blank. *)
Definition docs_with_untrimmed : World :=
  after (upload_files srv alice 1 None "2024-05-01" 11 [pdf " a.pdf" "AAA"])
    docs_folder.

(** A folder agrees with its parent document: its path is the parent's path
    followed by its own name, and its depth is one more; a folder without
    parent has its name as path and depth 0. *)
Definition parent_consistent (l : list Folder.t) (f : Folder.t) : Prop :=
  match Folder.parentFolder f with
  | None => Folder.path f = Folder.name f /\ Folder.depth f = 0
  | Some pid =>
      match find (fun g => Nat.eqb (Folder._id g) pid) l with
      | Some p =>
          Folder.path f = Folder.path p ++ "/" ++ Folder.name f
          /\ Folder.depth f = Folder.depth p + 1
      | None => True
      end
  end.

(** The state of the folder collection that creations maintain. *)
Record tree_ok (w : World) : Prop := mk_tree_ok {
  tree_consistent : forall f, In f (folders w) -> parent_consistent (folders w) f;
  tree_ids : forall f, In f (folders w) -> Folder._id f < next_id w;
  tree_parents : forall f pid, In f (folders w) ->
                   Folder.parentFolder f = Some pid -> pid < next_id w;
  tree_paths : forall f, In f (folders w) ->
                 replace_backslashes (Folder.path f) = Folder.path f
}.

(** [d] is [a] or lies below [a] along [parentFolder]. *)
Inductive below (l : list Folder.t) : Folder.t -> Folder.t -> Prop :=
| below_self (f : Folder.t) : below l f f
| below_child (d p a : Folder.t) (pid : nat) :
    Folder.parentFolder d = Some pid ->
    find (fun g => Nat.eqb (Folder._id g) pid) l = Some p ->
    below l p a ->
    below l d a.

(** Stored file names are as the [trim] setter of the schema leaves them. *)
Definition names_trimmed (w : World) : Prop :=
  forall f, In f (files w) -> trim (File.filename f) = File.filename f.

(** [trimStart] on the characters of a string. *)
Fixpoint ltrim (l : list ascii) : list ascii :=
  match l with
  | [] => []
  | c :: r => if is_space c then ltrim r else l
  end.

(** The first character, if any, is not white space. *)
Definition head_kept (l : list ascii) : Prop :=
  match l with
  | [] => True
  | c :: _ => is_space c = false
  end.

(** The worlds that the routes reach which keep every stored version:
    uploads, restores, reviews, folder deletions and changes of access. *)
Inductive reachable_kept (dep : Deployment) (env : Platform) : World -> Prop :=
| kept_start (w : World) : files w = [] -> reachable_kept dep env w
| kept_upload (w : World) (u : User) (folderId : nat)
    (versionFormat : option string) (dateStr : string) (now : nat)
    (uploadedFiles : list Upload) :
    reachable_kept dep env w ->
    reachable_kept dep env
      (after (upload_files dep u folderId versionFormat dateStr now uploadedFiles) w)
| kept_restore (w : World) (u : User) (id : nat) :
    reachable_kept dep env w ->
    reachable_kept dep env (after (restore_file dep u id) w)
| kept_review (w : World) (u : User) (fileId : option nat) (status : string)
    (reason : option string) (now : nat) :
    reachable_kept dep env w ->
    reachable_kept dep env (after (review_file env u fileId status reason now) w)
| kept_delete_folder (w : World) (u : User) (id : nat) :
    reachable_kept dep env w ->
    reachable_kept dep env (after (delete_folder u id) w)
| kept_grant (w : World) (u : User) (id : nat) (email permission : string) :
    reachable_kept dep env w ->
    reachable_kept dep env (after (grant_access env u id email permission) w)
| kept_revoke (w : World) (u : User) (id : nat) (userId : option nat) :
    reachable_kept dep env w ->
    reachable_kept dep env (after (revoke_access u id userId) w).

(** Every [originalFile] names a stored document that has none itself. *)
Definition links_to_roots (w : World) : Prop :=
  forall f x, In f (files w) -> File.originalFile f = Some x ->
    exists r0, In r0 (files w) /\ File._id r0 = x /\ File.originalFile r0 = None.

(** No user has two entries in the access list of a folder. *)
Definition one_entry_per_user (f : Folder.t) : Prop :=
  NoDup (map fst (Folder.access f)).

(** A platform for the examples: one account per known address. *)
Definition office : Platform :=
  mkPlatform
    (fun s => includes s "@")
    toLowerCase
    (fun s => if String.eqb s "bob@example.org" then Some 200
              else if String.eqb s "carol@example.org" then Some 300
              else if String.eqb s "dave@example.org" then Some 400
              else None)
    false.

Definition dave : User := mkUser 400 user.
Definition erin : User := mkUser 500 admin.

(** Folder [docs] of alice: bob may write, dave and carol may read; it
    holds [a.pdf], uploaded by alice and approved with the upload, and
    [notes.pdf], uploaded by bob and pending. *)
Definition shared_docs : World :=
  after (upload_files srv bob 1 None "2024-05-02" 12 [pdf "notes.pdf" "NNN"])
    (after (upload_files srv alice 1 None "2024-05-01" 11 [pdf "a.pdf" "AAA"])
       (after (grant_access office alice 1 "carol@example.org" "read")
          (after (grant_access office alice 1 "dave@example.org" "read")
             (after (grant_access office alice 1 "bob@example.org" "write")
                docs_folder)))).

(** The write of a review: the document [id] is replaced by [g]. *)
Definition replace_file (id : nat) (g : File.t) (l : list File.t) : list File.t :=
  map (fun x => if Nat.eqb (File._id x) id then g else x) l.

(** The state of the file collection that the routes maintain which keep
    every version. *)
Definition store_ok (w : World) : Prop := files_ok w /\ links_to_roots w.

(** The test by which [findVersions] selects the versions of the root
    [o]. *)
Definition version_of (o : nat) (f : File.t) : bool :=
  Nat.eqb (File._id f) o || option_nat_eqb (File.originalFile f) (Some o).

(** * Properties *)

(** ** Node's [path] on small inputs *)

Example join_root : join ["/"; "docs"] = "/docs".
Proof. reflexivity. Qed.
Example join_dotdot : join ["/srv/app/storage"; "../etc"] = "/srv/app/etc".
Proof. reflexivity. Qed.
Example join_trailing : join ["/srv/app/storage"; "a/./b//"] = "/srv/app/storage/a/b/".
Proof. reflexivity. Qed.
Example join_rel : join ["docs"; "report.pdf"] = "docs/report.pdf".
Proof. reflexivity. Qed.
Example extname_pdf : extname "report.pdf" = ".pdf".
Proof. reflexivity. Qed.
Example extname_hidden : extname ".profile" = "".
Proof. reflexivity. Qed.
Example basename_pdf : basename "report.pdf" ".pdf" = "report".
Proof. reflexivity. Qed.
Example dirname_rel : dirname "docs/sub/report.pdf" = "docs/sub".
Proof. reflexivity. Qed.
Example dirname_root : dirname "/a" = "/".
Proof. reflexivity. Qed.
Example dirname_plain : dirname "a" = ".".
Proof. reflexivity. Qed.

(** ** Strings and segments *)

Lemma append_assoc (a b c : string) : (a ++ b) ++ c = a ++ (b ++ c).
Proof. induction a as [|x a IH]; simpl; [reflexivity | now rewrite IH]. Qed.

Lemma append_nil_r (a : string) : a ++ "" = a.
Proof. induction a as [|x a IH]; simpl; [reflexivity | now rewrite IH]. Qed.

Lemma prefix_append (a b : string) : String.prefix a (a ++ b) = true.
Proof.
  induction a as [|x a IH]; simpl.
  - now destruct b.
  - destruct (ascii_dec x x) as [_|n]; [exact IH | now elim n].
Qed.

Lemma startsWith_append (a b : string) : startsWith (a ++ b) a = true.
Proof. apply prefix_append. Qed.

Lemma split_slash_nonempty (s : string) : split_slash s <> [].
Proof.
  induction s as [|c s IH]; simpl; [discriminate|].
  destruct (Ascii.eqb c ch_slash); [discriminate|].
  destruct (split_slash s); discriminate.
Qed.

Lemma split_slash_app (a b : string) :
  split_slash (a ++ "/" ++ b) = (split_slash a ++ split_slash b)%list.
Proof.
  induction a as [|c a IH]; simpl in *.
  - reflexivity.
  - destruct (Ascii.eqb c ch_slash).
    + now rewrite IH.
    + rewrite IH. destruct (split_slash a) as [|x r] eqn:E.
      * now elim (split_slash_nonempty a).
      * reflexivity.
Qed.

Lemma split_slash_no_slash (s : string) : no_slash s = true -> split_slash s = [s].
Proof.
  induction s as [|c s IH]; simpl; [reflexivity|].
  intros H. apply andb_prop in H as [Hc Hs].
  apply negb_true_iff in Hc. rewrite Hc, (IH Hs). reflexivity.
Qed.

Lemma split_slash_join (segs : list string) :
  segs <> [] -> forallb no_slash segs = true -> split_slash (join_slash segs) = segs.
Proof.
  induction segs as [|x r IH]; [congruence|].
  intros _ H. simpl in H. apply andb_prop in H as [Hx Hr].
  destruct r as [|y r'].
  - simpl. now apply split_slash_no_slash.
  - change (join_slash (x :: y :: r')) with (x ++ "/" ++ join_slash (y :: r')).
    rewrite split_slash_app, (split_slash_no_slash _ Hx), IH by (congruence || assumption).
    reflexivity.
Qed.

Lemma join_slash_app (a b : list string) :
  a <> [] -> b <> [] ->
  join_slash (a ++ b) = join_slash a ++ "/" ++ join_slash b.
Proof.
  induction a as [|x r IH]; [congruence|].
  intros _ Hb. destruct r as [|y r'].
  - simpl. destruct b; [congruence | reflexivity].
  - change (join_slash ((x :: y :: r') ++ b))
      with (x ++ "/" ++ join_slash ((y :: r') ++ b)).
    rewrite IH by (congruence || assumption).
    change (join_slash (x :: y :: r')) with (x ++ "/" ++ join_slash (y :: r')).
    now rewrite !append_assoc.
Qed.

Lemma join_slash_not_empty (x : string) (r : list string) :
  x <> "" -> join_slash (x :: r) <> "".
Proof.
  intros Hx. destruct r; simpl; [assumption|].
  destruct x; [congruence | discriminate].
Qed.

(** ** Normalisation of paths without [..] *)

Lemma norm_fold_no_dotdot (a : bool) (segs stack : list string) :
  ~ In ".." segs ->
  fold_left (norm_step a) segs stack = (rev (filter kept segs) ++ stack)%list.
Proof.
  revert stack. induction segs as [|s r IH]; intros stack H; simpl; [reflexivity|].
  rewrite IH by (intros C; apply H; now right).
  unfold norm_step, kept.
  destruct (String.eqb s "" || String.eqb s ".") eqn:E; simpl; [reflexivity|].
  destruct (String.eqb_spec s "..") as [->|_].
  - elim H; now left.
  - now rewrite <- app_assoc.
Qed.

Lemma filter_kept_proper (segs : list string) :
  forallb proper_segment segs = true -> filter kept segs = segs.
Proof.
  induction segs as [|s r IH]; simpl; [reflexivity|].
  intros H. apply andb_prop in H as [Hs Hr]. rewrite (IH Hr).
  unfold proper_segment in Hs. unfold kept.
  repeat (apply andb_prop in Hs as [Hs ?]).
  destruct (String.eqb s ""); [discriminate|].
  destruct (String.eqb s "."); [discriminate|]. reflexivity.
Qed.

Lemma proper_no_dotdot (segs : list string) :
  forallb proper_segment segs = true -> ~ In ".." segs.
Proof.
  intros H C. rewrite forallb_forall in H. specialize (H _ C). discriminate.
Qed.

Lemma proper_no_slash (segs : list string) :
  forallb proper_segment segs = true -> forallb no_slash segs = true.
Proof.
  induction segs as [|s r IH]; simpl; [reflexivity|].
  intros H. apply andb_prop in H as [Hs Hr]. rewrite (IH Hr), andb_true_r.
  unfold proper_segment in Hs. now repeat (apply andb_prop in Hs as [Hs ?]).
Qed.

(** ** The storage adapter and the storage root *)

Section StorageRoot.

Variable dep : Deployment.
Hypothesis app_dir_proper : forallb proper_segment (app_dir dep) = true.

Let root_segs : list string := (app_dir dep ++ ["storage"])%list.

Lemma root_segs_proper : forallb proper_segment root_segs = true.
Proof.
  unfold root_segs. rewrite forallb_app, app_dir_proper. reflexivity.
Qed.

Lemma root_segs_head : exists x r, root_segs = x :: r /\ x <> "".
Proof.
  pose proof root_segs_proper as H. unfold root_segs in *.
  destruct (app_dir dep) as [|x r]; simpl in *.
  - exists "storage", []. split; [reflexivity | discriminate].
  - exists x, (r ++ ["storage"])%list. split; [reflexivity|].
    apply andb_prop in H as [Hx _]. unfold proper_segment in Hx.
    intros ->. simpl in Hx. discriminate.
Qed.

Lemma STORAGE_ROOT_eq : STORAGE_ROOT dep = String ch_slash (join_slash root_segs).
Proof. reflexivity. Qed.

Lemma split_STORAGE_ROOT : split_slash (STORAGE_ROOT dep) = "" :: root_segs.
Proof.
  rewrite STORAGE_ROOT_eq. simpl. f_equal.
  apply split_slash_join.
  - destruct root_segs_head as (x & r & -> & _). discriminate.
  - apply proper_no_slash, root_segs_proper.
Qed.

(** Normalising an absolute name whose segments start with those of the
    root and continue without [..] stays at or below the root. *)
Lemma normalize_inside_root (s' : string) (tail : list string) :
  split_slash (String ch_slash s') = ("" :: root_segs ++ tail)%list ->
  ~ In ".." tail ->
  inside_root dep (normalize (String ch_slash s')) = true.
Proof.
  intros Hsplit Htail.
  unfold normalize.
  change (String.eqb (String ch_slash s') "") with false. cbv iota.
  change (startsWith (String ch_slash s') "/") with
    (String.prefix "" s').
  assert (Hp : String.prefix "" s' = true) by now destruct s'.
  rewrite Hp. cbv zeta. simpl negb.
  unfold normalizeString. rewrite Hsplit.
  rewrite norm_fold_no_dotdot.
  2:{ intros [C|C]; [discriminate|]. apply in_app_or in C as [C|C].
      - now apply (proper_no_dotdot _ root_segs_proper).
      - now apply Htail. }
  rewrite app_nil_r, rev_involutive.
  change (filter kept ("" :: root_segs ++ tail)%list)
    with (filter kept (root_segs ++ tail)%list).
  rewrite filter_app, (filter_kept_proper _ root_segs_proper).
  destruct root_segs_head as (x & r & Hr & Hx).
  assert (Hne : forall l, String.eqb (join_slash (root_segs ++ l)%list) "" = false).
  { intros l. rewrite Hr. apply String.eqb_neq.
    change ((x :: r) ++ l)%list with (x :: (r ++ l))%list.
    now apply join_slash_not_empty. }
  rewrite Hne. unfold inside_root. rewrite STORAGE_ROOT_eq.
  assert (Hroot : root_segs <> []) by (rewrite Hr; discriminate).
  destruct (filter kept tail) as [|y rest] eqn:Erest.
  - rewrite app_nil_r.
    destruct (endsWith (String ch_slash s') "/").
    + apply orb_true_iff. right.
      change ("/" ++ join_slash root_segs ++ "/")
        with (String ch_slash (join_slash root_segs) ++ "/").
      rewrite <- (append_nil_r (String ch_slash (join_slash root_segs) ++ "/")) at 1.
      apply startsWith_append.
    + apply orb_true_iff. left. apply String.eqb_refl.
  - rewrite (join_slash_app root_segs (y :: rest)) by (assumption || discriminate).
    apply orb_true_iff. right.
    destruct (endsWith (String ch_slash s') "/").
    + change ("/" ++ (join_slash root_segs ++ "/" ++ join_slash (y :: rest)) ++ "/")
        with (String ch_slash
                ((join_slash root_segs ++ "/" ++ join_slash (y :: rest)) ++ "/")).
      rewrite append_assoc.
      change (String ch_slash
                (join_slash root_segs ++ ("/" ++ join_slash (y :: rest)) ++ "/"))
        with (String ch_slash (join_slash root_segs)
                ++ (("/" ++ join_slash (y :: rest)) ++ "/")).
      rewrite (append_assoc "/").
      rewrite <- (append_assoc (String ch_slash (join_slash root_segs)) "/").
      apply startsWith_append.
    + change ("/" ++ join_slash root_segs ++ "/" ++ join_slash (y :: rest))
        with (String ch_slash (join_slash root_segs)
                ++ ("/" ++ join_slash (y :: rest))).
      rewrite <- append_assoc. apply startsWith_append.
Qed.

(** [getFullPath] of a name without [..] segments stays at or below the
    root. *)
Lemma getFullPath_inside_root (relativePath : string) :
  ~ In ".." (split_slash relativePath) ->
  inside_root dep (getFullPath dep relativePath) = true.
Proof.
  intros H. unfold getFullPath, join.
  assert (Hroot : String.eqb (STORAGE_ROOT dep) "" = false) by reflexivity.
  cbn [filter]. rewrite Hroot. cbn [negb].
  destruct (String.eqb_spec relativePath "") as [->|Hrel].
  - cbn [negb filter]. cbn [join_slash].
    rewrite STORAGE_ROOT_eq.
    apply (normalize_inside_root _ []).
    + rewrite <- STORAGE_ROOT_eq, split_STORAGE_ROOT, app_nil_r. reflexivity.
    + intros [].
  - cbn [negb filter]. cbn [join_slash].
    change (STORAGE_ROOT dep ++ "/" ++ relativePath)
      with (String ch_slash (join_slash root_segs ++ "/" ++ relativePath)).
    apply (normalize_inside_root _ (split_slash relativePath)); [|assumption].
    change (String ch_slash (join_slash root_segs ++ "/" ++ relativePath))
      with (STORAGE_ROOT dep ++ "/" ++ relativePath).
    rewrite split_slash_app, split_STORAGE_ROOT. reflexivity.
Qed.

End StorageRoot.

(** ** C1: resolution against the storage root *)

(** C1, as the code has it: [getFullPath] is a plain [path.join] with the
    root and never fails.  A relative path without [..] segments resolves to
    the root or below it.  Only [deleteDirectory] has a guard: it raises its
    error, and touches nothing, when the resolved path is the root itself or
    does not start with the root's name. *)
Theorem getFullPath_contract (dep : Deployment) (relativePath : string) (w : World) :
  forallb proper_segment (app_dir dep) = true ->
  (~ In ".." (split_slash relativePath) ->
   inside_root dep (getFullPath dep relativePath) = true)
  /\ (getFullPath dep relativePath = STORAGE_ROOT dep
      \/ startsWith (getFullPath dep relativePath) (STORAGE_ROOT dep) = false ->
      deleteDirectory dep relativePath w
      = (Throw "Attempted to delete protected directory", w)).
Proof.
  intros Hdep. split.
  - now apply getFullPath_inside_root.
  - intros H. unfold deleteDirectory.
    destruct H as [-> | ->].
    + now rewrite String.eqb_refl.
    + now rewrite orb_true_r.
Qed.

Lemma getFullPath_contract_witness :
  inside_root srv (getFullPath srv "docs/2024/q1") = true
  /\ deleteDirectory srv "docs/.." empty_world
     = (Throw "Attempted to delete protected directory", empty_world)
  /\ deleteDirectory srv "../../etc" empty_world
     = (Throw "Attempted to delete protected directory", empty_world).
Proof.
  split; [|split].
  - apply (getFullPath_contract srv "docs/2024/q1" empty_world); [reflexivity|].
    vm_compute. intuition discriminate.
  - apply (getFullPath_contract srv "docs/.." empty_world); [reflexivity|].
    left. reflexivity.
  - apply (getFullPath_contract srv "../../etc" empty_world); [reflexivity|].
    right. reflexivity.
Defined.

(** C1 as stated fails: a path with [..] segments resolves outside the
    root, nothing raises an error, and [createDirectory] and
    [moveDirectory] act on the outside location: the one makes the
    directories [/srv/tmp] and [/srv/tmp/drop], the other moves the directory
    [docs] of the root, with the file in it, to [/srv/tmp/drop]. *)
Lemma getFullPath_escapes_root :
  getFullPath srv "../secrets/key.pem" = "/srv/app/secrets/key.pem"
  /\ inside_root srv (getFullPath srv "../secrets/key.pem") = false
  /\ createDirectory srv "../../tmp/drop" empty_world
     = (Done "/srv/tmp/drop",
        mkWorld [] [] []
          ["/"; "/srv"; "/srv/app"; "/srv/app/storage"; "/srv/tmp";
           "/srv/tmp/drop"] 1)
  /\ moveDirectory srv "docs" "../../tmp/drop"
       (mkWorld [] [] [("/srv/app/storage/docs/a.txt", "A")]
          ["/"; "/srv"; "/srv/app"; "/srv/app/storage";
           "/srv/app/storage/docs"] 1)
     = (Done tt,
        mkWorld [] [] [("/srv/tmp/drop/a.txt", "A")]
          ["/"; "/srv"; "/srv/app"; "/srv/app/storage"; "/srv/tmp/drop";
           "/srv/tmp"] 1).
Proof. vm_compute. repeat split. Qed.

(** The guard of [deleteDirectory] compares names, not directories: a
    sibling whose name extends the root's passes it, and so does the root
    written with a trailing separator. *)
Lemma deleteDirectory_guard_by_name :
  deleteDirectory srv "../storage-old"
    (mkWorld [] [] [("/srv/app/storage-old/keep.txt", "K")]
       ["/"; "/srv"; "/srv/app"; "/srv/app/storage"; "/srv/app/storage-old"] 1)
  = (Done tt, mkWorld [] [] [] ["/"; "/srv"; "/srv/app"; "/srv/app/storage"] 1)
  /\ deleteDirectory srv "/"
       (mkWorld [] [] [("/srv/app/storage/docs/a.txt", "A")]
          ["/"; "/srv"; "/srv/app"; "/srv/app/storage";
           "/srv/app/storage/docs"] 1)
     = (Done tt, mkWorld [] [] [] ["/"; "/srv"; "/srv/app"] 1).
Proof. split; vm_compute; reflexivity. Qed.

(** ** What the calls of [fs] leave behind *)

Lemma fsp_mkdir_cases (dep : Deployment) (p : string) (w : World) :
  (exists e, fsp_mkdir dep p w = (Throw e, w))
  \/ fsp_mkdir dep p w
     = (Done tt, with_dirs (dirs w ++ missing_dirs dep p w)%list w).
Proof.
  unfold fsp_mkdir. destruct (mkdir_error dep p w) as [e|]; [left; eauto | now right].
Qed.

Lemma createDirectory_cases (dep : Deployment) (p : string) (w : World) :
  (exists e, createDirectory dep p w = (Throw e, w))
  \/ createDirectory dep p w
     = (Done (getFullPath dep p),
        with_dirs (dirs w ++ missing_dirs dep (getFullPath dep p) w)%list w).
Proof.
  unfold createDirectory, bind.
  destruct (fsp_mkdir_cases dep (getFullPath dep p) w) as [[e ->] | ->];
    [left; eauto | now right].
Qed.

Lemma fsp_rename_staged_cases (dep : Deployment) (c dst : string) (w : World) :
  (exists e, fsp_rename_staged dep c dst w = (Throw e, w))
  \/ fsp_rename_staged dep c dst w
     = (Done tt,
        with_disk (disk_write (entry_name (fs_resolve dep dst)) c (disk w)) w).
Proof.
  unfold fsp_rename_staged.
  destruct (write_error dep dst w) as [e|]; [left; eauto | now right].
Qed.

Lemma fsp_copyFile_cases (dep : Deployment) (src dst : string) (w : World) :
  (exists e, fsp_copyFile dep src dst w = (Throw e, w))
  \/ (exists c,
        fsp_copyFile dep src dst w
        = (Done tt,
           with_disk (disk_write (entry_name (fs_resolve dep dst)) c (disk w)) w)).
Proof.
  unfold fsp_copyFile.
  destruct (entry_at dep src w) as [c| |]; [|left; eauto|left; eauto].
  destruct (write_error dep dst w) as [e|]; [left; eauto | right; eauto].
Qed.

Lemma ensure_dir_cases (dep : Deployment) (p : string) (w : World) :
  (dir_blocked dep p w = true /\ exists e, ensure_dir dep p w = (Throw e, w))
  \/ (dir_blocked dep p w = false
      /\ ensure_dir dep p w = (Done tt, with_dir dep p w)).
Proof.
  unfold ensure_dir, with_dir, dir_blocked, bind, existsSync, gets, fsp_mkdir.
  destruct (exists_at dep p w); cbn [negb andb orb]; [now right|].
  destruct (mkdir_error dep p w) as [e|]; [left; eauto | now right].
Qed.

Lemma with_dir_same_db (dep : Deployment) (p : string) (w : World) :
  same_db w (with_dir dep p w) /\ disk (with_dir dep p w) = disk w.
Proof.
  unfold with_dir, same_db.
  destruct (exists_at dep p w || dir_blocked dep p w); repeat split.
Qed.

Lemma readFile_cases (dep : Deployment) (p : string) (w : World) :
  (exists e, readFile dep p w = (Throw e, w))
  \/ (exists c, readFile dep p w = (Done c, w)).
Proof.
  unfold readFile.
  destruct (entry_at dep (getFullPath dep p) w) as [c| |];
    [right; eauto | left; eauto | left; eauto].
Qed.

(** ** C2: [path] and [depth] against the ancestor chain *)

Example create_folder_keeps_path_depth :
  map folder_row (folders tree_abc)
  = [(1, "a", "a", 0, None); (2, "b", "b", 0, None); (3, "c", "a/c", 1, Some 1)]
  /\ forallb (path_depth_ok (folders tree_abc)) (folders tree_abc) = true.
Proof. split; reflexivity. Qed.

(** C2 fails on the update route: moving [a] below [b] leaves the depth of
    [a] and of its child as they were, and renaming a root folder or moving a
    folder to the root writes a path with a leading separator. *)
Theorem update_folder_breaks_path_depth :
  (let w := after (update_folder srv alice 1 None (ParentId 2)) tree_abc in
   map folder_row (folders w)
   = [(1, "a", "b/a", 0, Some 2); (2, "b", "b", 0, None); (3, "c", "b/a/c", 1, Some 1)]
   /\ map (path_depth_ok (folders w)) (folders w) = [false; true; false])
  /\ (let w := after (update_folder srv alice 2 (Some "z") ParentAbsent) tree_abc in
      map folder_row (folders w)
      = [(1, "a", "a", 0, None); (2, "z", "/z", 0, None); (3, "c", "a/c", 1, Some 1)]
      /\ map (path_depth_ok (folders w)) (folders w) = [true; false; true])
  /\ (let w := after (update_folder srv alice 3 None ParentNull) tree_abc in
      map folder_row (folders w)
      = [(1, "a", "a", 0, None); (2, "b", "b", 0, None); (3, "c", "/c", 1, None)]
      /\ map (path_depth_ok (folders w)) (folders w) = [true; true; false]).
Proof. vm_compute. repeat split. Qed.

Lemma replace_backslashes_append (a b : string) :
  replace_backslashes (a ++ b) = replace_backslashes a ++ replace_backslashes b.
Proof. induction a as [|c a IH]; simpl; [reflexivity | now rewrite IH]. Qed.

Lemma replace_backslashes_name (n : string) :
  all_chars folder_name_char n = true -> replace_backslashes n = n.
Proof.
  induction n as [|c n IH]; simpl; [reflexivity|].
  intros H. apply andb_prop in H as [Hc Hn]. rewrite (IH Hn).
  destruct (Ascii.eqb_spec c ch_backslash) as [->|_]; [discriminate | reflexivity].
Qed.

Lemma find_app_fresh (l : list Folder.t) (doc : Folder.t) (pid : nat) :
  pid <> Folder._id doc ->
  find (fun g => Nat.eqb (Folder._id g) pid) (l ++ [doc])%list
  = find (fun g => Nat.eqb (Folder._id g) pid) l.
Proof.
  intros Hne. induction l as [|g l IH]; simpl.
  - apply Nat.eqb_neq in Hne. rewrite Nat.eqb_sym in Hne. now rewrite Hne.
  - destruct (Nat.eqb (Folder._id g) pid); [reflexivity | exact IH].
Qed.

Lemma Folder_save_new_cases (dep : Deployment) (doc0 : Folder.t) (w : World) :
  let r := Folder_save_new dep doc0 w in
  (folders (snd r) = folders w /\ next_id (snd r) = next_id w)
  \/ (exists doc,
        fst r = Done doc
        /\ folders (snd r) = (folders w ++ [doc])%list
        /\ next_id (snd r) = next_id w
        /\ Folder._id doc = Folder._id doc0
        /\ Folder.name doc = Folder.name doc0
        /\ Folder.parentFolder doc = Folder.parentFolder doc0
        /\ folder_name_valid (Folder.name doc0) = true
        /\ match Folder.parentFolder doc0 with
           | None =>
               Folder.path doc = replace_backslashes (Folder.name doc0)
               /\ Folder.depth doc = 0
           | Some pid =>
               match find (fun g => Nat.eqb (Folder._id g) pid) (folders w) with
               | Some p =>
                   Folder.path doc
                   = replace_backslashes (Folder.path p ++ "/" ++ Folder.name doc0)
                   /\ Folder.depth doc = Folder.depth p + 1
               | None =>
                   Folder.path doc = replace_backslashes (Folder.name doc0)
                   /\ Folder.depth doc = 0
               end
           end).
Proof.
  intros r.
  assert (Hr : r = Folder_save_new dep doc0 w) by reflexivity.
  clearbody r. unfold Folder_save_new in Hr.
  destruct (folder_name_valid (Folder.name doc0)) eqn:Ev; cbn [negb orb] in Hr.
  2:{ left. subst r. split; reflexivity. }
  destruct (String.eqb (Folder.path doc0) ""); [left; subst r; split; reflexivity|].
  destruct doc0 as [i n p c par sys dp acc].
  cbn [Folder.parentFolder Folder.set_path Folder.path Folder.name Folder._id
       Folder.set_depth Folder.depth Folder.createdBy Folder.isSystemFolder
       Folder.access] in *.
  destruct par as [pid|].
  - unfold bind at 1 in Hr. unfold bind at 1 in Hr.
    unfold Folder_findById at 1, gets at 1 in Hr.
    destruct (find (fun g => Nat.eqb (Folder._id g) pid) (folders w)) as [q|];
      unfold ret at 1 in Hr; cbv zeta in Hr;
      cbn [Folder.parentFolder Folder.set_path Folder.path Folder.name Folder._id
           Folder.set_depth Folder.depth Folder.createdBy Folder.isSystemFolder
           Folder.access] in Hr;
      unfold bind at 1 in Hr;
      (match type of Hr with context [createDirectory dep ?p0 ?w0] =>
         destruct (createDirectory_cases dep p0 w0) as [[e He] | He];
         rewrite He in Hr
       end; [left; subst r; split; reflexivity|]);
      unfold bind at 1 in Hr; unfold gets at 1 in Hr;
      (match type of Hr with context [folder_path_taken dep ?a ?b ?w1] =>
         destruct (folder_path_taken dep a b w1) end;
       [left; subst r; split; reflexivity
       |right; eexists; subst r; repeat split]).
  - unfold bind at 1 in Hr. unfold ret at 1 in Hr. cbv zeta in Hr.
    cbn [Folder.parentFolder Folder.set_path Folder.path Folder.name Folder._id
         Folder.set_depth Folder.depth Folder.createdBy Folder.isSystemFolder
         Folder.access] in Hr.
    unfold bind at 1 in Hr.
    match type of Hr with context [createDirectory dep ?p0 ?w0] =>
      destruct (createDirectory_cases dep p0 w0) as [[e He] | He];
      rewrite He in Hr
    end; [left; subst r; split; reflexivity|].
    unfold bind at 1 in Hr. unfold gets at 1 in Hr.
    match type of Hr with context [folder_path_taken dep ?a ?b ?w1] =>
      destruct (folder_path_taken dep a b w1) end;
      [left; subst r; split; reflexivity
      |right; eexists; subst r; repeat split].
Qed.

(** A creation request either leaves the collection as it was, or appends
    one folder whose path and depth are computed from its parent. *)
Lemma create_folder_cases (dep : Deployment) (u : User) (name0 : string)
      (parentFolder : option nat) (w : World) :
  let r := create_folder dep u name0 parentFolder w in
  (folders (snd r) = folders w /\ next_id w <= next_id (snd r))
  \/ (exists doc,
        folders (snd r) = (folders w ++ [doc])%list
        /\ next_id (snd r) = S (next_id w)
        /\ Folder._id doc = next_id w
        /\ Folder.parentFolder doc = parentFolder
        /\ folder_name_valid (Folder.name doc) = true
        /\ match parentFolder with
           | None =>
               Folder.path doc = replace_backslashes (Folder.name doc)
               /\ Folder.depth doc = 0
           | Some pid =>
               exists p,
                 find (fun g => Nat.eqb (Folder._id g) pid) (folders w) = Some p
                 /\ Folder.path doc
                    = replace_backslashes (Folder.path p ++ "/" ++ Folder.name doc)
                 /\ Folder.depth doc = Folder.depth p + 1
           end).
Proof.
  intros r.
  assert (Hr : r = create_folder dep u name0 parentFolder w) by reflexivity.
  clearbody r. unfold create_folder in Hr.
  destruct (negb (auth [admin] u)); [left; subst r; split; simpl; lia || reflexivity|].
  destruct (negb (matches_plus route_name_char (trim name0)));
    [left; subst r; split; simpl; lia || reflexivity|].
  unfold try_catch in Hr. unfold bind at 1 in Hr.
  destruct parentFolder as [pid|].
  - unfold Folder_findById at 1, gets at 1 in Hr.
    destruct (find (fun g => Nat.eqb (Folder._id g) pid) (folders w)) as [p|] eqn:Ep.
    2:{ left. subst r. split; simpl; lia || reflexivity. }
    unfold bind at 1 in Hr. unfold Folder_findOne at 1, gets at 1 in Hr.
    match type of Hr with context [find ?q (folders w)] =>
      destruct (find q (folders w)) end.
    { left. subst r. split; simpl; lia || reflexivity. }
    unfold bind at 1 in Hr. unfold new_ObjectId at 1 in Hr.
    unfold bind at 1 in Hr.
    match type of Hr with context [Folder_save_new dep ?d ?w1] =>
      destruct (Folder_save_new_cases dep d w1)
        as [(Hf & Hn) | (doc & Hs & Hf & Hn & Hid & Hna & Hpa & Hv & Hpd)]
    end.
    + left. cbv zeta in Hf, Hn.
      match type of Hr with context [Folder_save_new dep ?d ?w1] =>
        destruct (Folder_save_new dep d w1) as [[a|e|] w2] end;
        subst r; unfold ret; cbn [fst snd folders next_id with_next_id] in *;
        rewrite Hf, Hn; (split; [reflexivity | lia]).
    + right. cbv zeta in Hs, Hf, Hn.
      match type of Hr with context [Folder_save_new dep ?d ?w1] =>
        destruct (Folder_save_new dep d w1) as [[a|e|] w2] end;
        cbn [fst] in Hs; try discriminate Hs.
      injection Hs as ->. subst r. exists doc. unfold ret.
      cbn [Folder.parentFolder Folder._id Folder.name folders next_id
           with_next_id fst snd] in *.
      rewrite Ep in Hpd. rewrite Hna.
      repeat split; try assumption; try reflexivity.
      exists p. auto.
  - unfold ret at 1 in Hr.
    unfold bind at 1 in Hr. unfold Folder_findOne at 1, gets at 1 in Hr.
    match type of Hr with context [find ?q (folders w)] =>
      destruct (find q (folders w)) end.
    { left. subst r. split; simpl; lia || reflexivity. }
    unfold bind at 1 in Hr. unfold new_ObjectId at 1 in Hr.
    unfold bind at 1 in Hr.
    match type of Hr with context [Folder_save_new dep ?d ?w1] =>
      destruct (Folder_save_new_cases dep d w1)
        as [(Hf & Hn) | (doc & Hs & Hf & Hn & Hid & Hna & Hpa & Hv & Hpd)]
    end.
    + left. cbv zeta in Hf, Hn.
      match type of Hr with context [Folder_save_new dep ?d ?w1] =>
        destruct (Folder_save_new dep d w1) as [[a|e|] w2] end;
        subst r; unfold ret; cbn [fst snd folders next_id with_next_id] in *;
        rewrite Hf, Hn; (split; [reflexivity | lia]).
    + right. cbv zeta in Hs, Hf, Hn.
      match type of Hr with context [Folder_save_new dep ?d ?w1] =>
        destruct (Folder_save_new dep d w1) as [[a|e|] w2] end;
        cbn [fst] in Hs; try discriminate Hs.
      injection Hs as ->. subst r. exists doc. unfold ret.
      cbn [Folder.parentFolder Folder._id Folder.name folders next_id
           with_next_id fst snd] in *.
      rewrite Hna. repeat split; try assumption; try reflexivity; apply Hpd.
Qed.

(** The create route keeps every folder consistent with its parent: the
    new folder gets the parent's path followed by its name and the parent's
    depth plus one, or its name and depth 0 at the root. *)
Lemma create_folder_tree_ok (dep : Deployment) (u : User) (name0 : string)
      (parentFolder : option nat) :
  preserves tree_ok (create_folder dep u name0 parentFolder).
Proof.
  intros w [H1 H2 H3 H4].
  destruct (create_folder_cases dep u name0 parentFolder w)
    as [(Hf & Hn) | (doc & Hf & Hn & Hid & Hpar & Hvalid & Hpd)].
  - constructor; rewrite Hf; auto.
    + intros f Hin. specialize (H2 f Hin). lia.
    + intros f pid Hin Hp. specialize (H3 f pid Hin Hp). lia.
  - unfold folder_name_valid, matches_plus in Hvalid.
    apply andb_prop in Hvalid as [_ Hchars].
    pose proof (replace_backslashes_name _ Hchars) as Hname.
    assert (Hpath : replace_backslashes (Folder.path doc) = Folder.path doc
                    /\ parent_consistent (folders w) doc
                    /\ forall pid, Folder.parentFolder doc = Some pid ->
                                   pid < next_id w).
    { unfold parent_consistent. rewrite Hpar.
      destruct parentFolder as [pid|].
      - destruct Hpd as (p & Hfp & Hp & Hd). rewrite Hfp.
        rewrite !replace_backslashes_append, Hname in Hp.
        apply find_some in Hfp as [Hin Heq]. apply Nat.eqb_eq in Heq.
        rewrite (H4 p Hin) in Hp. change (replace_backslashes "/") with "/" in Hp.
        repeat split; try assumption.
        + rewrite Hp, !replace_backslashes_append, Hname, (H4 p Hin). reflexivity.
        + intros pid' Hpid. injection Hpid as <-. specialize (H2 p Hin). lia.
      - destruct Hpd as (Hp & Hd). rewrite Hname in Hp.
        repeat split; try assumption; [congruence | discriminate]. }
    destruct Hpath as (Hpath & Hcons & Hparent).
    constructor; rewrite Hf; try rewrite Hn.
    + intros f Hin. apply in_app_or in Hin as [Hin | [<- | []]].
      * specialize (H1 f Hin). unfold parent_consistent in *.
        destruct (Folder.parentFolder f) as [pid|] eqn:Ep; [|exact H1].
        rewrite find_app_fresh; [exact H1|].
        specialize (H3 f pid Hin Ep). lia.
      * unfold parent_consistent in *.
        destruct (Folder.parentFolder doc) as [pid|] eqn:Ep; [|exact Hcons].
        rewrite find_app_fresh; [exact Hcons|].
        specialize (Hparent pid eq_refl). lia.
    + intros f Hin. apply in_app_or in Hin as [Hin | [<- | []]]; [|lia].
      specialize (H2 f Hin). lia.
    + intros f pid Hin Hp. apply in_app_or in Hin as [Hin | [<- | []]].
      * specialize (H3 f pid Hin Hp). lia.
      * specialize (Hparent pid Hp). lia.
    + intros f Hin. apply in_app_or in Hin as [Hin | [<- | []]]; auto.
Qed.

Lemma tree_ok_empty : tree_ok empty_world.
Proof. constructor; simpl; intros; contradiction. Qed.

Example tree_abc_ok : tree_ok tree_abc.
Proof.
  unfold tree_abc, after. do 3 apply create_folder_tree_ok. apply tree_ok_empty.
Qed.

(** After the move of [a] below [b] through the update route, [a] no
    longer agrees with its parent. *)
Example update_folder_breaks_parent_consistency :
  let w := after (update_folder srv alice 1 None (ParentId 2)) tree_abc in
  ~ tree_ok w.
Proof.
  intros w [H _ _ _].
  specialize (H (Folder.mk 1 "a" "b/a" 100 (Some 2) false 0 [])).
  assert (Hin : In (Folder.mk 1 "a" "b/a" 100 (Some 2) false 0 []) (folders w))
    by (vm_compute; auto).
  specialize (H Hin). vm_compute in H. destruct H as [_ H].
  clear - H. discriminate H.
Qed.

(** ** C5: the update route and the disk *)

Lemma keeps_disk_ret {A} (a : A) : keeps_disk (ret a).
Proof. intros w. split; reflexivity. Qed.

Lemma keeps_disk_throw {A} (e : string) : keeps_disk (@throw A e).
Proof. intros w. split; reflexivity. Qed.

Lemma keeps_disk_diverge {A} : keeps_disk (@diverge A).
Proof. intros w. split; reflexivity. Qed.

Lemma keeps_disk_gets {A} (f : World -> A) : keeps_disk (gets f).
Proof. intros w. split; reflexivity. Qed.

Lemma keeps_disk_bind {A B} (m : M A) (k : A -> M B) :
  keeps_disk m -> (forall a, keeps_disk (k a)) -> keeps_disk (bind m k).
Proof.
  intros Hm Hk w. unfold bind. specialize (Hm w).
  destruct (m w) as [[a|e|] w'] eqn:E; simpl in *; try assumption.
  destruct Hm as [Hd Hdirs]. destruct (Hk a w') as [Hd' Hdirs'].
  split; congruence.
Qed.

Lemma keeps_disk_try_catch {A} (m : M (Response A)) (h : string -> Response A) :
  keeps_disk m -> keeps_disk (try_catch m h).
Proof.
  intros Hm w. unfold try_catch. specialize (Hm w).
  destruct (m w) as [[a|e|] w']; assumption.
Qed.

Lemma keeps_disk_for_each {A} (xs : list A) (body : A -> M unit) :
  (forall x, keeps_disk (body x)) -> keeps_disk (for_each xs body).
Proof.
  intros H. induction xs as [|x r IH]; simpl.
  - apply keeps_disk_ret.
  - apply keeps_disk_bind; [apply H | intros _; exact IH].
Qed.

Lemma keeps_disk_with_folders (f : World -> list Folder.t) :
  keeps_disk (modify (fun w => with_folders (f w) w)).
Proof. intros w. split; reflexivity. Qed.

Create HintDb disk.

#[local] Hint Resolve keeps_disk_ret keeps_disk_throw keeps_disk_diverge
  keeps_disk_gets keeps_disk_with_folders : disk.

Lemma keeps_disk_findByIdAndUpdate (dep : Deployment) (id : nat)
      (u : FolderUpdates) (v : bool) :
  keeps_disk (Folder_findByIdAndUpdate dep id u v).
Proof.
  unfold Folder_findByIdAndUpdate, Folder_findById.
  apply keeps_disk_bind; [auto with disk|]. intros [f|]; [|auto with disk].
  match goal with |- keeps_disk (if ?c then _ else _) => destruct c end;
    [auto with disk|].
  apply keeps_disk_bind; [auto with disk|]. intros taken.
  match goal with |- keeps_disk (if ?c then _ else _) => destruct c end;
    [auto with disk|].
  apply keeps_disk_bind; [|intros _]; auto with disk.
Qed.

Lemma keeps_disk_updateChildPaths (dep : Deployment) (fuel parentId : nat)
      (newParentPath : string) :
  keeps_disk (updateChildPaths dep fuel parentId newParentPath).
Proof.
  revert parentId newParentPath.
  induction fuel as [|fuel IH]; intros parentId newParentPath; simpl.
  - apply keeps_disk_diverge.
  - apply keeps_disk_bind; [unfold Folder_find; auto with disk|].
    intros children. apply keeps_disk_for_each. intros child.
    apply keeps_disk_bind; [apply keeps_disk_findByIdAndUpdate|].
    intros _. apply IH.
Qed.

(** The update route, whatever it is asked, leaves every file on the disk
    where it was: the directory of a renamed or moved folder is not moved. *)
Lemma update_folder_keeps_disk (dep : Deployment) (u : User) (id : nat)
      (body_name : option string) (body_parent : ParentArg) :
  keeps_disk (update_folder dep u id body_name body_parent).
Proof.
  unfold update_folder. apply keeps_disk_try_catch.
  apply keeps_disk_bind; [unfold Folder_findById; auto with disk|].
  intros [folder|]; [|auto with disk].
  match goal with |- keeps_disk (if ?c then _ else _) => destruct c end;
    [auto with disk|].
  assert (Hfinish : forall updates,
    keeps_disk
      (updated <- Folder_findByIdAndUpdate dep id updates true ;;
       match truthy (upd_path updates) with
       | Some p =>
           fuel <- gets (fun w => S (List.length (folders w))) ;;
           updateChildPaths dep fuel (Folder._id folder) p
       | None => ret tt
       end ;;;
       ret (Reply 200 updated))).
  { intros updates. apply keeps_disk_bind; [apply keeps_disk_findByIdAndUpdate|].
    intros updated. apply keeps_disk_bind; [|auto with disk].
    destruct (truthy (upd_path updates)); [|auto with disk].
    apply keeps_disk_bind; [auto with disk|].
    intros fuel. apply keeps_disk_updateChildPaths. }
  destruct body_parent as [| |pid].
  - destruct (truthy body_name).
    + apply keeps_disk_bind.
      * destruct (Folder.parentFolder folder); [|auto with disk].
        apply keeps_disk_bind; [unfold Folder_findById; auto with disk|].
        intros [p|]; auto with disk.
      * intros parentPath. apply Hfinish.
    + apply Hfinish.
  - apply Hfinish.
  - apply keeps_disk_bind; [unfold Folder_findById; auto with disk|].
    intros [newParent|]; [|auto with disk].
    match goal with |- keeps_disk (if ?c then _ else _) => destruct c end;
      [auto with disk|].
    apply Hfinish.
Qed.

(** C5 fails on the update route: renaming folder [a] to [b] rewrites the
    document and moves nothing on the disk; the file stays in the old
    directory, and the next upload goes to the new one. *)
Theorem update_folder_leaves_directory_behind :
  disk folder_a_with_file = [("/srv/app/storage/a/x.pdf", "XXX")]
  /\ (let w := after (update_folder srv alice 1 (Some "b") ParentAbsent)
                     folder_a_with_file in
      map folder_row (folders w) = [(1, "b", "/b", 0, None)]
      /\ disk w = [("/srv/app/storage/a/x.pdf", "XXX")]
      /\ disk (after (upload_files srv alice 1 None "2024-05-02" 11
                        [pdf "y.pdf" "YYY"]) w)
         = [("/srv/app/storage/b/y.pdf", "YYY");
            ("/srv/app/storage/a/x.pdf", "XXX")]).
Proof. vm_compute. repeat split. Qed.

(** The save hook of the model, which no route reaches, does move the
    directory before it rewrites the documents. *)
Example save_hook_moves_directory :
  let w := after (Folder_save_modified srv (Folder.mk 1 "b" "a" 100 None false 0 []))
                 folder_a_with_file in
  map folder_row (folders w) = [(1, "b", "/b", 0, None)]
  /\ disk w = [("/srv/app/storage/b/x.pdf", "XXX")].
Proof. vm_compute. repeat split. Qed.

(** ** C6: moving a folder below itself *)

Lemma prefix_refl (s : string) : String.prefix s s = true.
Proof.
  pose proof (prefix_append s "") as H. now rewrite append_nil_r in H.
Qed.

Lemma includes_refl (s : string) : includes s s = true.
Proof. destruct s; [reflexivity|]. cbn [includes]. now rewrite prefix_refl. Qed.

(** Moving a folder into itself is refused, and nothing changes. *)
Lemma move_into_itself_refused (dep : Deployment) (u : User) (folder : Folder.t)
      (body_name : option string) (w : World) :
  find (fun f => Nat.eqb (Folder._id f) (Folder._id folder)) (folders w) = Some folder ->
  (role u = admin \/ Folder.createdBy folder = uid u) ->
  update_folder dep u (Folder._id folder) body_name (ParentId (Folder._id folder)) w
  = (Done (Fail 400 "Cannot move folder into itself or its children"), w).
Proof.
  intros Hfind Hauth.
  unfold update_folder, try_catch, bind, Folder_findById, gets. rewrite Hfind.
  assert (Hc : negb (role_eqb (role u) admin)
               && negb (Nat.eqb (Folder.createdBy folder) (uid u)) = false).
  { destruct Hauth as [-> | ->]; [reflexivity|].
    rewrite Nat.eqb_refl. apply andb_false_r. }
  rewrite Hc, Hfind, includes_refl. reflexivity.
Qed.

Lemma prefix_append_r (a p x : string) :
  String.prefix a p = true -> String.prefix a (p ++ x) = true.
Proof.
  revert p. induction a as [|c a IH]; intros p H.
  - now destruct (p ++ x).
  - destruct p as [|d p]; simpl in *; [discriminate|].
    destruct (ascii_dec c d); [now apply IH | discriminate].
Qed.

Lemma includes_prefix (s sub : string) :
  String.prefix sub s = true -> includes s sub = true.
Proof. intros H. destruct s; cbn [includes]; now rewrite H. Qed.

(** In a collection where every folder agrees with its parent, the path of
    a folder starts with the path of each folder it lies below. *)
Lemma below_path_prefix (l : list Folder.t) (d a : Folder.t) :
  (forall f, In f l -> parent_consistent l f) ->
  In d l -> below l d a ->
  String.prefix (Folder.path a) (Folder.path d) = true.
Proof.
  intros Hcons Hd Hbelow. induction Hbelow as [f | d p a pid Hpar Hfind _ IH].
  - apply prefix_refl.
  - pose proof (Hcons d Hd) as Hc. unfold parent_consistent in Hc.
    rewrite Hpar, Hfind in Hc. destruct Hc as [Hpath _]. rewrite Hpath.
    apply prefix_append_r. apply IH. now apply find_some in Hfind.
Qed.

(** While every folder agrees with its parent, moving a folder into itself
    or below itself is refused and nothing changes. *)
Lemma move_below_itself_refused (dep : Deployment) (u : User)
      (folder newParent : Folder.t) (body_name : option string) (w : World) :
  (forall f, In f (folders w) -> parent_consistent (folders w) f) ->
  find (fun f => Nat.eqb (Folder._id f) (Folder._id folder)) (folders w) = Some folder ->
  find (fun f => Nat.eqb (Folder._id f) (Folder._id newParent)) (folders w)
  = Some newParent ->
  below (folders w) newParent folder ->
  (role u = admin \/ Folder.createdBy folder = uid u) ->
  update_folder dep u (Folder._id folder) body_name (ParentId (Folder._id newParent)) w
  = (Done (Fail 400 "Cannot move folder into itself or its children"), w).
Proof.
  intros Hcons Hfind Hparent Hbelow Hauth.
  unfold update_folder, try_catch, bind, Folder_findById, gets. rewrite Hfind.
  assert (Hc : negb (role_eqb (role u) admin)
               && negb (Nat.eqb (Folder.createdBy folder) (uid u)) = false).
  { destruct Hauth as [-> | ->]; [reflexivity|].
    rewrite Nat.eqb_refl. apply andb_false_r. }
  rewrite Hc, Hparent.
  rewrite (includes_prefix _ _
             (below_path_prefix (folders w) newParent folder Hcons
                (proj1 (find_some _ _ Hparent)) Hbelow)).
  reflexivity.
Qed.

(** C6 fails in both directions.  The test is [includes] on the path
    strings, so moving [a] into the unrelated folder [data] is refused; and
    after an update that stopped half way (the path of the child collides
    with a leftover document and the unique index rejects it), folder 4 is
    moved into its own child 5: the second request is not refused, the two
    folders are each other's parent, and the rewrite of descendant paths
    never ends. *)
Theorem update_folder_cycle_check_by_substring :
  answer (update_folder srv alice 1 None (ParentId 2)) tree_a_data
  = Done (Fail 400 "Cannot move folder into itself or its children")
  /\ map folder_row (folders tree_with_leftover)
     = [(1, "R", "R", 0, None); (3, "c", "R/new/c", 2, Some 2);
        (4, "old", "R/old", 1, Some 1); (5, "c", "R/old/c", 2, Some 4)]
  /\ (let w := after (update_folder srv alice 4 (Some "new") ParentAbsent)
                     tree_with_leftover in
      answer (update_folder srv alice 4 (Some "new") ParentAbsent) tree_with_leftover
      = Done (Fail 500 "Update failed")
      /\ map folder_row (folders w)
         = [(1, "R", "R", 0, None); (3, "c", "R/new/c", 2, Some 2);
            (4, "new", "R/new", 1, Some 1); (5, "c", "R/old/c", 2, Some 4)]
      /\ acyclic (folders w) = true
      /\ answer (update_folder srv alice 4 None (ParentId 5)) w = Diverge
      /\ map (fun f => (Folder._id f, Folder.parentFolder f))
             (folders (after (update_folder srv alice 4 None (ParentId 5)) w))
         = [(1, None); (3, Some 2); (4, Some 5); (5, Some 4)]
      /\ acyclic (folders (after (update_folder srv alice 4 None (ParentId 5)) w))
         = false).
Proof. vm_compute. repeat split. Qed.

(** ** C3: versioned names *)

Lemma generateVersionedName_first (originalName dateStr : string) :
  generateVersionedName originalName 1 "number" dateStr = originalName.
Proof. reflexivity. Qed.

Lemma generateVersionedName_later (originalName dateStr : string) (n : nat) :
  generateVersionedName originalName (S (S n)) "number" dateStr
  = basename originalName (extname originalName)
    ++ "(" ++ of_nat (S n) ++ ")" ++ extname originalName.
Proof. reflexivity. Qed.

Example generateVersionedName_report :
  map (fun v => generateVersionedName "report.pdf" v "number" "") [1; 2; 3; 11]
  = ["report.pdf"; "report(1).pdf"; "report(2).pdf"; "report(10).pdf"].
Proof. reflexivity. Qed.

Example three_uploads_of_report :
  map file_row (files three_versions)
  = [(2, "report.pdf", 1, false, None);
     (3, "report(1).pdf", 2, false, Some 2);
     (4, "report(2).pdf", 3, true, Some 2)].
Proof. reflexivity. Qed.

(** ** The search for a free name ends *)

Lemma to_uint_not_Nil (n : nat) : Nat.to_uint n <> Decimal.Nil.
Proof.
  rewrite <- (DecimalNat.Unsigned.of_to n), DecimalNat.Unsigned.to_of.
  unfold Decimal.unorm. destruct (Decimal.nzhead (Nat.to_uint n)); discriminate.
Qed.

Lemma of_nat_inj (a b : nat) : of_nat a = of_nat b -> a = b.
Proof.
  unfold of_nat. intros H.
  apply DecimalNat.Unsigned.to_uint_inj.
  pose proof (DecimalString.NilZero.usu _ (to_uint_not_Nil a)) as Ha.
  pose proof (DecimalString.NilZero.usu _ (to_uint_not_Nil b)) as Hb.
  rewrite H in Ha. rewrite Ha in Hb. now injection Hb.
Qed.

Lemma append_inv_head (a x y : string) : a ++ x = a ++ y -> x = y.
Proof.
  induction a as [|c a IH]; simpl; [trivial|].
  intros H. injection H as H. now apply IH.
Qed.

Lemma list_ascii_of_string_append (a b : string) :
  list_ascii_of_string (a ++ b)
  = (list_ascii_of_string a ++ list_ascii_of_string b)%list.
Proof. induction a as [|c a IH]; simpl; [reflexivity | now rewrite IH]. Qed.

Lemma append_inv_tail (a b s : string) : a ++ s = b ++ s -> a = b.
Proof.
  intros H. apply (f_equal list_ascii_of_string) in H.
  rewrite !list_ascii_of_string_append in H. apply app_inv_tail in H.
  rewrite <- (string_of_list_ascii_of_string a),
          <- (string_of_list_ascii_of_string b).
  now rewrite H.
Qed.

(** ** Trimming a trimmed name *)

Lemma trimStart_ltrim (s : string) :
  trimStart s = string_of_list_ascii (ltrim (list_ascii_of_string s)).
Proof.
  induction s as [|c s IH]; simpl; [reflexivity|].
  destruct (is_space c); [exact IH|].
  simpl. now rewrite string_of_list_ascii_of_string.
Qed.

Lemma trim_ltrim (s : string) :
  trim s
  = string_of_list_ascii (rev (ltrim (rev (ltrim (list_ascii_of_string s))))).
Proof.
  unfold trim, rev_string.
  now rewrite !trimStart_ltrim, !list_ascii_of_string_of_list_ascii.
Qed.

Lemma ltrim_head_kept (l : list ascii) : head_kept (ltrim l).
Proof.
  induction l as [|c r IH]; simpl; [exact I|].
  destruct (is_space c) eqn:E; [exact IH | exact E].
Qed.

Lemma ltrim_fixed (l : list ascii) : head_kept l -> ltrim l = l.
Proof. destruct l as [|c r]; simpl; [reflexivity|]. now intros ->. Qed.

Lemma ltrim_suffix (l : list ascii) : exists pre, l = (pre ++ ltrim l)%list.
Proof.
  induction l as [|c r [pre IH]]; simpl.
  - now exists [].
  - destruct (is_space c).
    + exists (c :: pre). simpl. now rewrite <- IH.
    + now exists [].
Qed.

Lemma head_kept_app (a b : list ascii) : head_kept (a ++ b)%list -> head_kept a.
Proof. destruct a; simpl; auto. Qed.

Lemma trim_idempotent (s : string) : trim (trim s) = trim s.
Proof.
  rewrite (trim_ltrim (trim s)), (trim_ltrim s).
  rewrite list_ascii_of_string_of_list_ascii.
  set (t := ltrim (list_ascii_of_string s)).
  set (u := ltrim (rev t)).
  assert (Hu : head_kept (rev u)).
  { destruct (ltrim_suffix (rev t)) as [pre Hpre]. fold u in Hpre.
    assert (Ht : t = (rev u ++ rev pre)%list).
    { rewrite <- (rev_involutive t), Hpre, rev_app_distr. reflexivity. }
    apply (head_kept_app _ (rev pre)). rewrite <- Ht. apply ltrim_head_kept. }
  rewrite (ltrim_fixed _ Hu), rev_involutive.
  now rewrite (ltrim_fixed u (ltrim_head_kept _)).
Qed.

Lemma ltrim_app_kept (a x : list ascii) (c : ascii) :
  is_space c = false -> ltrim (a ++ c :: x) = (ltrim a ++ c :: x)%list.
Proof.
  intros Hc. induction a as [|d a IH]; simpl; [now rewrite Hc|].
  destruct (is_space d); [exact IH | reflexivity].
Qed.

(** Trimming reaches neither a part enclosed in two characters that are no
    white space nor these characters. *)
Lemma trim_between (a m b : string) (c1 c2 : ascii) :
  is_space c1 = false -> is_space c2 = false ->
  list_ascii_of_string (trim (a ++ String c1 (m ++ String c2 b)))
  = (ltrim (list_ascii_of_string a)
     ++ c1 :: list_ascii_of_string m
     ++ c2 :: rev (ltrim (rev (list_ascii_of_string b))))%list.
Proof.
  intros H1 H2.
  rewrite trim_ltrim, list_ascii_of_string_of_list_ascii.
  rewrite list_ascii_of_string_append. cbn [list_ascii_of_string].
  rewrite list_ascii_of_string_append. cbn [list_ascii_of_string].
  rewrite (ltrim_app_kept _ _ c1 H1).
  rewrite rev_app_distr. cbn [rev]. rewrite rev_app_distr. cbn [rev].
  rewrite <- !app_assoc. cbn [app].
  rewrite (ltrim_app_kept _ _ c2 H2).
  rewrite rev_app_distr. cbn [rev]. rewrite !rev_app_distr. cbn [rev app].
  rewrite !rev_involutive, <- !app_assoc. reflexivity.
Qed.

(** From version 2 on, different counters give different names. *)
Lemma generateVersionedName_inj (originalName : string) (i j : nat) :
  2 <= i -> 2 <= j ->
  generateVersionedName originalName i "number" ""
  = generateVersionedName originalName j "number" "" ->
  i = j.
Proof.
  intros Hi Hj.
  destruct i as [|[|i]]; try lia. destruct j as [|[|j]]; try lia.
  rewrite !generateVersionedName_later. intros H.
  apply append_inv_head in H.
  change ("(" ++ of_nat (S i) ++ ")" ++ extname originalName)
    with (String "("%char (of_nat (S i) ++ ")" ++ extname originalName)) in H.
  change ("(" ++ of_nat (S j) ++ ")" ++ extname originalName)
    with (String "("%char (of_nat (S j) ++ ")" ++ extname originalName)) in H.
  injection H as H. apply append_inv_tail in H. apply of_nat_inj in H.
  congruence.
Qed.

(** The same for the names as the [trim] setter leaves them, which are the
    names that the queries look up. *)
Lemma generateVersionedName_trim_inj (originalName : string) (i j : nat) :
  2 <= i -> 2 <= j ->
  trim (generateVersionedName originalName i "number" "")
  = trim (generateVersionedName originalName j "number" "") ->
  i = j.
Proof.
  intros Hi Hj.
  destruct i as [|[|i]]; try lia. destruct j as [|[|j]]; try lia.
  rewrite !generateVersionedName_later. intros H.
  apply (f_equal list_ascii_of_string) in H.
  change ("(" ++ of_nat (S i) ++ ")" ++ extname originalName)
    with (String "("%char
            (of_nat (S i) ++ String ")"%char (extname originalName))) in H.
  change ("(" ++ of_nat (S j) ++ ")" ++ extname originalName)
    with (String "("%char
            (of_nat (S j) ++ String ")"%char (extname originalName))) in H.
  rewrite !trim_between in H by reflexivity.
  apply app_inv_head in H. injection H as H.
  assert (Hn : list_ascii_of_string (of_nat (S i))
               = list_ascii_of_string (of_nat (S j))).
  { revert H.
    generalize (rev (ltrim (rev (list_ascii_of_string (extname originalName))))).
    intros tl H.
    change (list_ascii_of_string (of_nat (S i)) ++ ")"%char :: tl)%list
      with (list_ascii_of_string (of_nat (S i)) ++ [")"%char] ++ tl)%list in H.
    change (list_ascii_of_string (of_nat (S j)) ++ ")"%char :: tl)%list
      with (list_ascii_of_string (of_nat (S j)) ++ [")"%char] ++ tl)%list in H.
    now apply app_inv_tail in H. }
  apply (f_equal string_of_list_ascii) in Hn.
  rewrite !string_of_list_ascii_of_string in Hn.
  apply of_nat_inj in Hn. congruence.
Qed.

Lemma find_available_round (fuel fid : nat) (originalName : string)
      (counter : nat) (availableName : string) (w : World) :
  find_available (S fuel) fid originalName counter availableName w
  = match find (named_in fid (trim availableName)) (files w) with
    | Some _ =>
        find_available fuel fid originalName (S counter)
          (generateVersionedName originalName (S counter) "number" "") w
    | None => (Done availableName, w)
    end.
Proof.
  cbn [find_available]. unfold bind, File_findOne, gets.
  change (fun f : File.t =>
            Nat.eqb (File.folder f) fid
            && String.eqb (File.filename f) (trim availableName) && not_deleted f)
    with (named_in fid (trim availableName)).
  destruct (find (named_in fid (trim availableName)) (files w)); reflexivity.
Qed.

Lemma find_available_finds (fid : nat) (originalName : string) (w : World) :
  forall (fuel counter : nat) (tried : list string),
    2 <= counter ->
    NoDup tried ->
    incl tried (map File.filename (files w)) ->
    (forall t, In t tried ->
       exists j, 2 <= j < counter
                 /\ t = trim (generateVersionedName originalName j "number" "")) ->
    List.length (files w) < fuel + List.length tried ->
    exists n,
      find_available fuel fid originalName counter
        (generateVersionedName originalName counter "number" "") w
      = (Done n, w).
Proof.
  induction fuel as [|fuel IH]; intros counter tried Hc Hnd Hincl Htried Hlen.
  - exfalso. pose proof (NoDup_incl_length Hnd Hincl) as Hle.
    rewrite length_map in Hle. simpl in Hlen. lia.
  - rewrite find_available_round.
    destruct (find (named_in fid
                      (trim (generateVersionedName originalName counter
                                                   "number" "")))
                   (files w)) as [hit|] eqn:Ehit.
    2:{ eexists. reflexivity. }
    apply find_some in Ehit as [Hin Hp].
    apply andb_prop in Hp as [Hp _]. apply andb_prop in Hp as [_ Hname].
    apply String.eqb_eq in Hname.
    apply (IH (S counter)
              (trim (generateVersionedName originalName counter "number" "")
               :: tried)).
    + lia.
    + constructor; [|assumption].
      intros Hmem. destruct (Htried _ Hmem) as (j & Hj & Heq).
      apply generateVersionedName_trim_inj in Heq; lia.
    + intros t [<-|Ht]; [|now apply Hincl].
      rewrite <- Hname. now apply in_map.
    + intros t [<-|Ht].
      * exists counter. split; [lia | reflexivity].
      * destruct (Htried t Ht) as (j & Hj & Heq). exists j. split; [lia | assumption].
    + simpl. lia.
Qed.

(** Whenever the name computed for an upload is taken by a document of the
    folder, the loop finds a free name and the assignment to the constant
    raises: the pass stores nothing and writes no file; the folder's
    directory has been made if it was missing. *)
Lemma upload_item_taken_name_raises (dep : Deployment) (u : User) (folder : Folder.t)
      (versionFormat : option string) (dateStr : string) (now : nat)
      (file : Upload) (w : World) (hit : File.t) :
  find (named_in (Folder._id folder)
                 (trim (upload_name folder versionFormat dateStr file w))) (files w)
  = Some hit ->
  dir_blocked dep (upload_dir dep folder) w = false ->
  upload_item dep u folder versionFormat dateStr now file w
  = (Throw "TypeError: Assignment to constant variable.",
     with_dir dep (upload_dir dep folder) w).
Proof.
  intros Hhit Hfree. unfold upload_item.
  unfold bind at 1. fold (upload_dir dep folder).
  destruct (ensure_dir_cases dep (upload_dir dep folder) w) as [[Hb _] | [_ ->]];
    [congruence|].
  destruct (with_dir_same_db dep (upload_dir dep folder) w) as [(_ & Hf & _) _].
  set (w1 := with_dir dep (upload_dir dep folder) w) in *.
  unfold bind at 1. unfold gets at 1. cbv zeta. rewrite Hf.
  fold (upload_name folder versionFormat dateStr file w).
  set (n := upload_name folder versionFormat dateStr file w) in *.
  unfold bind at 1. unfold File_findOne at 1, gets at 1. rewrite Hf.
  change (fun f : File.t =>
            Nat.eqb (File.folder f) (Folder._id folder)
            && String.eqb (File.filename f) (trim n) && not_deleted f)
    with (named_in (Folder._id folder) (trim n)).
  rewrite Hhit.
  unfold bind at 1. unfold gets at 1. unfold bind at 1.
  set (nextVersion :=
         match sort_version_desc
                 (filter (in_lineage (Folder._id folder) (originalname file)) (files w))
         with
         | v :: _ => File.version v + 1
         | [] => 1
         end).
  assert (Hnext : 1 <= nextVersion).
  { unfold nextVersion. destruct (sort_version_desc _); lia. }
  cbv beta iota. rewrite find_available_round, Hf, Hhit.
  destruct (find_available_finds (Folder._id folder) (originalname file) w1
              (S (List.length (files w))) (S nextVersion) [])
    as (free & Hfree').
  - lia.
  - constructor.
  - intros t [].
  - intros t [].
  - rewrite Hf. simpl. lia.
  - rewrite Hfree'. reflexivity.
Qed.

(** C3 fails where the computed name is taken.  [docs] holds a file called
    [report(1).pdf] and version 1 of [report.pdf]; the next upload of
    [report.pdf] computes [report(1).pdf], the loop finds [report(2).pdf]
    free, and the assignment of that name to the constant [versionedName]
    raises: the request ends in the catch block and no version is stored. *)
Theorem upload_with_taken_name_raises :
  map file_row (files docs_with_clash)
  = [(2, "report(1).pdf", 1, true, None); (3, "report.pdf", 1, true, None)]
  /\ answer (find_available 3 1 "report.pdf" 2 "report(1).pdf") docs_with_clash
     = Done "report(2).pdf"
  /\ answer (upload_item srv alice
               (Folder.mk 1 "docs" "docs" 100 None false 0 []) None "2024-05-03" 13
               (pdf "report.pdf" "BBB")) docs_with_clash
     = Throw "TypeError: Assignment to constant variable."
  /\ upload_files srv alice 1 None "2024-05-03" 13 [pdf "report.pdf" "BBB"]
       docs_with_clash
     = (Done (Fail 500 "File upload failed"), docs_with_clash).
Proof. vm_compute. repeat split. Qed.

(** ** C8: restoring a version *)

(** C8 fails.  Restoring version 1 of three stores no fourth version: the
    copy is addressed by the stored relative path, which the process
    resolves against its working directory; started inside the storage
    directory, the copy is made and the insert is rejected by the unique
    indexes, since the new document repeats the hash, the folder and the
    file name of version 1.  Without the indexes the document is stored, but
    it carries no [originalFile], so [findVersions] returns three versions
    for the old members and one for the new. *)
Theorem restore_file_does_not_extend_lineage :
  map file_row (files three_versions)
  = [(2, "report.pdf", 1, false, None);
     (3, "report(1).pdf", 2, false, Some 2);
     (4, "report(2).pdf", 3, true, Some 2)]
  /\ restore_file srv alice 2 three_versions
     = (Done (Fail 500 "Failed to restore version"),
        with_next_id 6 three_versions)
  /\ answer (restore_file srv_in_storage alice 2) three_versions
     = Done (Fail 500 "Failed to restore version")
  /\ files (after (restore_file srv_in_storage alice 2) three_versions)
     = files three_versions
  /\ disk_lookup (disk (after (restore_file srv_in_storage alice 2) three_versions))
                 "/srv/app/storage/docs/report(3).pdf" = Some "AAA"
  /\ (let w := after (restore_file srv_no_index alice 2) three_versions in
      map file_row (files w)
      = [(2, "report.pdf", 1, false, None);
         (3, "report(1).pdf", 2, false, Some 2);
         (4, "report(2).pdf", 3, false, Some 2);
         (5, "report.pdf", 4, true, None)]
      /\ version_ids 2 w = Some [2; 3; 4]
      /\ version_ids 4 w = Some [2; 3; 4]
      /\ version_ids 5 w = Some [5]).
Proof. vm_compute. repeat split. Qed.
(** ** What [save] and one upload do to the collection *)

Ltac run_handler :=
  unfold Folder_findById, Folder_findOne, Folder_find, File_findOne,
    File_findById, File_find, pathExists,
    new_ObjectId, existsSync, File_demote,
    File_save_previousVersions in *;
  unfold bind, ret, throw, diverge, gets, modify in *;
  cbv beta iota in *.

Ltac unchanged_case :=
  repeat split; simpl; try reflexivity; try lia; try (intros; discriminate).

Lemma same_db_refl (w : World) : same_db w w.
Proof. repeat split. Qed.

Lemma File_save_new_cases (dep : Deployment) (doc : File.t) (w : World) :
  (exists d w1, File_save_new dep doc w
                = (Done d, with_files (files w ++ [d])%list w1)
                /\ same_db w w1
                /\ disk w1 = disk w
                /\ saved_from d doc
                /\ File.filename d = trim (File.filename doc)
                /\ file_key_taken dep d w = false)
  \/ (exists e w1, File_save_new dep doc w = (Throw e, w1)
                   /\ same_db w w1 /\ disk w1 = disk w).
Proof.
  set (r := File_save_new dep doc w).
  assert (Hr : r = File_save_new dep doc w) by reflexivity.
  clearbody r. unfold File_save_new in Hr.
  destruct (negb (file_valid _));
    [right; exists "ValidationError", w; subst r; unchanged_case|].
  cbv zeta in Hr. unfold bind at 1 in Hr.
  unfold Folder_findById at 1, gets at 1 in Hr.
  match type of Hr with context [find ?p (folders w)] =>
    destruct (find p (folders w)) as [folder|] end;
    [|right; eexists; exists w; subst r; unchanged_case].
  unfold bind at 1 in Hr. unfold pathExists at 1, gets at 1 in Hr.
  match type of Hr with context [bind (if ?c then ret tt else ?mk) ?k w] =>
    set (K := k) in Hr
  end.
  assert (Htail : forall w1 : World,
            same_db w w1 ->
            (exists d, K tt w1 = (Done d, with_files (files w ++ [d])%list w1)
                       /\ saved_from d doc
                       /\ File.filename d = trim (File.filename doc)
                       /\ file_key_taken dep d w = false)
            \/ (exists e, K tt w1 = (Throw e, w1))).
  { intros w1 (Hfo & Hfi & Hn).
    clear Hr r.
    set (r := K tt w1). assert (Hr : r = K tt w1) by reflexivity.
    clearbody r. subst K. cbv beta in Hr.
    assert (Hkey : forall d, file_key_taken dep d w1 = file_key_taken dep d w)
      by (intros d; unfold file_key_taken; now rewrite Hfi).
    unfold bind at 1 in Hr. unfold pathExists at 1, gets at 1 in Hr.
    match type of Hr with context [exists_at dep ?p w1] =>
      destruct (exists_at dep p w1) end.
    - unfold bind at 1 in Hr. unfold bind at 1 in Hr.
      match type of Hr with context [readFile dep ?p w1] =>
        destruct (readFile_cases dep p w1) as [[e He] | [c He]]; rewrite He in Hr
      end; [right; exists e; exact Hr|].
      unfold ret at 1 in Hr. unfold bind at 1 in Hr. unfold gets at 1 in Hr.
      rewrite Hkey in Hr.
      match type of Hr with context [file_key_taken dep ?d w] =>
        destruct (file_key_taken dep d w) eqn:Ek end;
        [right; eexists; exact Hr|].
      left. eexists. unfold bind, modify, ret in Hr. rewrite Hfi in Hr.
      split; [exact Hr|]. split; [destruct doc; reflexivity|].
      split; [destruct doc; reflexivity | exact Ek].
    - unfold bind at 1 in Hr. unfold ret at 1 in Hr.
      unfold bind at 1 in Hr. unfold gets at 1 in Hr.
      rewrite Hkey in Hr.
      match type of Hr with context [file_key_taken dep ?d w] =>
        destruct (file_key_taken dep d w) eqn:Ek end;
        [right; eexists; exact Hr|].
      left. eexists. unfold bind, modify, ret in Hr. rewrite Hfi in Hr.
      split; [exact Hr|]. split; [destruct doc; reflexivity|].
      split; [destruct doc; reflexivity | exact Ek]. }
  clearbody K.
  destruct (exists_at dep (getFullPath dep (Folder.path folder)) w).
  - unfold bind at 1 in Hr. unfold ret at 1 in Hr.
    destruct (Htail w (same_db_refl w)) as [(d & Hm & H) | (e & Hm)];
      rewrite Hm in Hr.
    + left. exists d, w. split; [exact Hr|]. split; [apply same_db_refl|].
      split; [reflexivity | exact H].
    + right. exists e, w. split; [exact Hr|].
      split; [apply same_db_refl | reflexivity].
  - unfold bind at 1 in Hr. unfold bind at 1 in Hr.
    destruct (createDirectory_cases dep (Folder.path folder) w) as [[e He] | He];
      rewrite He in Hr; [right; exists e, w; subst r; unchanged_case|].
    unfold ret at 1 in Hr.
    match type of Hr with context [with_dirs ?l w] =>
      set (w1 := with_dirs l w) in * end.
    assert (Hdb : same_db w w1) by (repeat split).
    destruct (Htail w1 Hdb) as [(d & Hm & H) | (e & Hm)]; rewrite Hm in Hr.
    + left. exists d, w1. split; [exact Hr|]. split; [exact Hdb|].
      split; [reflexivity | exact H].
    + right. exists e, w1. split; [exact Hr|]. split; [exact Hdb | reflexivity].
Qed.

(** A document that [save] stored passed the unique indexes. *)
Lemma File_save_new_key_free (dep : Deployment) (doc d : File.t) (w w' : World) :
  File_save_new dep doc w = (Done d, w') -> file_key_taken dep d w = false.
Proof.
  intros H.
  destruct (File_save_new_cases dep doc w)
    as [(d' & w1 & Hs & _ & _ & _ & _ & Hk) | (e & w1 & Hs & _)];
    rewrite Hs in H; [|discriminate].
  injection H as <- _. exact Hk.
Qed.

Ltac on_same_db Hn :=
  unfold throw, ret; cbn [fst snd]; repeat split; try assumption;
  try (rewrite Hn; apply Nat.le_refl); try (intros; discriminate).

Lemma find_available_state (fuel folderId : nat) (originalName : string)
      (counter : nat) (availableName : string) (w : World) :
  snd (find_available fuel folderId originalName counter availableName w) = w.
Proof.
  revert counter availableName.
  induction fuel as [|fuel IH]; intros counter availableName; simpl; [reflexivity|].
  run_handler.
  match goal with |- context [find ?p (files w)] => destruct (find p (files w)) end;
    [apply IH | reflexivity].
Qed.

(** One pass of the upload loop either leaves the collection as it was and
    stores nothing, or inserts one document built from the request and
    commits it. *)
Lemma upload_item_cases (dep : Deployment) (u : User) (folder : Folder.t)
      (versionFormat : option string) (dateStr : string) (now : nat)
      (file : Upload) (w : World) :
  let r := upload_item dep u folder versionFormat dateStr now file w in
  let fid := Folder._id folder in
  let name := originalname file in
  let ev := sort_version_desc (filter (in_lineage fid name) (files w)) in
  (files (snd r) = files w
   /\ folders (snd r) = folders w
   /\ next_id w <= next_id (snd r)
   /\ forall f, fst r <> Done (Some (Stored f)))
  \/ (exists doc,
        File._id doc = next_id w
        /\ File.folder doc = fid
        /\ File.originalFilename doc = name
        /\ File.isDeleted doc = false
        /\ File.isCurrentVersion doc = true
        /\ File.previousVersions doc = []
        /\ File.originalFile doc
           = match ev with v :: _ => Some (lineage_root v) | [] => None end
        /\ File.version doc
           = match ev with v :: _ => File.version v + 1 | [] => 1 end
        /\ File.filename doc
           = trim (upload_name folder versionFormat dateStr file w)
        /\ approval_by_role u now doc
        /\ folders (snd r) = folders w
        /\ next_id (snd r) = S (next_id w)
        /\ ((ev = []
             /\ fst r = Done (Some (Stored doc))
             /\ files (snd r) = (files w ++ [doc])%list)
            \/ (ev <> []
                /\ fst r = Done (Some (Stored
                                   (File.set_previousVersions (map File._id ev) doc)))
                /\ files (snd r)
                   = map (commit_upload fid name (next_id w) (map File._id ev))
                         (files w ++ [doc])%list))).
Proof.
  intros r fid name ev.
  assert (Hr : r = upload_item dep u folder versionFormat dateStr now file w)
    by reflexivity.
  clearbody r. unfold upload_item in Hr.
  unfold bind at 1 in Hr. fold (upload_dir dep folder) in Hr.
  destruct (ensure_dir_cases dep (upload_dir dep folder) w)
    as [(_ & e & He) | (_ & He)]; rewrite He in Hr.
  { left. subst r. unchanged_case. }
  destruct (with_dir_same_db dep (upload_dir dep folder) w)
    as [(Hfo1 & Hfi1 & Hn1) _].
  set (w1 := with_dir dep (upload_dir dep folder) w) in *.
  unfold bind at 1 in Hr. unfold gets at 1 in Hr. rewrite Hfi1 in Hr.
  fold fid name in Hr. fold ev in Hr. cbv zeta in Hr.
  set (nextVersion := match ev with v :: _ => File.version v + 1 | [] => 1 end) in *.
  set (versionedName := generateVersionedName name nextVersion
                          (or_else versionFormat "number") dateStr) in *.
  unfold bind at 1 in Hr. unfold File_findOne at 1, gets at 1 in Hr.
  match type of Hr with context [find ?p (files w1)] =>
    destruct (find p (files w1)) as [hit|] end.
  { (* the computed name is taken *)
    left. unfold bind at 1 in Hr. unfold gets at 1 in Hr.
    unfold bind at 1 in Hr. cbv beta iota in Hr.
    match type of Hr with
    | context [find_available ?a ?b ?c ?d ?e ?w0] =>
        pose proof (find_available_state a b c d e w0) as Hst;
        destruct (find_available a b c d e w0) as [[x|e'|] w']
    end; simpl in Hst; subst w'; subst r; on_same_db Hn1. }
  unfold bind at 1 in Hr. unfold existsSync at 1, gets at 1 in Hr.
  match type of Hr with context [exists_at dep ?p w1] =>
    destruct (exists_at dep p w1) end.
  { left. subst r. on_same_db Hn1. }
  unfold bind at 1 in Hr. unfold File_findOne at 1, gets at 1 in Hr.
  match type of Hr with context [find ?p (files w1)] =>
    destruct (find p (files w1)) as [dup|] end.
  { left. subst r. on_same_db Hn1. }
  unfold bind at 1 in Hr.
  match type of Hr with context [fsp_rename_staged dep ?c ?p w1] =>
    destruct (fsp_rename_staged_cases dep c p w1) as [[e He'] | He'];
    rewrite He' in Hr
  end.
  { left. subst r. on_same_db Hn1. }
  unfold bind at 1 in Hr. unfold new_ObjectId at 1 in Hr.
  unfold bind at 1 in Hr.
  cbn [next_id with_disk] in Hr. rewrite Hn1 in Hr.
  match type of Hr with
  | context [File_save_new dep ?d ?w3] =>
      destruct (File_save_new_cases dep d w3)
        as [(d' & w4 & Hs & (Hfo4 & Hfi4 & Hn4) & _ & Hfrom & Hfn & _)
           | (e & w4 & Hs & (Hfo4 & Hfi4 & Hn4) & _)];
      rewrite Hs in Hr
  end.
  2:{ left. subst r. cbn [fst snd]. rewrite Hfo4, Hfi4, Hn4.
      cbn [folders files next_id with_next_id with_disk].
      rewrite Hfo1, Hfi1. unchanged_case. }
  cbn [folders files next_id with_next_id with_disk] in Hfo4, Hfi4, Hn4, Hs, Hr.
  rewrite Hfi1 in Hfi4, Hr. rewrite Hfo1 in Hfo4.
  right. exists d'.
  assert (Hid : File._id d' = next_id w) by (rewrite Hfrom; reflexivity).
  assert (Hfo : File.folder d' = fid) by (rewrite Hfrom; reflexivity).
  assert (Hna : File.originalFilename d' = name) by (rewrite Hfrom; reflexivity).
  assert (Hde : File.isDeleted d' = false) by (rewrite Hfrom; reflexivity).
  assert (Hcu : File.isCurrentVersion d' = true) by (rewrite Hfrom; reflexivity).
  assert (Hpv : File.previousVersions d' = []) by (rewrite Hfrom; reflexivity).
  assert (Hor : File.originalFile d'
                = match ev with v :: _ => Some (lineage_root v) | [] => None end)
    by (rewrite Hfrom; reflexivity).
  assert (Hve : File.version d' = nextVersion) by (rewrite Hfrom; reflexivity).
  assert (Hfn' : File.filename d'
                 = trim (upload_name folder versionFormat dateStr file w))
    by (rewrite Hfn; reflexivity).
  assert (Hap : approval_by_role u now d').
  { unfold approval_by_role. rewrite Hfrom. simpl.
    destruct (role u); simpl; auto. }
  repeat (split; [assumption|]).
  destruct ev as [|v ev'] eqn:Eev.
  - subst r. cbn [fst snd folders files next_id with_files].
    split; [exact Hfo4|]. split; [exact Hn4|].
    left. repeat split.
  - subst r. unfold bind, File_demote, File_save_previousVersions, modify, ret.
    cbn [fst snd folders files next_id with_files].
    split; [exact Hfo4|]. split; [exact Hn4|].
    right. split; [discriminate|]. split; [reflexivity|].
    rewrite !map_map.
    apply map_ext. intros f. unfold commit_upload. rewrite Hid.
    match goal with |- context [if ?c then File.set_isCurrentVersion false f else f] =>
      destruct c end; reflexivity.
Qed.
(** The symbolic proofs below never look inside the path functions or
    inside [save]. *)
Opaque join dirname generateVersionedName fs_resolve File_save_new normalize.

Lemma file_hasAccess_state (u : User) (file : File.t) (w : World) :
  exists b, file_hasAccess u file w = (Done b, w).
Proof.
  unfold file_hasAccess.
  destruct (role_eqb (role u) admin || Nat.eqb (File.owner file) (uid u)).
  - exists true. reflexivity.
  - unfold validateFolderAccess. run_handler. eexists. reflexivity.
Qed.

(** A restore request either leaves the collection as it was, or inserts a
    copy of the restored document under a fresh id and demotes the restored
    and the former current document. *)
Lemma restore_file_cases (dep : Deployment) (u : User) (id : nat) (w : World) :
  let r := restore_file dep u id w in
  (files (snd r) = files w
   /\ folders (snd r) = folders w
   /\ next_id w <= next_id (snd r)
   /\ forall d, fst r <> Done (Reply 200 d))
  \/ (exists v cur doc,
        find (fun f => Nat.eqb (File._id f) id) (files w) = Some v
        /\ find (fun f => option_nat_eqb (File.originalFile f) (Some (lineage_root v))
                          && File.isCurrentVersion f) (files w) = Some cur
        /\ File._id doc = next_id w
        /\ File.folder doc = File.folder v
        /\ File.originalFilename doc = File.originalFilename v
        /\ File.isDeleted doc = File.isDeleted v
        /\ File.originalFile doc = File.originalFile v
        /\ File.isCurrentVersion doc = true
        /\ File.version doc = File.version cur + 1
        /\ fst r = Done (Reply 200 doc)
        /\ folders (snd r) = folders w
        /\ next_id (snd r) = S (next_id w)
        /\ files (snd r) = map (restore_demote v cur) (files w ++ [doc])%list
        /\ File.filename doc = trim (File.filename v)
        /\ file_key_taken dep doc w = false).
Proof.
  intros r.
  assert (Hr : r = restore_file dep u id w) by reflexivity.
  clearbody r. unfold restore_file, try_catch in Hr.
  unfold bind at 1 in Hr. unfold File_findById at 1, gets at 1 in Hr.
  destruct (find (fun f => Nat.eqb (File._id f) id) (files w)) as [v|] eqn:Hv.
  2:{ left. subst r. unchanged_case. }
  unfold bind at 1 in Hr.
  destruct (file_hasAccess_state u v w) as [b Hb]. rewrite Hb in Hr.
  destruct b; cbn [negb] in Hr.
  2:{ left. subst r. unchanged_case. }
  unfold bind at 1 in Hr. unfold File_findOne at 1, gets at 1 in Hr.
  match type of Hr with context [find ?p (files w)] =>
    destruct (find p (files w)) as [cur|] eqn:Hcur end.
  2:{ left. subst r. unchanged_case. }
  unfold bind at 1 in Hr. unfold new_ObjectId at 1 in Hr.
  unfold bind at 1 in Hr. cbv zeta in Hr.
  match type of Hr with context [fsp_copyFile dep ?a ?b ?w0] =>
    destruct (fsp_copyFile_cases dep a b w0) as [[e He] | [c He]];
    rewrite He in Hr
  end.
  { left. subst r. unchanged_case. }
  unfold bind at 1 in Hr.
  match type of Hr with
  | context [File_save_new dep ?d ?w3] =>
      destruct (File_save_new_cases dep d w3)
        as [(d' & w4 & Hs & (Hfo4 & Hfi4 & Hn4) & _ & Hfrom & Hfn & Hkey)
           | (e & w4 & Hs & (Hfo4 & Hfi4 & Hn4) & _)];
      rewrite Hs in Hr
  end.
  2:{ left. subst r. cbn [fst snd]. rewrite Hfo4, Hfi4, Hn4. unchanged_case. }
  cbn [folders files next_id with_next_id with_disk] in Hfo4, Hfi4, Hn4, Hr.
  right. exists v, cur, d'.
  split; [reflexivity|]. split; [exact Hcur|].
  assert (Hid : File._id d' = next_id w) by (rewrite Hfrom; reflexivity).
  assert (Hfo : File.folder d' = File.folder v) by (rewrite Hfrom; reflexivity).
  assert (Hna : File.originalFilename d' = File.originalFilename v)
    by (rewrite Hfrom; reflexivity).
  assert (Hde : File.isDeleted d' = File.isDeleted v) by (rewrite Hfrom; reflexivity).
  assert (Hor : File.originalFile d' = File.originalFile v)
    by (rewrite Hfrom; reflexivity).
  assert (Hcu : File.isCurrentVersion d' = true) by (rewrite Hfrom; reflexivity).
  assert (Hve : File.version d' = File.version cur + 1)
    by (rewrite Hfrom; reflexivity).
  repeat (split; [assumption|]).
  subst r. unfold bind, File_demote, modify, ret.
  cbn [fst snd folders files next_id with_files].
  repeat split; assumption.
Qed.

(** ** C4: one current version per lineage *)

Lemma in_lineage_same_place (fid : nat) (name : string) (g f : File.t) :
  same_place g f -> in_lineage fid name g = in_lineage fid name f.
Proof.
  intros (_ & Hfo & Hna & Hde & _). unfold in_lineage, not_deleted.
  now rewrite Hfo, Hna, Hde.
Qed.

Lemma in_lineage_true (fid : nat) (name : string) (f : File.t) :
  in_lineage fid name f = true
  <-> File.folder f = fid /\ File.originalFilename f = name
      /\ File.isDeleted f = false.
Proof.
  unfold in_lineage, not_deleted.
  rewrite !andb_true_iff, Nat.eqb_eq, String.eqb_eq, negb_true_iff. tauto.
Qed.

Lemma filter_nil_iff {A} (p : A -> bool) (l : list A) :
  filter p l = [] <-> forall x, In x l -> p x = false.
Proof.
  split.
  - intros H x Hx. destruct (p x) eqn:E; [|reflexivity].
    assert (Hin : In x (filter p l)) by (apply filter_In; auto).
    rewrite H in Hin. destruct Hin.
  - intros H. induction l as [|a l IH]; [reflexivity|].
    simpl. rewrite (H a (or_introl eq_refl)). apply IH.
    intros x Hx. apply H. now right.
Qed.

Lemma filter_one_unique {A} (p : A -> bool) (l : list A) (a b : A) :
  List.length (filter p l) = 1 ->
  In a l -> p a = true -> In b l -> p b = true -> a = b.
Proof.
  intros Hlen Ha Hpa Hb Hpb.
  destruct (filter p l) as [|c [|d r]] eqn:E; try discriminate.
  assert (Ha' : In a (filter p l)) by (apply filter_In; auto).
  assert (Hb' : In b (filter p l)) by (apply filter_In; auto).
  rewrite E in Ha', Hb'. simpl in Ha', Hb'.
  destruct Ha' as [<-|[]], Hb' as [<-|[]]. reflexivity.
Qed.

Lemma NoDup_ids_unique (l : list File.t) (a b : File.t) :
  NoDup (map File._id l) -> In a l -> In b l -> File._id a = File._id b -> a = b.
Proof.
  induction l as [|c l IH]; intros Hnd Ha Hb Hab; [destruct Ha|].
  simpl in Hnd. apply NoDup_cons_iff in Hnd as [Hc Hnd].
  destruct Ha as [<-|Ha], Hb as [<-|Hb].
  - reflexivity.
  - elim Hc. rewrite Hab. now apply in_map.
  - elim Hc. rewrite <- Hab. now apply in_map.
  - now apply IH.
Qed.

Lemma insert_desc_In (f x : File.t) (l : list File.t) :
  In x (insert_desc f l) <-> x = f \/ In x l.
Proof.
  induction l as [|g r IH]; simpl.
  - intuition.
  - destruct (Nat.leb (File.version g) (File.version f)); simpl.
    + intuition.
    + rewrite IH. intuition.
Qed.

Lemma sort_version_desc_In (x : File.t) (l : list File.t) :
  In x (sort_version_desc l) <-> In x l.
Proof.
  induction l as [|f r IH]; simpl; [tauto|].
  rewrite insert_desc_In, IH. intuition.
Qed.

Lemma sort_version_desc_nil (l : list File.t) :
  sort_version_desc l = [] -> l = [].
Proof.
  destruct l as [|f r]; [reflexivity|].
  intros H. assert (Hin : In f (sort_version_desc (f :: r)))
    by (apply sort_version_desc_In; now left).
  rewrite H in Hin. destruct Hin.
Qed.

(** ** The version and the name of a stored upload *)

Lemma insert_desc_sorted (f : File.t) (l : list File.t) :
  StronglySorted (fun a b => File.version b <= File.version a) l ->
  StronglySorted (fun a b => File.version b <= File.version a) (insert_desc f l).
Proof.
  induction 1 as [|g r Hs IH Hall]; simpl.
  - repeat constructor.
  - destruct (Nat.leb (File.version g) (File.version f)) eqn:E.
    + apply Nat.leb_le in E. constructor; [now constructor|].
      constructor; [assumption|].
      rewrite Forall_forall in *. intros x Hx. specialize (Hall x Hx). lia.
    + apply Nat.leb_gt in E. constructor; [assumption|].
      rewrite Forall_forall in *. intros x Hx.
      apply insert_desc_In in Hx as [-> | Hx]; [lia | now apply Hall].
Qed.

Lemma sort_version_desc_sorted (l : list File.t) :
  StronglySorted (fun a b => File.version b <= File.version a) (sort_version_desc l).
Proof.
  induction l as [|f r IH]; simpl; [constructor | now apply insert_desc_sorted].
Qed.

(** The first element of [.sort({ version: -1 })] carries the largest
    version. *)
Lemma sort_version_desc_head (l : list File.t) (v : File.t) (rest : list File.t) :
  sort_version_desc l = v :: rest ->
  In v l /\ forall x, In x l -> File.version x <= File.version v.
Proof.
  intros H. split.
  - apply sort_version_desc_In. rewrite H. now left.
  - intros x Hx. apply sort_version_desc_In in Hx.
    pose proof (sort_version_desc_sorted l) as Hs. rewrite H in *.
    destruct Hx as [<- | Hx]; [lia|].
    apply StronglySorted_inv in Hs as [_ Hall].
    rewrite Forall_forall in Hall. now apply Hall.
Qed.

(** A stored upload in the default format has version one more than the
    largest version of its lineage (1 when the lineage is empty), and is
    named by [generateVersionedName] at that version: the original name for
    version 1. *)
Lemma stored_upload_version_and_name (dep : Deployment) (u : User) (folder : Folder.t)
      (dateStr : string) (now : nat) (file : Upload) (w w' : World) (f : File.t) :
  upload_item dep u folder None dateStr now file w = (Done (Some (Stored f)), w') ->
  let lineage := filter (in_lineage (Folder._id folder) (originalname file)) (files w) in
  (lineage = [] -> File.version f = 1)
  /\ (forall x, In x lineage -> File.version x < File.version f)
  /\ (lineage <> [] ->
      exists v, In v lineage /\ File.version f = File.version v + 1)
  /\ File.filename f
     = trim (generateVersionedName (originalname file) (File.version f) "number" dateStr)
  /\ (File.version f = 1 -> File.filename f = trim (originalname file)).
Proof.
  intros H lineage.
  destruct (upload_item_cases dep u folder None dateStr now file w)
    as [(_ & _ & _ & Hno)
       | (doc & _ & _ & _ & _ & _ & _ & _ & Hve & Hfn & _ & _ & _ & Hcase)];
    rewrite H in *; cbn [fst snd] in *.
  { now elim (Hno f). }
  fold lineage in Hve, Hcase.
  assert (Hf : File.version f = File.version doc /\ File.filename f = File.filename doc).
  { destruct Hcase as [(_ & Hst & _) | (_ & Hst & _)]; injection Hst as ->;
      [split; reflexivity | destruct doc; split; reflexivity]. }
  destruct Hf as [Hfv Hff]. rewrite Hfv, Hff. clear Hcase.
  assert (Hname : File.filename doc
                  = trim (generateVersionedName (originalname file) (File.version doc)
                            "number" dateStr)).
  { rewrite Hfn, Hve. reflexivity. }
  destruct (sort_version_desc lineage) as [|v rest] eqn:Es.
  - apply sort_version_desc_nil in Es.
    split; [intros _; exact Hve|].
    split; [intros x Hx; rewrite Es in Hx; destruct Hx|].
    split; [intros C; now elim C|].
    split; [exact Hname|].
    intros _. rewrite Hname, Hve. now rewrite generateVersionedName_first.
  - destruct (sort_version_desc_head lineage v rest Es) as [Hin Hmax].
    split; [intros E; rewrite E in Hin; destruct Hin|].
    split; [intros x Hx; specialize (Hmax x Hx); lia|].
    split; [intros _; exists v; split; [assumption | exact Hve]|].
    split; [exact Hname|].
    intros E. rewrite Hname, E. now rewrite generateVersionedName_first.
Qed.

(** The step that both handlers take on the collection: every stored
    document is rewritten in place by [h] and one document is appended. *)
Lemma files_ok_step (w w' : World) (h : File.t -> File.t) (doc : File.t)
      (fid : nat) (name : string) :
  files_ok w ->
  files w' = (map h (files w) ++ [doc])%list ->
  next_id w' = S (next_id w) ->
  (forall f, same_place (h f) f) ->
  (forall f, In f (files w) -> in_lineage fid name f = true ->
             File.isCurrentVersion (h f) = false) ->
  (forall f, In f (files w) -> in_lineage fid name f = false ->
             File.isCurrentVersion (h f) = File.isCurrentVersion f) ->
  File._id doc = next_id w ->
  in_lineage fid name doc = true ->
  File.isCurrentVersion doc = true ->
  (forall x, File.originalFile doc = Some x ->
             exists r0, In r0 (files w) /\ File._id r0 = x
                        /\ File.folder r0 = fid
                        /\ File.originalFilename r0 = name) ->
  files_ok w'.
Proof.
  intros [Hcur Hlinks Hlive Hfresh Hids] Hfiles Hnext Hh Hdem Hkeep Hid Hin Hdoc Horig.
  apply in_lineage_true in Hin as Hin'. destruct Hin' as (Hfo & Hna & Hde).
  constructor; rewrite Hfiles.
  - (* one current version *)
    intros fid' name' (g & Hg & Hgl).
    rewrite filter_app, length_app.
    destruct (Nat.eq_dec fid' fid) as [->|Hfid];
      [destruct (string_dec name' name) as [->|Hname]|].
    + (* the lineage of the new document *)
      assert (Hold : filter (is_current_in fid name) (map h (files w)) = []).
      { apply filter_nil_iff. intros x Hx.
        apply in_map_iff in Hx as (f & <- & Hf).
        unfold is_current_in. rewrite (in_lineage_same_place _ _ _ _ (Hh f)).
        destruct (in_lineage fid name f) eqn:E; [|reflexivity].
        now rewrite (Hdem f Hf E). }
      rewrite Hold. simpl. unfold is_current_in. now rewrite Hin, Hdoc.
    + assert (Hnew : is_current_in fid name' doc = false).
      { unfold is_current_in, in_lineage. rewrite Hna.
        apply String.eqb_neq in Hname. rewrite String.eqb_sym in Hname.
        now rewrite Hname, andb_false_r. }
      simpl. rewrite Hnew. simpl. rewrite Nat.add_0_r.
      rewrite filter_map_swap, length_map.
      rewrite (filter_ext_in _ (is_current_in fid name') (files w)).
      * apply Hcur. apply in_app_or in Hg as [Hg|[<-|[]]].
        -- apply in_map_iff in Hg as (f & <- & Hf). exists f. split; [assumption|].
           now rewrite <- (in_lineage_same_place _ _ _ _ (Hh f)).
        -- apply in_lineage_true in Hgl as (_ & Hgl & _). congruence.
      * intros f Hf. unfold is_current_in.
        rewrite (in_lineage_same_place _ _ _ _ (Hh f)).
        destruct (in_lineage fid name' f) eqn:E; [|reflexivity]. simpl.
        apply Hkeep; [assumption|].
        apply in_lineage_true in E as (_ & E & _).
        destruct (in_lineage fid name f) eqn:E'; [|reflexivity].
        apply in_lineage_true in E' as (_ & E' & _). congruence.
    + assert (Hnew : is_current_in fid' name' doc = false).
      { unfold is_current_in, in_lineage. rewrite Hfo.
        apply Nat.eqb_neq in Hfid. rewrite Nat.eqb_sym in Hfid.
        now rewrite Hfid. }
      simpl. rewrite Hnew. simpl. rewrite Nat.add_0_r.
      rewrite filter_map_swap, length_map.
      rewrite (filter_ext_in _ (is_current_in fid' name') (files w)).
      * apply Hcur. apply in_app_or in Hg as [Hg|[<-|[]]].
        -- apply in_map_iff in Hg as (f & <- & Hf). exists f. split; [assumption|].
           now rewrite <- (in_lineage_same_place _ _ _ _ (Hh f)).
        -- apply in_lineage_true in Hgl as (Hgl & _ & _). congruence.
      * intros f Hf. unfold is_current_in.
        rewrite (in_lineage_same_place _ _ _ _ (Hh f)).
        destruct (in_lineage fid' name' f) eqn:E; [|reflexivity]. simpl.
        apply Hkeep; [assumption|].
        apply in_lineage_true in E as (E & _ & _).
        destruct (in_lineage fid name f) eqn:E'; [|reflexivity].
        apply in_lineage_true in E' as (E' & _ & _). congruence.
  - (* links *)
    intros f x Hf Hx. apply in_app_or in Hf as [Hf|[<-|[]]].
    + apply in_map_iff in Hf as (f0 & <- & Hf0).
      destruct (Hh f0) as (_ & Hfo0 & Hna0 & _ & Hor0).
      rewrite Hor0 in Hx.
      destruct (Hlinks f0 x Hf0 Hx) as (r0 & Hr0 & Hrid & Hrfo & Hrna).
      exists (h r0). destruct (Hh r0) as (Hi1 & Hf1 & Hn1 & _).
      split; [apply in_or_app; left; now apply in_map|].
      repeat split; congruence.
    + destruct (Horig x Hx) as (r0 & Hr0 & Hrid & Hrfo & Hrna).
      exists (h r0). destruct (Hh r0) as (Hi1 & Hf1 & Hn1 & _).
      split; [apply in_or_app; left; now apply in_map|].
      repeat split; congruence.
  - (* nothing deleted *)
    intros f Hf. apply in_app_or in Hf as [Hf|[<-|[]]]; [|assumption].
    apply in_map_iff in Hf as (f0 & <- & Hf0).
    destruct (Hh f0) as (_ & _ & _ & Hde0 & _). rewrite Hde0. now apply Hlive.
  - (* ids below the supply *)
    intros f Hf. rewrite Hnext. apply in_app_or in Hf as [Hf|[<-|[]]]; [|lia].
    apply in_map_iff in Hf as (f0 & <- & Hf0).
    destruct (Hh f0) as (Hi0 & _). rewrite Hi0. specialize (Hfresh f0 Hf0). lia.
  - (* ids distinct *)
    rewrite map_app, map_map.
    rewrite (map_ext (fun f => File._id (h f)) File._id)
      by (intros f; apply (Hh f)).
    apply NoDup_app; [assumption|repeat constructor; intros []|].
    intros a Ha [<-|[]]. apply in_map_iff in Ha as (f & Hfa & Hf).
    specialize (Hfresh f Hf). lia.
Qed.

Lemma files_ok_next_id (w w' : World) :
  files_ok w -> files w' = files w -> next_id w <= next_id w' -> files_ok w'.
Proof.
  intros [Hcur Hlinks Hlive Hfresh Hids] Hfiles Hnext.
  constructor; rewrite Hfiles; try assumption.
  intros f Hf. specialize (Hfresh f Hf). lia.
Qed.

Lemma preserves_ret (I : World -> Prop) {A} (a : A) : preserves I (ret a).
Proof. intros w H. exact H. Qed.

Lemma preserves_gets (I : World -> Prop) {A} (f : World -> A) : preserves I (gets f).
Proof. intros w H. exact H. Qed.

Lemma preserves_bind (I : World -> Prop) {A B} (m : M A) (k : A -> M B) :
  preserves I m -> (forall a, preserves I (k a)) -> preserves I (bind m k).
Proof.
  intros Hm Hk w H. unfold bind. specialize (Hm w H).
  destruct (m w) as [[a|e|] w']; simpl in *; try assumption. now apply Hk.
Qed.

Lemma preserves_try_catch (I : World -> Prop) {A} (m : M (Response A))
      (handler : string -> Response A) :
  preserves I m -> preserves I (try_catch m handler).
Proof.
  intros Hm w H. unfold try_catch. specialize (Hm w H).
  destruct (m w) as [[a|e|] w']; assumption.
Qed.

Lemma commit_upload_same_place (fid : nat) (name : string) (newid : nat)
      (prev : list nat) (f : File.t) :
  same_place (commit_upload fid name newid prev f) f.
Proof.
  unfold commit_upload, same_place.
  destruct (String.eqb (File.originalFilename f) name
            && Nat.eqb (File.folder f) fid
            && negb (Nat.eqb (File._id f) newid) && not_deleted f);
    cbv zeta;
    match goal with |- context [if ?c then _ else _] => destruct c end;
    destruct f; simpl; repeat split.
Qed.

Lemma commit_upload_member (fid : nat) (name : string) (newid : nat)
      (prev : list nat) (f : File.t) :
  in_lineage fid name f = true -> File._id f <> newid ->
  File.isCurrentVersion (commit_upload fid name newid prev f) = false.
Proof.
  intros Hin Hid. unfold commit_upload.
  unfold in_lineage in Hin.
  apply andb_prop in Hin as [Hin Hlive]. apply andb_prop in Hin as [Hfo Hna].
  apply Nat.eqb_neq in Hid. rewrite Hna, Hfo, Hid, Hlive. cbn [andb negb].
  cbv zeta.
  match goal with |- context [if ?c then _ else _] => destruct c end;
    destruct f; reflexivity.
Qed.

Lemma commit_upload_other (fid : nat) (name : string) (newid : nat)
      (prev : list nat) (f : File.t) :
  in_lineage fid name f = false \/ File._id f = newid ->
  File.isCurrentVersion (commit_upload fid name newid prev f)
  = File.isCurrentVersion f.
Proof.
  intros H. unfold commit_upload.
  assert (Hq : String.eqb (File.originalFilename f) name
               && Nat.eqb (File.folder f) fid
               && negb (Nat.eqb (File._id f) newid) && not_deleted f = false).
  { destruct H as [H | H].
    - unfold in_lineage in H.
      destruct (String.eqb (File.originalFilename f) name),
               (Nat.eqb (File.folder f) fid), (not_deleted f);
        simpl in *; try discriminate; try reflexivity; apply andb_false_r.
    - apply Nat.eqb_eq in H. rewrite H. cbn [negb].
      now rewrite andb_false_r. }
  rewrite Hq. cbv zeta.
  match goal with |- context [if ?c then _ else _] => destruct c end;
    destruct f; reflexivity.
Qed.

(** One pass of the upload loop keeps the collection well formed. *)
Lemma upload_item_files_ok (dep : Deployment) (u : User) (folder : Folder.t)
      (versionFormat : option string) (dateStr : string) (now : nat)
      (file : Upload) :
  preserves files_ok (upload_item dep u folder versionFormat dateStr now file).
Proof.
  intros w Hok.
  destruct (upload_item_cases dep u folder versionFormat dateStr now file w)
    as [(Hf & _ & Hn & _)
       | (doc & Hid & Hfo & Hna & Hde & Hcu & Hpv & Hor & _ & _ & _ & _ & Hn & Hcase)].
  - now apply (files_ok_next_id w).
  - set (fid := Folder._id folder) in *. set (name := originalname file) in *.
    assert (Hin : in_lineage fid name doc = true)
      by (apply in_lineage_true; auto).
    assert (Horig : forall x,
      match sort_version_desc (filter (in_lineage fid name) (files w)) with
      | v :: _ => Some (lineage_root v)
      | [] => None
      end = Some x ->
      exists r0, In r0 (files w) /\ File._id r0 = x
                 /\ File.folder r0 = fid /\ File.originalFilename r0 = name).
    { intros x Hx.
      destruct (sort_version_desc (filter (in_lineage fid name) (files w)))
        as [|v ev'] eqn:Eev; [discriminate|].
      assert (Hv : In v (filter (in_lineage fid name) (files w))).
      { apply sort_version_desc_In. rewrite Eev. now left. }
      apply filter_In in Hv as [Hv Hvl].
      apply in_lineage_true in Hvl as (Hvf & Hvn & _).
      injection Hx as <-. unfold lineage_root.
      destruct (File.originalFile v) as [o|] eqn:Eo.
      - destruct (ok_links w Hok v o Hv Eo) as (r0 & Hr0 & Hrid & Hrfo & Hrna).
        exists r0. repeat split; congruence.
      - exists v. repeat split; assumption. }
    destruct Hcase as [(Hev & _ & Hfiles) | (Hev & _ & Hfiles)].
    + apply (files_ok_step w _ (fun f => f) doc fid name); auto.
      * now rewrite map_id.
      * intros f. repeat split.
      * intros f Hf Hfl. apply sort_version_desc_nil in Hev.
        rewrite (proj1 (filter_nil_iff _ _) Hev f Hf) in Hfl. discriminate.
      * intros x Hx. apply Horig. now rewrite <- Hor.
    + rewrite map_app in Hfiles. cbn [map] in Hfiles.
      set (h := commit_upload fid name (next_id w)
                  (map File._id (sort_version_desc
                     (filter (in_lineage fid name) (files w))))) in *.
      assert (Hh : forall f, same_place (h f) f)
        by (intros f; apply commit_upload_same_place).
      apply (files_ok_step w _ h (h doc) fid name); auto.
      * intros f Hf Hfl. apply commit_upload_member; [assumption|].
        pose proof (ok_fresh w Hok f Hf). lia.
      * intros f Hf Hfl. apply commit_upload_other. now left.
      * destruct (Hh doc) as (Hi & _). now rewrite Hi.
      * now rewrite (in_lineage_same_place fid name _ doc (Hh doc)).
      * unfold h. rewrite commit_upload_other; [assumption | now right].
      * intros x Hx. apply Horig. rewrite <- Hor.
        destruct (Hh doc) as (_ & _ & _ & _ & Ho). now rewrite <- Ho.
Qed.

Lemma restore_demote_same_place (v cur f : File.t) :
  same_place (restore_demote v cur f) f.
Proof.
  unfold restore_demote, same_place.
  match goal with |- context [if ?c then _ else _] => destruct c end;
    destruct f; simpl; repeat split.
Qed.

(** A restore request keeps the collection well formed. *)
Lemma restore_file_files_ok (dep : Deployment) (u : User) (id : nat) :
  preserves files_ok (restore_file dep u id).
Proof.
  intros w Hok.
  destruct (restore_file_cases dep u id w)
    as [(Hf & _ & Hn & _)
       | (v & cur & doc & Hv & Hcur & Hid & Hfo & Hna & Hde & Hor & Hcu & _ & _
          & _ & Hn & Hfiles & _)].
  - now apply (files_ok_next_id w).
  - apply find_some in Hv as [Hv _].
    apply find_some in Hcur as [Hcur Hcurp].
    apply andb_prop in Hcurp as [Hcuro Hcurc].
    assert (Hcuro' : File.originalFile cur = Some (lineage_root v)).
    { destruct (File.originalFile cur) as [o|]; [|discriminate].
      simpl in Hcuro. apply Nat.eqb_eq in Hcuro. now subst o. }
    set (fid := File.folder v). set (name := File.originalFilename v).
    (* the former current version belongs to the lineage of [v] *)
    assert (Hplace : File.folder cur = fid /\ File.originalFilename cur = name).
    { destruct (ok_links w Hok cur _ Hcur Hcuro') as (r0 & Hr0 & Hrid & Hrfo & Hrna).
      unfold lineage_root in Hrid.
      destruct (File.originalFile v) as [o|] eqn:Eo.
      - destruct (ok_links w Hok v o Hv Eo) as (r1 & Hr1 & Hrid1 & Hrfo1 & Hrna1).
        assert (r0 = r1)
          by (apply (NoDup_ids_unique (files w)); try assumption;
              [apply (ok_ids w Hok) | congruence]).
        subst r1. unfold fid, name. split; congruence.
      - assert (r0 = v)
          by (apply (NoDup_ids_unique (files w)); try assumption;
              apply (ok_ids w Hok)).
        subst r0. unfold fid, name. split; congruence. }
    destruct Hplace as [Hcfo Hcna].
    assert (Hvl : in_lineage fid name v = true).
    { apply in_lineage_true. repeat split. apply (ok_live w Hok v Hv). }
    assert (Hcl : in_lineage fid name cur = true).
    { apply in_lineage_true. repeat split; try assumption.
      apply (ok_live w Hok cur Hcur). }
    rewrite map_app in Hfiles. cbn [map] in Hfiles.
    assert (Hdoc : restore_demote v cur doc = doc).
    { unfold restore_demote. rewrite Hid.
      pose proof (ok_fresh w Hok v Hv) as F1.
      pose proof (ok_fresh w Hok cur Hcur) as F2.
      assert (E1 : Nat.eqb (next_id w) (File._id v) = false)
        by (apply Nat.eqb_neq; lia).
      assert (E2 : Nat.eqb (next_id w) (File._id cur) = false)
        by (apply Nat.eqb_neq; lia).
      now rewrite E1, E2. }
    rewrite Hdoc in Hfiles.
    apply (files_ok_step w _ (restore_demote v cur) doc fid name); auto.
    + intros f. apply restore_demote_same_place.
    + (* members of the lineage end up not current *)
      intros f Hf Hfl. unfold restore_demote.
      match goal with |- context [if ?c then _ else _] => destruct c eqn:Ec end;
        [destruct f; reflexivity|].
      destruct (File.isCurrentVersion f) eqn:Efc; [|reflexivity].
      assert (f = cur).
      { apply (filter_one_unique (is_current_in fid name) (files w)); auto.
        - apply (ok_current w Hok). exists v. auto.
        - unfold is_current_in. now rewrite Hfl, Efc.
        - unfold is_current_in. now rewrite Hcl, Hcurc. }
      subst f. rewrite Nat.eqb_refl, orb_true_r in Ec.
      fold name in Ec. rewrite Hcna, String.eqb_refl in Ec. discriminate.
    + (* documents of other lineages are left alone *)
      intros f Hf Hfl. unfold restore_demote.
      match goal with |- context [if ?c then _ else _] => destruct c eqn:Ec end;
        [|reflexivity].
      apply andb_prop in Ec as [Ec _]. apply orb_prop in Ec as [Ec|Ec];
        apply Nat.eqb_eq in Ec.
      * assert (f = v)
          by (apply (NoDup_ids_unique (files w)); try assumption;
              apply (ok_ids w Hok)).
        subst f. congruence.
      * assert (f = cur)
          by (apply (NoDup_ids_unique (files w)); try assumption;
              apply (ok_ids w Hok)).
        subst f. congruence.
    + apply in_lineage_true. repeat split; try assumption.
      rewrite Hde. apply (ok_live w Hok v Hv).
    + intros x Hx. rewrite Hor in Hx.
      destruct (ok_links w Hok v x Hv Hx) as (r0 & Hr0 & Hrid & Hrfo & Hrna).
      exists r0. repeat split; assumption.
Qed.

Lemma upload_loop_files_ok (dep : Deployment) (u : User) (folder : Folder.t)
      (versionFormat : option string) (dateStr : string) (now : nat)
      (uploadedFiles : list Upload) :
  preserves files_ok
    (upload_loop dep u folder versionFormat dateStr now uploadedFiles).
Proof.
  induction uploadedFiles as [|file rest IH]; simpl.
  - apply preserves_ret.
  - apply preserves_bind; [apply upload_item_files_ok|]. intros r.
    apply preserves_bind; [exact IH|]. intros saved. apply preserves_ret.
Qed.

(** An upload request keeps the collection well formed. *)
Lemma upload_files_files_ok (dep : Deployment) (u : User) (folderId : nat)
      (versionFormat : option string) (dateStr : string) (now : nat)
      (uploadedFiles : list Upload) :
  preserves files_ok
    (upload_files dep u folderId versionFormat dateStr now uploadedFiles).
Proof.
  unfold upload_files. apply preserves_try_catch.
  destruct uploadedFiles as [|file rest]; [apply preserves_ret|].
  apply preserves_bind; [apply preserves_gets|].
  intros [folder|]; [|apply preserves_ret].
  match goal with |- preserves _ (if ?c then _ else _) => destruct c end;
    [apply preserves_ret|].
  apply preserves_bind; [apply upload_loop_files_ok|].
  intros [|e l]; apply preserves_ret.
Qed.

Lemma files_ok_start (w : World) : files w = [] -> files_ok w.
Proof.
  intros H. constructor; rewrite H.
  - intros fid name (f & [] & _).
  - intros f x [].
  - intros f [].
  - intros f [].
  - constructor.
Qed.

Lemma reachable_files_ok (dep : Deployment) (w : World) :
  reachable dep w -> files_ok w.
Proof.
  induction 1 as [w H | w u folderId versionFormat dateStr now ups _ IH
                  | w u id _ IH].
  - now apply files_ok_start.
  - now apply upload_files_files_ok.
  - now apply restore_file_files_ok.
Qed.

(** C4: in every world that upload and restore requests reach, each
    lineage of non-deleted documents, identified by folder and original file
    name, has exactly one document with [isCurrentVersion = true]. *)
Theorem one_current_version_per_lineage (dep : Deployment) (w : World)
        (fid : nat) (name : string) :
  reachable dep w ->
  (exists f, In f (files w) /\ in_lineage fid name f = true) ->
  exists cur,
    filter (fun f => in_lineage fid name f && File.isCurrentVersion f) (files w)
    = [cur].
Proof.
  intros Hreach Hmember.
  pose proof (ok_current w (reachable_files_ok dep w Hreach) fid name Hmember) as H.
  unfold is_current_in in H.
  destruct (filter _ (files w)) as [|cur [|x r]]; try discriminate.
  now exists cur.
Qed.

Lemma one_current_version_per_lineage_witness :
  exists cur,
    filter (fun f => in_lineage 1 "report.pdf" f && File.isCurrentVersion f)
           (files three_versions)
    = [cur].
Proof.
  apply (one_current_version_per_lineage srv three_versions 1 "report.pdf").
  - unfold three_versions. do 3 apply reach_upload.
    apply reach_start. reflexivity.
  - vm_compute. eexists. split; [left; reflexivity | reflexivity].
Defined.

(** ** C8 in every reachable world *)

Lemma restore_demote_place (v cur f : File.t) :
  File._id (restore_demote v cur f) = File._id f
  /\ File.originalFile (restore_demote v cur f) = File.originalFile f
  /\ File.filename (restore_demote v cur f) = File.filename f.
Proof. unfold restore_demote. destruct (_ && _); repeat split. Qed.

Lemma commit_upload_filename (fid : nat) (name : string) (newid : nat)
      (prev : list nat) (f : File.t) :
  File.filename (commit_upload fid name newid prev f) = File.filename f.
Proof.
  unfold commit_upload. cbv zeta.
  repeat match goal with |- context [if ?c then _ else _] => destruct c end;
    reflexivity.
Qed.

Lemma names_trimmed_same_files (w w' : World) :
  names_trimmed w -> files w' = files w -> names_trimmed w'.
Proof. intros H E f. rewrite E. apply H. Qed.

Lemma names_trimmed_step (w w' : World) (h : File.t -> File.t) (doc : File.t)
      (s : string) :
  names_trimmed w ->
  (forall f, File.filename (h f) = File.filename f) ->
  File.filename doc = trim s ->
  files w' = map h (files w ++ [doc])%list ->
  names_trimmed w'.
Proof.
  intros Hw Hh Hdoc Hfiles f Hf. rewrite Hfiles in Hf.
  apply in_map_iff in Hf. destruct Hf as (g & <- & Hg). rewrite Hh.
  apply in_app_or in Hg. destruct Hg as [Hg | [<- | []]].
  - now apply Hw.
  - rewrite Hdoc. apply trim_idempotent.
Qed.

Lemma upload_item_names_trimmed (dep : Deployment) (u : User) (folder : Folder.t)
      (versionFormat : option string) (dateStr : string) (now : nat)
      (file : Upload) :
  preserves names_trimmed (upload_item dep u folder versionFormat dateStr now file).
Proof.
  intros w Hw.
  destruct (upload_item_cases dep u folder versionFormat dateStr now file w)
    as [(Hf & _)
       | (doc & _ & _ & _ & _ & _ & _ & _ & _ & Hfn & _ & _ & _ & Hcase)].
  - now apply (names_trimmed_same_files w).
  - destruct Hcase as [(_ & _ & Hfiles) | (_ & _ & Hfiles)].
    + eapply (names_trimmed_step w _ (fun f => f) doc _ Hw);
        [reflexivity | exact Hfn | now rewrite map_id].
    + eapply (names_trimmed_step w _ _ doc _ Hw); [|exact Hfn|exact Hfiles].
      intros f. apply commit_upload_filename.
Qed.

Lemma upload_files_names_trimmed (dep : Deployment) (u : User) (folderId : nat)
      (versionFormat : option string) (dateStr : string) (now : nat)
      (uploadedFiles : list Upload) :
  preserves names_trimmed
    (upload_files dep u folderId versionFormat dateStr now uploadedFiles).
Proof.
  assert (Hloop : forall folder l,
    preserves names_trimmed (upload_loop dep u folder versionFormat dateStr now l)).
  { intros folder l. induction l as [|file rest IH]; simpl.
    - apply preserves_ret.
    - apply preserves_bind; [apply upload_item_names_trimmed|]. intros r.
      apply preserves_bind; [exact IH|]. intros saved. apply preserves_ret. }
  unfold upload_files. apply preserves_try_catch.
  destruct uploadedFiles as [|file rest]; [apply preserves_ret|].
  apply preserves_bind; [apply preserves_gets|].
  intros [folder|]; [|apply preserves_ret].
  match goal with |- preserves _ (if ?c then _ else _) => destruct c end;
    [apply preserves_ret|].
  apply preserves_bind; [apply Hloop|].
  intros [|e l]; apply preserves_ret.
Qed.

Lemma restore_file_names_trimmed (dep : Deployment) (u : User) (id : nat) :
  preserves names_trimmed (restore_file dep u id).
Proof.
  intros w Hw.
  destruct (restore_file_cases dep u id w)
    as [(Hf & _)
       | (v & cur & doc & _ & _ & _ & _ & _ & _ & _ & _ & _ & _ & _ & _ & Hfiles
          & Hfn & _)].
  - now apply (names_trimmed_same_files w).
  - eapply (names_trimmed_step w _ _ doc _ Hw); [|exact Hfn|exact Hfiles].
    intros f. apply restore_demote_place.
Qed.

Lemma reachable_names_trimmed (dep : Deployment) (w : World) :
  reachable dep w -> names_trimmed w.
Proof.
  induction 1 as [w H | w u folderId versionFormat dateStr now ups _ IH
                  | w u id _ IH].
  - intros f. rewrite H. intros [].
  - now apply upload_files_names_trimmed.
  - now apply restore_file_names_trimmed.
Qed.

(** With the unique indexes of the schema built, no restore request stores
    a version, whatever the working directory and whichever version is
    asked for: the copy keeps the folder and the file name of the restored
    document, which is still stored, so the insert violates the index on
    [(folder, filename)] whenever the request gets that far. *)
Lemma restore_file_rejected_by_unique_index
      (dep : Deployment) (u : User) (id : nat) (w : World) :
  unique_indexes dep = true ->
  reachable dep w ->
  files (after (restore_file dep u id) w) = files w
  /\ forall doc, answer (restore_file dep u id) w <> Done (Reply 200 doc).
Proof.
  intros Hdep Hreach.
  pose proof (reachable_files_ok dep w Hreach) as Hok.
  pose proof (reachable_names_trimmed dep w Hreach) as Htrim.
  destruct (restore_file_cases dep u id w)
    as [(Hf & _ & _ & Hno)
       | (v & cur & doc & Hv & _ & Hid & Hfo & _ & _ & _ & _ & _ & _ & _ & _ & _
          & Hfn & Hkey)].
  - split; [exact Hf | exact Hno].
  - exfalso. apply find_some in Hv as [Hv _].
    unfold file_key_taken in Hkey. rewrite Hdep in Hkey. cbn [andb] in Hkey.
    assert (Hex : existsb (fun f =>
      negb (Nat.eqb (File._id f) (File._id doc))
      && (String.eqb (File.path f) (File.path doc)
          || String.eqb (File.fileHash f) (File.fileHash doc)
          || (Nat.eqb (File.folder f) (File.folder doc)
              && String.eqb (File.filename f) (File.filename doc))))
      (files w) = true).
    { apply existsb_exists. exists v. split; [exact Hv|].
      pose proof (ok_fresh w Hok v Hv) as Hlt.
      rewrite Hid, Hfo, Hfn, (Htrim v Hv), Nat.eqb_refl, String.eqb_refl.
      replace (Nat.eqb (File._id v) (next_id w)) with false
        by (symmetry; apply Nat.eqb_neq; lia).
      cbn [negb andb]. apply orb_true_r. }
    rewrite Hex in Hkey. discriminate.
Qed.

(** Without the indexes, restoring the first version of a lineage adds no
    member to it: the copy has no [originalFile] either and a fresh id, so
    it is the root of a lineage of its own, and every document that
    [findVersions] can select for the restored id after the request was
    stored before it. *)
Lemma restore_first_version_adds_no_member
      (dep : Deployment) (u : User) (id : nat) (w : World) (v : File.t) :
  files_ok w ->
  find (fun f => Nat.eqb (File._id f) id) (files w) = Some v ->
  File.originalFile v = None ->
  forall f, In f (files (after (restore_file dep u id) w)) ->
    lineage_root f = id ->
    exists g, In g (files w) /\ File._id g = File._id f.
Proof.
  intros Hok Hv Hroot f Hin Hf.
  destruct (restore_file_cases dep u id w)
    as [(Hfiles & _)
       | (v' & cur & doc & Hv' & _ & Hid & _ & _ & _ & Horig & _ & _ & _ & _ & _
          & Hfiles & _)];
    unfold after in Hin; rewrite Hfiles in Hin.
  - now exists f.
  - rewrite Hv in Hv'. injection Hv' as <-.
    apply in_map_iff in Hin. destruct Hin as (g & <- & Hg).
    destruct (restore_demote_place v cur g) as (Ei & Eo & _).
    apply in_app_or in Hg. destruct Hg as [Hg | [<- | []]].
    + exists g. now rewrite Ei.
    + exfalso. unfold lineage_root in Hf. rewrite Eo, Horig, Hroot, Ei, Hid in Hf.
      apply find_some in Hv. destruct Hv as [Hvin Hvid].
      apply Nat.eqb_eq in Hvid. apply (ok_fresh _ Hok) in Hvin. lia.
Qed.

(** ** C10: the approval annotation of an upload *)

Lemma commit_upload_same_approval (fid : nat) (name : string) (newid : nat)
      (prev : list nat) (f : File.t) :
  same_approval (commit_upload fid name newid prev f) f.
Proof.
  unfold commit_upload, same_approval.
  destruct (String.eqb (File.originalFilename f) name
            && Nat.eqb (File.folder f) fid
            && negb (Nat.eqb (File._id f) newid) && not_deleted f);
    cbv zeta;
    match goal with |- context [if ?c then _ else _] => destruct c end;
    destruct f; simpl; repeat split.
Qed.

Lemma same_approval_refl (f : File.t) : same_approval f f.
Proof. repeat split. Qed.

Lemma upload_item_keeps_doc (dep : Deployment) (u : User) (folder : Folder.t)
      (versionFormat : option string) (dateStr : string) (now : nat)
      (file : Upload) (g : File.t) :
  preserves (has_doc_like g)
    (upload_item dep u folder versionFormat dateStr now file).
Proof.
  intros w (g' & Hg' & Hsame).
  destruct (upload_item_cases dep u folder versionFormat dateStr now file w)
    as [(Hf & _) | (doc & _ & _ & _ & _ & _ & _ & _ & _ & _ & _ & _ & _ & Hcase)].
  - exists g'. rewrite Hf. auto.
  - destruct Hcase as [(_ & _ & Hfiles) | (_ & _ & Hfiles)]; unfold has_doc_like;
      rewrite Hfiles.
    + exists g'. split; [apply in_or_app; now left | assumption].
    + eexists. split; [apply in_map, in_or_app; left; exact Hg'|].
      destruct (commit_upload_same_approval (Folder._id folder) (originalname file)
                  (next_id w)
                  (map File._id
                     (sort_version_desc
                        (filter (in_lineage (Folder._id folder) (originalname file))
                                (files w)))) g') as (A & B & C & D).
      destruct Hsame as (A' & B' & C' & D'). repeat split; congruence.
Qed.

Lemma upload_loop_keeps_doc (dep : Deployment) (u : User) (folder : Folder.t)
      (versionFormat : option string) (dateStr : string) (now : nat)
      (uploadedFiles : list Upload) (g : File.t) :
  preserves (has_doc_like g)
    (upload_loop dep u folder versionFormat dateStr now uploadedFiles).
Proof.
  induction uploadedFiles as [|file rest IH]; simpl.
  - apply preserves_ret.
  - apply preserves_bind; [apply upload_item_keeps_doc|]. intros r.
    apply preserves_bind; [exact IH|]. intros saved. apply preserves_ret.
Qed.

Lemma upload_item_stored (dep : Deployment) (u : User) (folder : Folder.t)
      (versionFormat : option string) (dateStr : string) (now : nat)
      (file : Upload) (w w' : World) (f : File.t) :
  upload_item dep u folder versionFormat dateStr now file w
  = (Done (Some (Stored f)), w') ->
  approval_by_role u now f /\ has_doc_like f w'.
Proof.
  intros H.
  destruct (upload_item_cases dep u folder versionFormat dateStr now file w)
    as [(_ & _ & _ & Hno) | (doc & _ & _ & _ & _ & _ & _ & _ & _ & _ & Hap & _ & _ & Hcase)];
    rewrite H in *; cbn [fst snd] in *.
  - now elim (Hno f).
  - destruct Hcase as [(_ & Hst & Hfiles) | (_ & Hst & Hfiles)];
      injection Hst as ->.
    + split; [assumption|]. exists doc. rewrite Hfiles.
      split; [apply in_or_app; right; now left | apply same_approval_refl].
    + split.
      * unfold approval_by_role in *. destruct doc; exact Hap.
      * eexists. rewrite Hfiles. split.
        -- apply in_map, in_or_app. right. left. reflexivity.
        -- destruct (commit_upload_same_approval (Folder._id folder)
                       (originalname file) (next_id w)
                       (map File._id
                          (sort_version_desc
                             (filter (in_lineage (Folder._id folder)
                                                 (originalname file))
                                     (files w)))) doc) as (A & B & C & D).
           destruct doc; simpl in *. repeat split; assumption.
Qed.

Lemma upload_loop_stored (dep : Deployment) (u : User) (folder : Folder.t)
      (versionFormat : option string) (dateStr : string) (now : nat)
      (uploadedFiles : list Upload) (w w' : World) (saved : list SavedEntry)
      (f : File.t) :
  upload_loop dep u folder versionFormat dateStr now uploadedFiles w
  = (Done saved, w') ->
  In (Stored f) saved ->
  approval_by_role u now f /\ has_doc_like f w'.
Proof.
  revert w saved.
  induction uploadedFiles as [|file rest IH]; intros w saved H Hin.
  - simpl in H. injection H as <- <-. destruct Hin.
  - cbn [upload_loop] in H. unfold bind at 1 in H.
    destruct (upload_item dep u folder versionFormat dateStr now file w)
      as [[r|e|] w1] eqn:Eitem; try discriminate.
    unfold bind at 1 in H.
    destruct (upload_loop dep u folder versionFormat dateStr now rest w1)
      as [[saved'|e|] w2] eqn:Erest; try discriminate.
    unfold ret in H. injection H as <- <-.
    assert (Hcase : r = Some (Stored f) \/ In (Stored f) saved').
    { destruct r as [e|]; [|now right].
      destruct Hin as [->|Hin]; [now left | now right]. }
    destruct Hcase as [-> | Hin'].
    + destruct (upload_item_stored _ _ _ _ _ _ _ _ _ _ Eitem) as [Hap Hdoc].
      split; [assumption|].
      pose proof (upload_loop_keeps_doc dep u folder versionFormat dateStr now
                    rest f w1 Hdoc) as Hkeep.
      now rewrite Erest in Hkeep.
    + now apply (IH w1 saved').
Qed.

(** C10: whenever an upload request succeeds, every document it reports as
    stored carries the approval annotation fixed by the uploader's role, and
    so does the stored document of that id: [approved] with the uploader as
    approver and the time of the request for an admin or sub-admin, [pending]
    without approver for a user. *)
Theorem upload_approval_follows_role (dep : Deployment) (u : User) (folderId : nat)
        (versionFormat : option string) (dateStr : string) (now : nat)
        (uploadedFiles : list Upload) (w w' : World) (entries : list SavedEntry)
        (f : File.t) :
  upload_files dep u folderId versionFormat dateStr now uploadedFiles w
  = (Done (Reply 201 entries), w') ->
  In (Stored f) entries ->
  approval_by_role u now f
  /\ exists g, In g (files w') /\ same_approval g f /\ approval_by_role u now g.
Proof.
  intros H Hin. unfold upload_files, try_catch in H.
  destruct uploadedFiles as [|file rest]; [discriminate|].
  unfold bind at 1 in H. unfold Folder_findById at 1, gets at 1 in H.
  destruct (find (fun f0 => Nat.eqb (Folder._id f0) folderId) (folders w))
    as [folder|]; [|discriminate].
  match type of H with context [if ?c then _ else _] => destruct c end;
    [discriminate|].
  unfold bind at 1 in H.
  destruct (upload_loop dep u folder versionFormat dateStr now (file :: rest) w)
    as [[saved|e|] w1] eqn:Eloop; try discriminate.
  destruct saved as [|s0 saved]; [discriminate|].
  unfold ret in H. injection H as <- <-.
  destruct (upload_loop_stored _ _ _ _ _ _ _ _ _ _ _ Eloop Hin)
    as [Hap (g & Hg & Hsame)].
  split; [assumption|]. exists g. repeat split; try assumption; try apply Hsame.
  destruct Hsame as (_ & B & C & D).
  unfold approval_by_role in *. rewrite B, C, D. exact Hap.
Qed.

Lemma upload_approval_follows_role_witness :
  approval_by_role alice 11 first_report
  /\ exists g,
       In g (files (after (upload_files srv alice 1 None "2024-05-01" 11
                             [pdf "report.pdf" "AAA"]) docs_folder))
       /\ same_approval g first_report /\ approval_by_role alice 11 g.
Proof.
  apply (upload_approval_follows_role srv alice 1 None "2024-05-01" 11
           [pdf "report.pdf" "AAA"] docs_folder
           (after (upload_files srv alice 1 None "2024-05-01" 11
                     [pdf "report.pdf" "AAA"]) docs_folder)
           [Stored first_report] first_report).
  - vm_compute. reflexivity.
  - left. reflexivity.
Defined.

(** The same request by a user with write access to the folder. *)
Example upload_by_user_is_pending :
  map (fun f => (File.filename f, File.approvalStatus f, File.approvedBy f,
                 File.approvedAt f))
      (files (after (upload_files srv bob 1 None "2024-05-01" 11
                       [pdf "notes.pdf" "NNN"]) docs_shared_with_bob))
  = [("notes.pdf", pending, None, None)].
Proof. vm_compute. reflexivity. Qed.
(** ** C7: uploading content that the folder already holds *)





(** The target path may as well be taken by a directory: the bytes of
    [a.pdf], uploaded under the name of the sub-folder [README], are skipped
    in the same way. *)
Example duplicate_upload_onto_directory :
  map folder_row (folders docs_with_readme)
  = [(1, "docs", "docs", 0, None); (2, "README", "docs/README", 1, Some 1)]
  /\ map file_row (files docs_with_readme) = [(3, "a.pdf", 1, true, None)]
  /\ is_dir docs_with_readme "/srv/app/storage/docs/README" = true
  /\ upload_files srv alice 1 None "2024-05-02" 12
       [mkUpload "README" "AAA" 3 "text/plain"] docs_with_readme
     = (Done (Fail 409 "No new files were uploaded (duplicates or conflicts detected)"),
        docs_with_readme).
Proof. vm_compute. repeat split. Qed.

(** After a rename through the update route the directory of the folder is
    missing: a duplicate upload makes it, and changes nothing else. *)
Example duplicate_upload_makes_directory :
  let w := after (update_folder srv alice 1 (Some "b") ParentAbsent)
                 folder_a_with_file in
  let request :=
    upload_files srv alice 1 None "2024-05-02" 12 [pdf "copy.pdf" "XXX"] in
  is_dir w "/srv/app/storage/b" = false
  /\ (exists d, answer request w = Done (Reply 201 [DuplicateOf d])
                /\ file_row d = (2, "x.pdf", 1, true, None))
  /\ after request w = with_dirs (dirs w ++ ["/srv/app/storage/b"])%list w.
Proof.
  vm_compute. split; [reflexivity|]. split; [|reflexivity].
  eexists. split; reflexivity.
Qed.

(** The same request also fails where the computed name is taken by a
    document: the handler raises before it looks the hash up. *)
Lemma duplicate_upload_raises_on_taken_name :
  upload_files srv alice 1 None "2024-05-04" 14 [pdf "report.pdf" "AAA"]
    docs_with_clash
  = (Done (Fail 500 "File upload failed"), docs_with_clash).
Proof. vm_compute. reflexivity. Qed.

(** ** C9: deleting a file *)

Lemma disk_has_remove (p : string) (d : list (string * string)) :
  disk_has (disk_remove p d) p = false.
Proof.
  unfold disk_has. induction d as [|[q c] r IH]; simpl; [reflexivity|].
  destruct (String.eqb q p) eqn:E; simpl; [exact IH|]. now rewrite E.
Qed.

Lemma disk_remove_absent (p : string) (d : list (string * string)) :
  disk_has d p = false -> disk_remove p d = d.
Proof.
  unfold disk_has. induction d as [|[q c] r IH]; simpl; [reflexivity|].
  destruct (String.eqb q p) eqn:E; simpl; [discriminate|].
  intros H. now rewrite IH.
Qed.

(** Nothing is found under the name of a regular file once it is
    unlinked. *)
Lemma exists_at_unlinked (dep : Deployment) (p c : string) (w : World) :
  entry_at dep p w = RegularFile c ->
  exists_at dep p
    (with_disk (disk_remove (entry_name (fs_resolve dep p)) (disk w)) w)
  = false.
Proof.
  unfold exists_at, entry_at. cbv zeta. cbn [disk with_disk].
  change (is_dir (with_disk (disk_remove (entry_name (fs_resolve dep p)) (disk w)) w))
    with (is_dir w).
  destruct (is_dir w (entry_name (fs_resolve dep p))); [discriminate|].
  destruct (endsWith (fs_resolve dep p) "/"); [discriminate|].
  intros _.
  pose proof (disk_has_remove (entry_name (fs_resolve dep p)) (disk w)) as H.
  unfold disk_has in H.
  destruct (disk_lookup _ _); [discriminate | reflexivity].
Qed.

(** The delete route acts on the stored path.  For a stored document, a
    principal with access and a stored path that passes the check of the
    route: a regular file under that path is unlinked and the document
    removed; when nothing is there, the document is removed all the same;
    when a directory has the name, or the name leads through a regular
    file, [unlink] fails with another code than ENOENT and the request
    fails, leaving everything in place. *)
Lemma delete_file_follows_stored_path (dep : Deployment) (u : User)
      (id : nat) (w : World) (file : File.t) :
  find (fun f => Nat.eqb (File._id f) id) (files w) = Some file ->
  answer (file_hasAccess u file) w = Done true ->
  startsWith (join [STORAGE_ROOT dep; File.path file])
             (normalize (STORAGE_ROOT dep ++ "/")) = true ->
  let target := join [STORAGE_ROOT dep; File.path file] in
  let object := entry_name (fs_resolve dep target) in
  let kept := filter (fun f => negb (Nat.eqb (File._id f) (File._id file)))
                     (files w) in
  match entry_at dep target w with
  | RegularFile _ =>
      delete_file dep u id w
      = (Done (Reply 200 tt),
         with_files kept (with_disk (disk_remove object (disk w)) w))
      /\ exists_at dep target (after (delete_file dep u id) w) = false
  | Directory =>
      delete_file dep u id w = (Done (Fail 500 "Failed to delete file"), w)
  | Nothing =>
      delete_file dep u id w
      = if through_file w object || disk_has (disk w) object
        then (Done (Fail 500 "Failed to delete file"), w)
        else (Done (Reply 200 tt), with_files kept w)
  end.
Proof.
  intros Hfind Hacc Hroot target object kept.
  destruct (file_hasAccess_state u file w) as [b Hb].
  unfold answer in Hacc. rewrite Hb in Hacc. cbn [fst] in Hacc.
  injection Hacc as ->.
  assert (Hreq : delete_file dep u id w
                 = match unlink_tolerant dep target w with
                   | (Done _, w1) =>
                       match File_deleteOne dep file w1 with
                       | (Done _, w2) => (Done (Reply 200 tt), w2)
                       | (Throw _, w2) => (Done (Fail 500 "Failed to delete file"), w2)
                       | (Diverge, w2) => (Diverge, w2)
                       end
                   | (Throw _, w1) => (Done (Fail 500 "Failed to delete file"), w1)
                   | (Diverge, w1) => (Diverge, w1)
                   end).
  { unfold delete_file, try_catch.
    unfold bind at 1. unfold File_findById at 1, gets at 1. rewrite Hfind.
    unfold bind at 1. rewrite Hb. cbn [negb]. rewrite Hroot. fold target.
    cbn [negb]. unfold bind at 1.
    destruct (unlink_tolerant dep target w) as [[[]|e|] w1]; try reflexivity.
    unfold bind at 1.
    destruct (File_deleteOne dep file w1) as [[[]|e|] w2]; reflexivity. }
  unfold after. rewrite Hreq. unfold unlink_tolerant, fsp_unlink. fold object.
  destruct (entry_at dep target w) as [c| |] eqn:Eat.
  - pose proof (exists_at_unlinked dep target c w Eat) as Hgone.
    fold object in Hgone.
    assert (Hdel : File_deleteOne dep file
                     (with_disk (disk_remove object (disk w)) w)
                   = (Done tt,
                      with_files kept (with_disk (disk_remove object (disk w)) w))).
    { unfold File_deleteOne. unfold bind at 1. unfold pathExists at 1, gets at 1.
      unfold getFullPath. fold target. rewrite Hgone. reflexivity. }
    rewrite Hdel. split; [reflexivity | exact Hgone].
  - reflexivity.
  - destruct (through_file w object || disk_has (disk w) object); [reflexivity|].
    unfold File_deleteOne. unfold bind at 1. unfold pathExists at 1, gets at 1.
    unfold getFullPath. fold target. unfold exists_at. rewrite Eat.
    unfold bind, ret, modify. reflexivity.
Qed.

(** C9 fails for an upload whose name starts with white space.  The bytes
    of [ a.pdf] are moved to the name as it was sent, while the document is
    stored with the trimmed name and the path [docs/a.pdf].  The delete
    request unlinks the stored path, takes the missing file for an object
    that is already absent, removes the document and answers 200: the bytes
    stay on the disk, and no document points to them. *)
Theorem delete_file_leaves_untrimmed_upload :
  map (fun f => (File._id f, File.filename f, File.originalFilename f, File.path f))
      (files docs_with_untrimmed)
  = [(2, "a.pdf", " a.pdf", "docs/a.pdf")]
  /\ disk docs_with_untrimmed = [("/srv/app/storage/docs/ a.pdf", "AAA")]
  /\ answer (delete_file srv alice 2) docs_with_untrimmed = Done (Reply 200 tt)
  /\ files (after (delete_file srv alice 2) docs_with_untrimmed) = []
  /\ disk (after (delete_file srv alice 2) docs_with_untrimmed)
     = [("/srv/app/storage/docs/ a.pdf", "AAA")].
Proof. vm_compute. repeat split. Qed.

(** Where the bytes lie under the stored path, the request removes both. *)
Example delete_file_removes_record_and_object :
  answer (delete_file srv alice 3) three_versions = Done (Reply 200 tt)
  /\ map File._id (files (after (delete_file srv alice 3) three_versions)) = [2; 4]
  /\ disk (after (delete_file srv alice 3) three_versions)
     = [("/srv/app/storage/docs/report(2).pdf", "CCC");
        ("/srv/app/storage/docs/report.pdf", "AAA")].
Proof. vm_compute. repeat split. Qed.

(** The object may be missing already: the request still succeeds and the
    document is removed. *)
Example delete_file_tolerates_missing_object :
  let w := with_disk [] three_versions in
  delete_file srv alice 3 w
  = (Done (Reply 200 tt),
     with_files (filter (fun f => negb (Nat.eqb (File._id f) 3)) (files w)) w).
Proof. vm_compute. reflexivity. Qed.

(** ** Access lists *)

Lemma find_replace_folder_id (g folder : Folder.t) (l : list Folder.t) :
  find (fun f => Nat.eqb (Folder._id f) (Folder._id g)) l = Some folder ->
  find (fun f => Nat.eqb (Folder._id f) (Folder._id g)) (replace_folder g l) = Some g.
Proof.
  unfold replace_folder. induction l as [|a l IH]; cbn; [discriminate|].
  destruct (Nat.eqb (Folder._id a) (Folder._id g)) eqn:E.
  - intros _. now rewrite Nat.eqb_refl.
  - rewrite E. exact IH.
Qed.

Lemma find_replace_folder_none (g : Folder.t) (l : list Folder.t)
      (q : Folder.t -> bool) :
  q g = false ->
  find (fun f => Nat.eqb (Folder._id f) (Folder._id g) && q f) (replace_folder g l)
  = None.
Proof.
  unfold replace_folder. intros Q. induction l as [|a l IH]; cbn; [reflexivity|].
  destruct (Nat.eqb (Folder._id a) (Folder._id g)) eqn:E.
  - rewrite Nat.eqb_refl, Q. exact IH.
  - rewrite E. exact IH.
Qed.

Lemma find_replace_folder_and (g folder : Folder.t) (l : list Folder.t)
      (q : Folder.t -> bool) :
  find (fun f => Nat.eqb (Folder._id f) (Folder._id g)) l = Some folder ->
  find (fun f => Nat.eqb (Folder._id f) (Folder._id g) && q f) (replace_folder g l)
  = if q g then Some g else None.
Proof.
  destruct (q g) eqn:Q; [|intros _; now apply find_replace_folder_none].
  unfold replace_folder. induction l as [|a l IH]; cbn; [discriminate|].
  destruct (Nat.eqb (Folder._id a) (Folder._id g)) eqn:E.
  - intros _. now rewrite Nat.eqb_refl, Q.
  - rewrite E. exact IH.
Qed.

Lemma find_id_eq (id : nat) (folder : Folder.t) (l : list Folder.t) :
  find (fun f => Nat.eqb (Folder._id f) id) l = Some folder -> Folder._id folder = id.
Proof. intros H. apply find_some in H as [_ H]. now apply Nat.eqb_eq. Qed.

Lemma set_permission_find (userId : nat) (p : Permission) (l : list (nat * Permission)) :
  find (fun a => Nat.eqb (fst a) userId) (set_permission userId p l) = Some (userId, p).
Proof.
  induction l as [|a l IH]; cbn.
  - now rewrite Nat.eqb_refl.
  - destruct (Nat.eqb (fst a) userId) eqn:E; cbn; rewrite E; [|exact IH].
    apply Nat.eqb_eq in E. now rewrite E.
Qed.

Lemma set_permission_others (userId v : nat) (p : Permission)
      (l : list (nat * Permission)) :
  v <> userId ->
  filter (fun a => Nat.eqb (fst a) v) (set_permission userId p l)
  = filter (fun a => Nat.eqb (fst a) v) l.
Proof.
  intros Hv. induction l as [|a l IH]; cbn.
  - apply Nat.eqb_neq in Hv. rewrite Nat.eqb_sym. now rewrite Hv.
  - destruct (Nat.eqb (fst a) userId) eqn:E; cbn.
    + apply Nat.eqb_eq in E. rewrite E.
      apply Nat.eqb_neq in Hv. rewrite Nat.eqb_sym. now rewrite Hv.
    + now rewrite IH.
Qed.

Lemma set_permission_users (userId : nat) (p : Permission) (l : list (nat * Permission)) :
  map fst (set_permission userId p l)
  = if existsb (fun a => Nat.eqb (fst a) userId) l
    then map fst l else (map fst l ++ [userId])%list.
Proof.
  induction l as [|a l IH]; cbn; [reflexivity|].
  destruct (Nat.eqb (fst a) userId) eqn:E; cbn; [reflexivity|].
  rewrite IH. now destruct (existsb _ l).
Qed.

Lemma set_permission_NoDup (userId : nat) (p : Permission) (l : list (nat * Permission)) :
  NoDup (map fst l) -> NoDup (map fst (set_permission userId p l)).
Proof.
  intros H. rewrite set_permission_users.
  destruct (existsb _ l) eqn:E; [exact H|].
  apply NoDup_app.
  - exact H.
  - constructor; [intros []|constructor].
  - intros x Hx [<-|[]].
    apply in_map_iff in Hx as (a & Ha & Hin).
    assert (existsb (fun b => Nat.eqb (fst b) userId) l = true)
      by (apply existsb_exists; exists a; split; [exact Hin | now apply Nat.eqb_eq]).
    congruence.
Qed.

Lemma set_permission_single (userId : nat) (p : Permission)
      (l : list (nat * Permission)) (a : nat * Permission) :
  NoDup (map fst l) ->
  In a (set_permission userId p l) -> fst a = userId -> a = (userId, p).
Proof.
  induction l as [|b l IH]; cbn; intros Hnd Hin Ha.
  - destruct Hin as [<-|[]]. reflexivity.
  - cbn in Hnd. apply NoDup_cons_iff in Hnd as [Hnot Hnd'].
    destruct (Nat.eqb (fst b) userId) eqn:E.
    + apply Nat.eqb_eq in E. destruct Hin as [<-|Hin]; [now rewrite E|].
      exfalso. apply Hnot. rewrite E. rewrite <- Ha. now apply in_map.
    + destruct Hin as [<-|Hin].
      * apply Nat.eqb_neq in E. contradiction.
      * now apply IH.
Qed.

Ltac refused :=
  match goal with
  | Hr : ?r = _ |- _ =>
      left; subst r; unfold ret, throw; split;
      [reflexivity
      | let g := fresh in let H := fresh in
        intros g H; cbn in H; discriminate H]
  end.

Section AccessProperties.

Variable dep : Deployment.
Variable env : Platform.

(** What a request to grant access does: nothing, or one write of the
    folder with the entry of the user set. *)
Lemma grant_access_cases (u : User) (id : nat) (email permission : string) (w : World) :
  let r := grant_access env u id email permission w in
  (snd r = w /\ forall g, fst r <> Done (Reply 200 g))
  \/ (exists userId p folder,
        role u = admin
        /\ parse_permission permission = Some p
        /\ user_by_email env (normalizeEmail env email) = Some userId
        /\ find (fun f => Nat.eqb (Folder._id f) id) (folders w) = Some folder
        /\ r = (Done (Reply 200
                  (Folder_set_access
                     (set_permission userId p (Folder.access folder)) folder)),
                with_folders
                  (replace_folder
                     (Folder_set_access
                        (set_permission userId p (Folder.access folder)) folder)
                     (folders w)) w)).
Proof.
  intros r.
  assert (Hr : r = grant_access env u id email permission w) by reflexivity.
  clearbody r. unfold grant_access in Hr.
  destruct (auth [admin] u) eqn:Hauth; cbn [negb] in Hr; [|refused].
  destruct (isEmail env email); cbn [negb] in Hr; [|refused].
  destruct (parse_permission permission) as [p|]; [|refused].
  unfold try_catch in Hr.
  destruct (user_by_email env (normalizeEmail env email)) as [userId|] eqn:Hu;
    [|refused].
  unfold bind at 1 in Hr. unfold Folder_findById at 1, gets at 1 in Hr.
  destruct (find _ (folders w)) as [folder|] eqn:Hf; [|refused].
  unfold bind, Folder_save_access in Hr.
  destruct (negb (folder_name_valid _) || _); [refused|].
  right. exists userId, p, folder. unfold modify, ret in Hr. cbn in Hr.
  repeat split; try assumption.
  unfold auth in Hauth. cbn in Hauth. destruct (role u); try discriminate; reflexivity.
Qed.

(** X1.  A granted permission is in force at once: after a successful request
    the access list of the folder holds the permission asked for as the
    first entry of the user, the entries of other users are as they were, no
    user who had one entry has two, [validateFolderAccess] admits the user,
    and neither files nor disk have changed. *)
Theorem grant_access_takes_effect (u : User) (id : nat) (email permission : string)
        (w : World) (g : Folder.t) :
  answer (grant_access env u id email permission) w = Done (Reply 200 g) ->
  exists userId p folder,
    user_by_email env (normalizeEmail env email) = Some userId
    /\ parse_permission permission = Some p
    /\ find (fun f => Nat.eqb (Folder._id f) id) (folders w) = Some folder
    /\ find (fun a => Nat.eqb (fst a) userId) (Folder.access g) = Some (userId, p)
    /\ (forall v, v <> userId ->
          filter (fun a => Nat.eqb (fst a) v) (Folder.access g)
          = filter (fun a => Nat.eqb (fst a) v) (Folder.access folder))
    /\ (one_entry_per_user folder -> one_entry_per_user g)
    /\ answer (validateFolderAccess id userId)
              (after (grant_access env u id email permission) w) = Done (Some g)
    /\ files (after (grant_access env u id email permission) w) = files w
    /\ disk (after (grant_access env u id email permission) w) = disk w.
Proof.
  unfold answer, after. intros Hans.
  destruct (grant_access_cases u id email permission w)
    as [(_ & Hno) | (userId & p & folder & _ & Hp & Hu & Hf & Hr)].
  { exfalso. exact (Hno g Hans). }
  rewrite Hr in *. cbn [fst snd] in *. injection Hans as <-.
  exists userId, p, folder.
  pose proof (find_id_eq _ _ _ Hf) as Hid.
  repeat split; try assumption.
  - apply set_permission_find.
  - intros v Hv. now apply set_permission_others.
  - unfold one_entry_per_user. cbn. apply set_permission_NoDup.
  - unfold validateFolderAccess, Folder_findOne, gets. cbn [fst folders with_folders].
    set (g := Folder_set_access _ folder).
    assert (Hgid : Folder._id g = id) by exact Hid.
    rewrite <- Hgid in Hf |- *.
    rewrite (find_replace_folder_and g folder (folders w)
               (fun f => Nat.eqb (Folder.createdBy f) userId
                         || existsb (fun a => Nat.eqb (fst a) userId) (Folder.access f))
               Hf).
    assert (Hex : existsb (fun a => Nat.eqb (fst a) userId) (Folder.access g) = true).
    { apply existsb_exists. exists (userId, p). split; [|apply Nat.eqb_refl].
      pose proof (set_permission_find userId p (Folder.access folder)) as H.
      apply find_some in H as [H _]. exact H. }
    rewrite Hex, orb_true_r. reflexivity.
Qed.

End AccessProperties.

Lemma find_and_first {A} (p q : A -> bool) (l : list A) (x : A) :
  find p l = Some x -> q x = true -> find (fun a => p a && q a) l = Some x.
Proof.
  induction l as [|a l IH]; cbn; [discriminate|].
  destruct (p a) eqn:P; cbn.
  - intros H Q. injection H as ->. now rewrite Q.
  - exact IH.
Qed.

Lemma find_and_none_first {A} (p q : A -> bool) (l : list A) (x : A) :
  find p l = Some x -> (forall y, In y l -> p y = true -> y = x) -> q x = false ->
  find (fun a => p a && q a) l = None.
Proof.
  intros Hx Huniq Q.
  destruct (find (fun a => p a && q a) l) as [y|] eqn:E; [|reflexivity].
  apply find_some in E as [Hy Hpq]. apply andb_prop in Hpq as [Hp Hq].
  rewrite (Huniq y Hy Hp) in Hq. congruence.
Qed.

Lemma NoDup_folder_ids_unique (l : list Folder.t) (a b : Folder.t) :
  NoDup (map Folder._id l) -> In a l -> In b l -> Folder._id a = Folder._id b -> a = b.
Proof.
  induction l as [|x l IH]; cbn; intros Hnd Ha Hb Hid; [destruct Ha|].
  apply NoDup_cons_iff in Hnd as [Hnot Hnd].
  destruct Ha as [<-|Ha], Hb as [<-|Hb]; auto.
  - exfalso. apply Hnot. rewrite Hid. now apply in_map.
  - exfalso. apply Hnot. rewrite <- Hid. now apply in_map.
Qed.

Lemma existsb_false_iff {A} (p : A -> bool) (l : list A) :
  existsb p l = false <-> forall a, In a l -> p a = false.
Proof.
  split.
  - intros H a Ha. destruct (p a) eqn:E; [|reflexivity].
    assert (existsb p l = true) by (apply existsb_exists; eauto). congruence.
  - intros H. destruct (existsb p l) eqn:E; [|reflexivity].
    apply existsb_exists in E as (a & Ha & Hp). rewrite (H a Ha) in Hp. discriminate.
Qed.

Section UploadAccess.

Variable dep : Deployment.

Lemma upload_files_refused (u : User) (id : nat) (folder : Folder.t)
      (versionFormat : option string) (dateStr : string) (now : nat)
      (file : Upload) (rest : list Upload) (w : World) :
  find (fun f => Nat.eqb (Folder._id f) id) (folders w) = Some folder ->
  can_write u folder = false ->
  upload_files dep u id versionFormat dateStr now (file :: rest) w
  = (Done (Fail 403 "Write access required"), w).
Proof.
  intros Hf Hc. unfold upload_files, try_catch.
  unfold bind at 1. unfold Folder_findById at 1, gets at 1. rewrite Hf.
  unfold can_write in Hc. rewrite Hc. reflexivity.
Qed.

Lemma upload_files_admitted (u : User) (id : nat) (folder : Folder.t)
      (versionFormat : option string) (dateStr : string) (now : nat)
      (file : Upload) (rest : list Upload) (w : World) :
  find (fun f => Nat.eqb (Folder._id f) id) (folders w) = Some folder ->
  can_write u folder = true ->
  answer (upload_files dep u id versionFormat dateStr now (file :: rest)) w
  <> Done (Fail 403 "Write access required").
Proof.
  intros Hf Hc. unfold answer, upload_files, try_catch.
  unfold bind at 1. unfold Folder_findById at 1, gets at 1. rewrite Hf.
  unfold can_write in Hc. rewrite Hc. cbn [negb].
  unfold bind.
  destruct (upload_loop dep u folder versionFormat dateStr now (file :: rest) w)
    as [[saved|e|] w']; cbn; [destruct saved| |]; discriminate.
Qed.

End UploadAccess.

Section AccessAndUpload.

Variable dep : Deployment.
Variable env : Platform.

(** X2.  The permission granted decides the next upload of the user.  For a
    user who is neither an admin nor the creator of the folder and has at
    most one entry: after a grant of [read] an upload is refused with 403 and
    changes nothing, also when the user could write before; after a grant of
    [write] or [admin] no upload is refused for lack of access. *)
Theorem grant_access_decides_upload (u u' : User) (id : nat)
        (email permission : string) (w : World) (g folder : Folder.t)
        (versionFormat : option string) (dateStr : string) (now : nat)
        (file : Upload) (rest : list Upload) :
  answer (grant_access env u id email permission) w = Done (Reply 200 g) ->
  user_by_email env (normalizeEmail env email) = Some (uid u') ->
  find (fun f => Nat.eqb (Folder._id f) id) (folders w) = Some folder ->
  one_entry_per_user folder ->
  role u' <> admin ->
  Folder.createdBy folder <> uid u' ->
  let w' := after (grant_access env u id email permission) w in
  (permission = "read" ->
   upload_files dep u' id versionFormat dateStr now (file :: rest) w'
   = (Done (Fail 403 "Write access required"), w'))
  /\ (permission <> "read" ->
      answer (upload_files dep u' id versionFormat dateStr now (file :: rest)) w'
      <> Done (Fail 403 "Write access required")).
Proof.
  intros Hans Hu Hf Hone Hrole Hcreator w'.
  destruct (grant_access_cases env u id email permission w)
    as [(_ & Hno) | (userId & p & folder' & _ & Hp & Hu' & Hf' & Hr)].
  { exfalso. exact (Hno g Hans). }
  rewrite Hu in Hu'. injection Hu' as <-.
  rewrite Hf in Hf'. injection Hf' as <-.
  unfold answer in Hans. subst w'. unfold after. rewrite Hr in *.
  cbn [fst snd] in *. injection Hans as Hg.
  pose proof (find_id_eq _ _ _ Hf) as Hid.
  assert (Hfind : find (fun f => Nat.eqb (Folder._id f) id)
                       (folders (with_folders (replace_folder g (folders w)) w))
                  = Some g).
  { cbn [folders with_folders].
    assert (Hgid : Folder._id g = id) by (rewrite <- Hg; exact Hid).
    rewrite <- Hgid in Hf |- *. exact (find_replace_folder_id g folder _ Hf). }
  rewrite Hg.
  assert (Hcw : can_write u' g
                = match p with perm_read => false | _ => true end).
  { unfold can_write. rewrite <- Hg. cbn [Folder.createdBy Folder.access Folder_set_access].
    replace (role_eqb (role u') admin) with false
      by (destruct (role u'); [contradiction|reflexivity|reflexivity]).
    replace (Nat.eqb (Folder.createdBy folder) (uid u')) with false
      by (symmetry; now apply Nat.eqb_neq).
    cbn [orb].
    destruct p.
    - apply existsb_false_iff. intros a Ha.
      destruct (Nat.eqb (fst a) (uid u')) eqn:E; [|reflexivity].
      apply Nat.eqb_eq in E.
      rewrite (set_permission_single _ _ _ a Hone Ha E). reflexivity.
    - apply existsb_exists. exists (uid u', perm_write).
      pose proof (set_permission_find (uid u') perm_write (Folder.access folder)) as H.
      apply find_some in H as [H _]. split; [exact H|]. cbn. now rewrite Nat.eqb_refl.
    - apply existsb_exists. exists (uid u', perm_admin).
      pose proof (set_permission_find (uid u') perm_admin (Folder.access folder)) as H.
      apply find_some in H as [H _]. split; [exact H|]. cbn. now rewrite Nat.eqb_refl. }
  split.
  - intros ->. cbn in Hp. injection Hp as <-.
    now apply (upload_files_refused dep u' id g).
  - intros Hne.
    apply (upload_files_admitted dep u' id g); [exact Hfind|].
    rewrite Hcw. destruct p; [|reflexivity|reflexivity].
    exfalso. apply Hne. unfold parse_permission in Hp.
    destruct (String.eqb permission "read") eqn:E; [now apply String.eqb_eq|].
    destruct (String.eqb permission "write"); [discriminate|].
    destruct (String.eqb permission "admin"); discriminate.
Qed.

Lemma revoke_access_cases (u : User) (id : nat) (userId : option nat) (w : World) :
  let r := revoke_access u id userId w in
  (snd r = w /\ forall g, fst r <> Done (Reply 200 g))
  \/ (exists v folder,
        userId = Some v
        /\ role u = admin
        /\ find (fun f => Nat.eqb (Folder._id f) id) (folders w) = Some folder
        /\ r = (Done (Reply 200
                  (Folder_set_access (pull_user v (Folder.access folder)) folder)),
                with_folders
                  (replace_folder
                     (Folder_set_access (pull_user v (Folder.access folder)) folder)
                     (folders w)) w)).
Proof.
  intros r.
  assert (Hr : r = revoke_access u id userId w) by reflexivity.
  clearbody r. unfold revoke_access in Hr.
  destruct (auth [admin] u) eqn:Hauth; cbn [negb] in Hr; [|refused].
  unfold try_catch in Hr.
  destruct userId as [v|]; [|refused].
  unfold bind at 1 in Hr. unfold Folder_findById at 1, gets at 1 in Hr.
  destruct (find _ (folders w)) as [folder|] eqn:Hf; [|refused].
  right. exists v, folder. unfold bind, modify, ret in Hr. cbn in Hr.
  repeat split; try assumption.
  unfold auth in Hauth. cbn in Hauth. destruct (role u); try discriminate; reflexivity.
Qed.

(** X3.  A revoked user is locked out at once.  After a successful request the
    access list holds no entry of the user, however many it held, and the
    entries of the others are as they were; unless the user created the
    folder, opening the folder answers 403, and so does an upload when the
    user is no admin. *)
Theorem revoke_access_locks_out (u u' : User) (id : nat) (w : World) (g : Folder.t) :
  answer (revoke_access u id (Some (uid u'))) w = Done (Reply 200 g) ->
  let w' := after (revoke_access u id (Some (uid u'))) w in
  (forall a, In a (Folder.access g) -> fst a <> uid u')
  /\ (exists folder,
        find (fun f => Nat.eqb (Folder._id f) id) (folders w) = Some folder
        /\ forall a, fst a <> uid u' ->
             (In a (Folder.access g) <-> In a (Folder.access folder)))
  /\ (Folder.createdBy g <> uid u' ->
      view_folder u' id w' = (Done (Fail 403 "Access denied"), w')
      /\ (role u' <> admin ->
          forall versionFormat dateStr now file rest,
            upload_files dep u' id versionFormat dateStr now (file :: rest) w'
            = (Done (Fail 403 "Write access required"), w'))).
Proof.
  intros Hans w'.
  destruct (revoke_access_cases u id (Some (uid u')) w)
    as [(_ & Hno) | (v & folder & Hv & _ & Hf & Hr)].
  { exfalso. exact (Hno g Hans). }
  injection Hv as <-.
  unfold answer in Hans. subst w'. unfold after. rewrite Hr in *.
  cbn [fst snd] in *. injection Hans as Hg.
  pose proof (find_id_eq _ _ _ Hf) as Hid.
  assert (Hgid : Folder._id g = id) by (rewrite <- Hg; exact Hid).
  assert (Hacc : Folder.access g = pull_user (uid u') (Folder.access folder))
    by (rewrite <- Hg; reflexivity).
  assert (Hnone : forall a, In a (Folder.access g) -> fst a <> uid u').
  { intros a Ha. rewrite Hacc in Ha. unfold pull_user in Ha.
    apply filter_In in Ha as [_ Ha]. apply negb_true_iff in Ha.
    now apply Nat.eqb_neq. }
  rewrite Hg.
  split; [exact Hnone|]. split.
  { exists folder. split; [exact Hf|]. intros a Ha. rewrite Hacc. unfold pull_user.
    rewrite filter_In. apply Nat.eqb_neq in Ha. rewrite Ha. cbn. tauto. }
  intros Hcreator.
  assert (Hfind : find (fun f => Nat.eqb (Folder._id f) id)
                       (replace_folder g (folders w)) = Some g).
  { rewrite <- Hgid in Hf |- *. exact (find_replace_folder_id g folder _ Hf). }
  assert (Hex : existsb (fun a => Nat.eqb (fst a) (uid u')) (Folder.access g) = false).
  { apply existsb_false_iff. intros a Ha. apply Nat.eqb_neq. now apply Hnone. }
  split.
  - unfold view_folder, try_catch. unfold bind at 1.
    unfold Folder_findById at 1, gets at 1. cbn [folders with_folders].
    rewrite Hfind. unfold bind at 1.
    unfold validateFolderAccess, Folder_findOne, gets. cbn [folders with_folders].
    rewrite <- Hgid in Hf |- *.
    rewrite (find_replace_folder_and g folder (folders w)
               (fun f => Nat.eqb (Folder.createdBy f) (uid u')
                         || existsb (fun a => Nat.eqb (fst a) (uid u')) (Folder.access f))
               Hf).
    rewrite Hex. apply Nat.eqb_neq in Hcreator. rewrite Hcreator. reflexivity.
  - intros Hrole versionFormat dateStr now file rest.
    apply (upload_files_refused dep u' id g); [exact Hfind|].
    unfold can_write.
    replace (role_eqb (role u') admin) with false
      by (destruct (role u'); [contradiction|reflexivity|reflexivity]).
    apply Nat.eqb_neq in Hcreator. rewrite Hcreator. cbn [orb].
    apply existsb_false_iff. intros a Ha.
    apply Hnone in Ha. apply Nat.eqb_neq in Ha. now rewrite Ha.
Qed.

End AccessAndUpload.

(** ** Who sees what in a folder *)

Section FolderView.

(** X4.  The role gives no exemption when a folder is opened: a user, of
    whichever role, who neither created the folder nor has an entry in its
    access list is answered 403, and nothing changes. *)
Theorem view_folder_needs_entry (u : User) (id : nat) (folder : Folder.t) (w : World) :
  find (fun f => Nat.eqb (Folder._id f) id) (folders w) = Some folder ->
  NoDup (map Folder._id (folders w)) ->
  Folder.createdBy folder <> uid u ->
  (forall a, In a (Folder.access folder) -> fst a <> uid u) ->
  view_folder u id w = (Done (Fail 403 "Access denied"), w).
Proof.
  intros Hf Hnd Hcreator Hnone.
  unfold view_folder, try_catch. unfold bind at 1.
  unfold Folder_findById at 1, gets at 1. rewrite Hf. unfold bind at 1.
  unfold validateFolderAccess, Folder_findOne, gets.
  rewrite (find_and_none_first _ _ _ folder Hf).
  - reflexivity.
  - intros y Hy Hp. apply find_some in Hf as [Hin Hid].
    apply (NoDup_folder_ids_unique (folders w)); try assumption.
    apply Nat.eqb_eq in Hp, Hid. congruence.
  - apply Nat.eqb_neq in Hcreator. rewrite Hcreator. cbn [orb].
    apply existsb_false_iff. intros a Ha. apply Nat.eqb_neq. now apply Hnone.
Qed.

Lemma status_eqb_eq (a b : ApprovalStatus) : status_eqb a b = true <-> a = b.
Proof. destruct a, b; cbn; split; congruence. Qed.

(** X5.  What the folder view shows to a plain user: exactly the stored files of
    the folder that are not deleted and are approved or were uploaded by the
    user, so never a pending or disapproved upload of somebody else; the
    count is the number of files shown, and the request changes nothing. *)
Theorem view_folder_files_for_user (u : User) (id : nat) (w : World) (v : FolderView) :
  role u = user ->
  answer (view_folder u id) w = Done (Reply 200 v) ->
  (forall f, In f (fv_files v)
             <-> In f (files w)
                 /\ File.folder f = id
                 /\ File.isDeleted f = false
                 /\ (File.approvalStatus f = approved \/ File.uploadedBy f = uid u))
  /\ fv_fileCount v = List.length (fv_files v)
  /\ after (view_folder u id) w = w.
Proof.
  intros Hrole. unfold answer, after.
  remember (view_folder u id w) as r eqn:Hr.
  unfold view_folder, try_catch in Hr.
  unfold bind at 1 in Hr. unfold Folder_findById at 1, gets at 1 in Hr.
  destruct (find _ (folders w)) as [folder|] eqn:Hf; [|subst r; discriminate].
  pose proof (find_id_eq _ _ _ Hf) as Hid.
  unfold bind at 1 in Hr.
  destruct (validateFolderAccess id (uid u) w) as [[[granted|]|e|] w0] eqn:Hv;
    try (subst r; discriminate).
  assert (Hw0 : w0 = w).
  { unfold validateFolderAccess, Folder_findOne, gets in Hv. now injection Hv. }
  subst w0. unfold bind, File_find, Folder_find, gets, ret in Hr. subst r.
  cbn [fst snd].
  intros H. injection H as <-. cbn [fv_files fv_fileCount].
  split; [|split; [now rewrite length_rev | reflexivity]].
  intros f. rewrite <- in_rev, filter_In. unfold visible_in_folder, not_deleted.
  rewrite Hrole, Hid, !andb_true_iff, Nat.eqb_eq, negb_true_iff, orb_true_iff,
    andb_true_iff, status_eqb_eq, Nat.eqb_eq.
  destruct (File.approvalStatus f); cbn; intuition congruence.
Qed.

End FolderView.

Section FolderViewAndUpload.

Variable dep : Deployment.

(** X6.  The upload flag of the folder view is not the test of the upload
    handler: a sub-admin whose only entry in the access list is [read], and
    who did not create the folder, is shown [canUpload = true], and the
    upload is refused with 403. *)
Theorem canUpload_flag_overstates (u : User) (id : nat) (folder : Folder.t) (w : World) :
  role u = sub_admin ->
  find (fun f => Nat.eqb (Folder._id f) id) (folders w) = Some folder ->
  Folder.createdBy folder <> uid u ->
  In (uid u, perm_read) (Folder.access folder) ->
  (forall a, In a (Folder.access folder) -> fst a = uid u -> snd a = perm_read) ->
  (exists v, view_folder u id w = (Done (Reply 200 v), w) /\ fv_canUpload v = true)
  /\ forall versionFormat dateStr now file rest,
       upload_files dep u id versionFormat dateStr now (file :: rest) w
       = (Done (Fail 403 "Write access required"), w).
Proof.
  intros Hrole Hf Hcreator Hentry Hread. split.
  - unfold view_folder, try_catch. unfold bind at 1.
    unfold Folder_findById at 1, gets at 1. rewrite Hf. unfold bind at 1.
    unfold validateFolderAccess, Folder_findOne, gets.
    rewrite (find_and_first _ _ _ folder Hf).
    + unfold bind, File_find, Folder_find, gets, ret. eexists. split; [reflexivity|].
      cbn [fv_canUpload]. rewrite Hrole. reflexivity.
    + apply orb_true_iff. right. apply existsb_exists.
      exists (uid u, perm_read). split; [exact Hentry | apply Nat.eqb_refl].
  - intros versionFormat dateStr now file rest.
    apply (upload_files_refused dep u id folder); [exact Hf|].
    unfold can_write. rewrite Hrole. cbn [role_eqb orb].
    apply Nat.eqb_neq in Hcreator. rewrite Hcreator. cbn [orb].
    apply existsb_false_iff. intros a Ha.
    destruct (Nat.eqb (fst a) (uid u)) eqn:E; [|reflexivity].
    apply Nat.eqb_eq in E. now rewrite (Hread a Ha E).
Qed.

End FolderViewAndUpload.

(** ** Reviews *)

Section Review.

Variable env : Platform.

(** What a review request does: nothing, or one write of the approval
    fields of the addressed document. *)
Lemma review_file_cases (u : User) (fileId : option nat) (status : string)
      (reason : option string) (now : nat) (w : World) :
  let r := review_file env u fileId status reason now w in
  (snd r = w /\ forall g, fst r <> Done (Reply 200 g))
  \/ (exists id f g,
        fileId = Some id
        /\ find (fun x => Nat.eqb (File._id x) id) (files w) = Some f
        /\ (role u = admin \/ role u = sub_admin)
        /\ ((status = "approved"
             /\ g = File_set_approval approved (Some (uid u)) (Some now) f)
            \/ (status = "disapproved"
                /\ (exists text, reason = Some text /\ trim text <> "")
                /\ g = File_set_approval disapproved
                         (if update_writes_undefined env then None
                          else File.approvedBy f)
                         (if update_writes_undefined env then None
                          else File.approvedAt f) f))
        /\ r = (Done (Reply 200 (Some g)),
                with_files (replace_file id g (files w)) w)).
Proof.
  intros r.
  assert (Hr : r = review_file env u fileId status reason now w) by reflexivity.
  clearbody r. unfold review_file in Hr.
  destruct (auth [admin; sub_admin] u) eqn:Hauth; cbn [negb] in Hr; [|refused].
  assert (Hrole : role u = admin \/ role u = sub_admin).
  { unfold auth in Hauth. cbn in Hauth. destruct (role u); auto; discriminate. }
  unfold try_catch in Hr.
  destruct fileId as [id|]; [|refused].
  destruct (String.eqb status "approved") eqn:Ea.
  - apply String.eqb_eq in Ea. subst status.
    change (String.eqb "approved" "approved") with true in Hr.
    change (String.eqb "approved" "disapproved") with false in Hr.
    cbn [orb negb andb] in Hr.
    unfold bind at 1 in Hr. unfold File_findById at 1, gets at 1 in Hr.
    destruct (find _ (files w)) as [f|] eqn:Hf; [|refused].
    unfold bind at 1 in Hr. unfold File_findByIdAndUpdate_approval in Hr.
    unfold bind at 1 in Hr. unfold File_findById at 1, gets at 1 in Hr.
    rewrite Hf in Hr. unfold bind, modify, ret in Hr. cbn in Hr.
    right. exists id, f. eexists. repeat split; try eassumption.
    left. split; reflexivity.
  - cbn [orb] in Hr.
    destruct (String.eqb status "disapproved") eqn:Ed; cbn [negb] in Hr; [|refused].
    apply String.eqb_eq in Ed. subst status. cbn [andb] in Hr.
    destruct reason as [text|]; [|refused].
    destruct (String.eqb (trim text) "") eqn:Et; [refused|].
    apply String.eqb_neq in Et.
    unfold bind at 1 in Hr. unfold File_findById at 1, gets at 1 in Hr.
    destruct (find _ (files w)) as [f|] eqn:Hf; [|refused].
    unfold bind at 1 in Hr.
    change (String.eqb "disapproved" "approved") with false in Hr. cbn iota in Hr.
    unfold File_findByIdAndUpdate_approval in Hr.
    unfold bind at 1 in Hr. unfold File_findById at 1, gets at 1 in Hr.
    rewrite Hf in Hr. unfold bind, modify, ret in Hr. cbn [fst snd] in Hr.
    right. exists id, f. eexists. repeat split; try eassumption.
    right. split; [reflexivity|]. split; [eauto|].
    destruct (update_writes_undefined env); reflexivity.
Qed.

End Review.

(** ** The version store under the routes that keep every version *)

Lemma filter_map_length {A} (p : A -> bool) (h : A -> A) (l : list A) :
  (forall x, In x l -> p (h x) = p x) ->
  List.length (filter p (map h l)) = List.length (filter p l).
Proof.
  induction l as [|a l IH]; cbn; intros H; [reflexivity|].
  rewrite (H a (or_introl eq_refl)).
  destruct (p a); cbn; rewrite IH; auto.
Qed.

(** Rewriting stored documents in place, without touching what places
    them in a lineage, keeps the collection well formed. *)
Lemma files_ok_map (w w' : World) (h : File.t -> File.t) :
  files_ok w ->
  files w' = map h (files w) ->
  next_id w <= next_id w' ->
  (forall f, In f (files w) ->
     same_place (h f) f /\ File.isCurrentVersion (h f) = File.isCurrentVersion f) ->
  files_ok w'.
Proof.
  intros [Hcur Hlinks Hlive Hfresh Hids] Hfiles Hnext Hh.
  assert (Hlin : forall fid name f, In f (files w) ->
            in_lineage fid name (h f) = in_lineage fid name f).
  { intros fid name f Hf. apply in_lineage_same_place. now apply Hh. }
  constructor; rewrite Hfiles.
  - intros fid name (g & Hg & Hgl).
    rewrite filter_map_length.
    + apply Hcur. apply in_map_iff in Hg as (f & <- & Hf).
      exists f. split; [exact Hf|]. now rewrite <- Hlin.
    + intros x Hx. unfold is_current_in. rewrite (Hlin _ _ _ Hx).
      now rewrite (proj2 (Hh x Hx)).
  - intros x o Hx Ho. apply in_map_iff in Hx as (f & <- & Hf).
    destruct (Hh f Hf) as ((_ & Hfo & Hna & _ & Hor) & _). rewrite Hor in Ho.
    destruct (Hlinks f o Hf Ho) as (r0 & Hr0 & Hrid & Hrfo & Hrna).
    exists (h r0). destruct (Hh r0 Hr0) as ((Hi1 & Hf1 & Hn1 & _) & _).
    split; [now apply in_map|]. repeat split; congruence.
  - intros x Hx. apply in_map_iff in Hx as (f & <- & Hf).
    destruct (Hh f Hf) as ((_ & _ & _ & Hde & _) & _). rewrite Hde. now apply Hlive.
  - intros x Hx. apply in_map_iff in Hx as (f & <- & Hf).
    destruct (Hh f Hf) as ((Hi & _) & _). rewrite Hi. specialize (Hfresh f Hf). lia.
  - rewrite map_map. rewrite (map_ext_in (fun f => File._id (h f)) File._id);
      [exact Hids|]. intros f Hf. apply (Hh f Hf).
Qed.

Lemma current_without_folder (fid id : nat) (name : string) (l : list File.t) :
  Nat.eqb fid id = false ->
  filter (is_current_in fid name)
         (filter (fun f => negb (Nat.eqb (File.folder f) id)) l)
  = filter (is_current_in fid name) l.
Proof.
  intros Hne. induction l as [|a l IH]; cbn; [reflexivity|].
  destruct (Nat.eqb (File.folder a) id) eqn:E; cbn.
  - assert (Hc : is_current_in fid name a = false).
    { unfold is_current_in, in_lineage. apply Nat.eqb_eq in E.
      destruct (Nat.eqb (File.folder a) fid) eqn:E'; [|reflexivity].
      apply Nat.eqb_eq in E'. rewrite <- E', E, Nat.eqb_refl in Hne. discriminate. }
    rewrite Hc. exact IH.
  - destruct (is_current_in fid name a); cbn; now rewrite IH.
Qed.

(** Removing the documents of one folder keeps it well formed. *)
Lemma files_ok_without_folder (w w' : World) (id : nat) :
  files_ok w ->
  files w' = filter (fun f => negb (Nat.eqb (File.folder f) id)) (files w) ->
  next_id w <= next_id w' ->
  files_ok w'.
Proof.
  intros [Hcur Hlinks Hlive Hfresh Hids] Hfiles Hnext.
  constructor; rewrite Hfiles.
  - intros fid name (g & Hg & Hgl).
    apply filter_In in Hg as [Hg Hgf].
    apply in_lineage_true in Hgl as Hgl'. destruct Hgl' as (Hfo & _ & _).
    assert (Hne : Nat.eqb fid id = false) by (rewrite <- Hfo; now apply negb_true_iff).
    rewrite <- (Hcur fid name) by eauto.
    f_equal. apply (current_without_folder fid id name _ Hne).
  - intros f x Hf Hx. apply filter_In in Hf as [Hf Hff].
    destruct (Hlinks f x Hf Hx) as (r0 & Hr0 & Hrid & Hrfo & Hrna).
    exists r0. split; [|auto]. apply filter_In. split; [exact Hr0 | now rewrite Hrfo].
  - intros f Hf. apply filter_In in Hf as [Hf _]. now apply Hlive.
  - intros f Hf. apply filter_In in Hf as [Hf _]. specialize (Hfresh f Hf). lia.
  - clear - Hids. induction (files w) as [|a l IH]; cbn; [constructor|].
    cbn in Hids. apply NoDup_cons_iff in Hids as [Hn Hids].
    destruct (negb (Nat.eqb (File.folder a) id)); cbn; [|now apply IH].
    constructor; [|now apply IH].
    intros Hin. apply Hn. apply in_map_iff in Hin as (x & Hx & Hxin).
    apply filter_In in Hxin as [Hxin _]. apply in_map_iff. eauto.
Qed.

Lemma links_to_roots_step (w w' : World) (h : File.t -> File.t) (doc : File.t) :
  links_to_roots w ->
  files w' = map h (files w ++ [doc])%list ->
  (forall f, same_place (h f) f) ->
  (forall x, File.originalFile doc = Some x ->
     exists r0, In r0 (files w) /\ File._id r0 = x /\ File.originalFile r0 = None) ->
  links_to_roots w'.
Proof.
  intros Hw Hfiles Hh Hdoc f x Hf Hx. rewrite Hfiles in *.
  apply in_map_iff in Hf as (f0 & <- & Hf0).
  destruct (Hh f0) as (_ & _ & _ & _ & Hor). rewrite Hor in Hx.
  assert (Hroot : exists r0, In r0 (files w) /\ File._id r0 = x
                             /\ File.originalFile r0 = None).
  { apply in_app_or in Hf0 as [Hf0 | [<- | []]]; [now apply (Hw f0) | now apply Hdoc]. }
  destruct Hroot as (r0 & Hr0 & Hrid & Hror).
  exists (h r0). destruct (Hh r0) as (Hi & _ & _ & _ & Ho).
  split; [apply in_map, in_or_app; now left|]. split; congruence.
Qed.

Lemma links_to_roots_same_files (w w' : World) :
  links_to_roots w -> files w' = files w -> links_to_roots w'.
Proof. intros H E f x. rewrite E. apply H. Qed.

Lemma links_to_roots_map (w w' : World) (h : File.t -> File.t) :
  links_to_roots w ->
  files w' = map h (files w) ->
  (forall f, In f (files w) -> same_place (h f) f) ->
  links_to_roots w'.
Proof.
  intros Hw Hfiles Hh f x Hf Hx. rewrite Hfiles in *.
  apply in_map_iff in Hf as (f0 & <- & Hf0).
  destruct (Hh f0 Hf0) as (_ & _ & _ & _ & Hor). rewrite Hor in Hx.
  destruct (Hw f0 x Hf0 Hx) as (r0 & Hr0 & Hrid & Hror).
  exists (h r0). destruct (Hh r0 Hr0) as (Hi & _ & _ & _ & Ho).
  split; [now apply in_map|]. split; congruence.
Qed.


Section KeptVersions.

Variable dep : Deployment.
Variable env : Platform.

Lemma upload_item_links_to_roots (u : User) (folder : Folder.t)
      (versionFormat : option string) (dateStr : string) (now : nat)
      (file : Upload) :
  preserves links_to_roots (upload_item dep u folder versionFormat dateStr now file).
Proof.
  intros w Hw.
  destruct (upload_item_cases dep u folder versionFormat dateStr now file w)
    as [(Hf & _)
       | (doc & _ & _ & _ & _ & _ & _ & Hor & _ & _ & _ & _ & _ & Hcase)].
  - now apply (links_to_roots_same_files w).
  - assert (Hroot : forall x, File.originalFile doc = Some x ->
              exists r0, In r0 (files w) /\ File._id r0 = x
                         /\ File.originalFile r0 = None).
    { intros x Hx. rewrite Hor in Hx.
      destruct (sort_version_desc
                  (filter (in_lineage (Folder._id folder) (originalname file)) (files w)))
        as [|v ev'] eqn:Eev; [discriminate|].
      assert (Hv : In v (files w)).
      { assert (H : In v (sort_version_desc
                            (filter (in_lineage (Folder._id folder) (originalname file))
                                    (files w)))) by (rewrite Eev; now left).
        apply sort_version_desc_In, filter_In in H. tauto. }
      injection Hx as <-. unfold lineage_root.
      destruct (File.originalFile v) as [o|] eqn:Eo.
      - now apply (Hw v).
      - exists v. auto. }
    destruct Hcase as [(_ & _ & Hfiles) | (_ & _ & Hfiles)].
    + apply (links_to_roots_step w _ (fun f => f) doc Hw); auto.
      * now rewrite map_id.
      * intros f. repeat split.
    + eapply (links_to_roots_step w _ _ doc Hw); [exact Hfiles| |exact Hroot].
      intros f. apply commit_upload_same_place.
Qed.

Lemma upload_files_preserves (I : World -> Prop) (u : User) (folderId : nat)
      (versionFormat : option string) (dateStr : string) (now : nat)
      (uploadedFiles : list Upload) :
  (forall folder file,
     preserves I (upload_item dep u folder versionFormat dateStr now file)) ->
  preserves I (upload_files dep u folderId versionFormat dateStr now uploadedFiles).
Proof.
  intros Hitem.
  assert (Hloop : forall folder l,
    preserves I (upload_loop dep u folder versionFormat dateStr now l)).
  { intros folder l. induction l as [|file rest IH]; simpl.
    - apply preserves_ret.
    - apply preserves_bind; [apply Hitem|]. intros r.
      apply preserves_bind; [exact IH|]. intros saved. apply preserves_ret. }
  unfold upload_files. apply preserves_try_catch.
  destruct uploadedFiles as [|file rest]; [apply preserves_ret|].
  apply preserves_bind; [apply preserves_gets|].
  intros [folder|]; [|apply preserves_ret].
  match goal with |- preserves _ (if ?c then _ else _) => destruct c end;
    [apply preserves_ret|].
  apply preserves_bind; [apply Hloop|].
  intros [|e l]; apply preserves_ret.
Qed.

Lemma restore_file_links_to_roots (u : User) (id : nat) :
  preserves links_to_roots (restore_file dep u id).
Proof.
  intros w Hw.
  destruct (restore_file_cases dep u id w)
    as [(Hf & _)
       | (v & cur & doc & Hv & _ & _ & _ & _ & _ & Hor & _ & _ & _ & _ & _ & Hfiles
          & _)].
  - now apply (links_to_roots_same_files w).
  - eapply (links_to_roots_step w _ _ doc Hw); [exact Hfiles| |].
    + intros f. apply restore_demote_same_place.
    + intros x Hx. rewrite Hor in Hx. apply find_some in Hv as [Hv _].
      now apply (Hw v).
Qed.

Lemma review_file_store_ok (u : User) (fileId : option nat) (status : string)
      (reason : option string) (now : nat) :
  preserves store_ok (review_file env u fileId status reason now).
Proof.
  intros w [Hok Hlinks].
  destruct (review_file_cases env u fileId status reason now w)
    as [(Hw & _) | (id & f & g & _ & Hf & _ & Hg & Hr)].
  - now rewrite Hw.
  - rewrite Hr. cbn [snd].
    assert (Hh : forall x, In x (files w) ->
              same_place ((fun x => if Nat.eqb (File._id x) id then g else x) x) x
              /\ File.isCurrentVersion
                   ((fun x => if Nat.eqb (File._id x) id then g else x) x)
                 = File.isCurrentVersion x).
    { intros x Hx. cbv beta. destruct (Nat.eqb (File._id x) id) eqn:E; [|repeat split].
      apply Nat.eqb_eq in E. apply find_some in Hf as [Hfin Hfid].
      apply Nat.eqb_eq in Hfid.
      assert (x = f)
        by (apply (NoDup_ids_unique (files w)); try assumption;
            [apply (ok_ids w Hok) | congruence]).
      subst x. destruct Hg as [(_ & ->) | (_ & _ & ->)]; repeat split. }
    split.
    + apply (files_ok_map w _ (fun x => if Nat.eqb (File._id x) id then g else x) Hok);
        [reflexivity | cbn; lia | exact Hh].
    + apply (links_to_roots_map w _ (fun x => if Nat.eqb (File._id x) id then g else x)
               Hlinks); [reflexivity|].
      intros x Hx. apply (Hh x Hx).
Qed.

Lemma delete_folder_cases (u : User) (id : nat) (w : World) :
  let r := delete_folder u id w in
  (snd r = w /\ fst r <> Done (Reply 200 tt))
  \/ (exists folder,
        role u = admin
        /\ find (fun f => Nat.eqb (Folder._id f) id) (folders w) = Some folder
        /\ Folder.isSystemFolder folder = false
        /\ r = (Done (Reply 200 tt),
                with_files
                  (filter (fun f => negb (Nat.eqb (File.folder f) id)) (files w))
                  (with_folders
                     (filter (fun f => negb (Nat.eqb (Folder._id f) id)) (folders w))
                     w))).
Proof.
  intros r.
  assert (Hr : r = delete_folder u id w) by reflexivity.
  clearbody r. unfold delete_folder in Hr.
  destruct (auth [admin] u) eqn:Hauth; cbn [negb] in Hr;
    [|left; subst r; split; [reflexivity | discriminate]].
  unfold try_catch in Hr.
  unfold bind at 1 in Hr. unfold Folder_findById at 1, gets at 1 in Hr.
  destruct (find _ (folders w)) as [folder|] eqn:Hf;
    [|left; subst r; split; [reflexivity | discriminate]].
  destruct (Folder.isSystemFolder folder) eqn:Hs;
    [left; subst r; split; [reflexivity | discriminate]|].
  right. exists folder. unfold bind, modify, ret in Hr. cbn in Hr.
  rewrite (find_id_eq _ _ _ Hf) in Hr.
  repeat split; try assumption.
  unfold auth in Hauth. cbn in Hauth. destruct (role u); try discriminate; reflexivity.
Qed.

Lemma delete_folder_store_ok (u : User) (id : nat) :
  preserves store_ok (delete_folder u id).
Proof.
  intros w [Hok Hlinks].
  destruct (delete_folder_cases u id w) as [(Hw & _) | (folder & _ & _ & _ & Hr)].
  - now rewrite Hw.
  - rewrite Hr. cbn [snd]. split.
    + apply (files_ok_without_folder w _ id Hok); [reflexivity | cbn; lia].
    + intros f x Hf Hx. cbn [files with_files] in *.
      apply filter_In in Hf as [Hf Hff].
      destruct (Hlinks f x Hf Hx) as (r0 & Hr0 & Hrid & Hror).
      destruct (ok_links w Hok f x Hf Hx) as (r1 & Hr1 & Hrid1 & Hrfo1 & _).
      assert (r0 = r1)
        by (apply (NoDup_ids_unique (files w)); try assumption;
            [apply (ok_ids w Hok) | congruence]).
      subst r1. exists r0. split; [|auto].
      apply filter_In. split; [exact Hr0 | now rewrite Hrfo1].
Qed.

Lemma store_ok_same_files (w w' : World) :
  store_ok w -> files w' = files w -> next_id w <= next_id w' -> store_ok w'.
Proof.
  intros [Hok Hlinks] Hf Hn. split.
  - now apply (files_ok_next_id w).
  - now apply (links_to_roots_same_files w).
Qed.

Lemma reachable_kept_store_ok (w : World) :
  reachable_kept dep env w -> store_ok w.
Proof.
  induction 1 as [w H | w u folderId versionFormat dateStr now ups _ IH
                  | w u id _ IH | w u fileId status reason now _ IH
                  | w u id _ IH | w u id email permission _ IH
                  | w u id userId _ IH].
  - split; [now apply files_ok_start|]. intros f x. rewrite H. intros [].
  - destruct IH as [Hok Hlinks]. split.
    + exact (upload_files_files_ok dep u folderId versionFormat dateStr now ups w Hok).
    + apply (upload_files_preserves links_to_roots); [|exact Hlinks].
      intros folder file. apply upload_item_links_to_roots.
  - destruct IH as [Hok Hlinks]. split.
    + exact (restore_file_files_ok dep u id w Hok).
    + exact (restore_file_links_to_roots u id w Hlinks).
  - now apply review_file_store_ok.
  - now apply delete_folder_store_ok.
  - destruct (grant_access_cases env u id email permission w)
      as [(Hw & _) | (userId & p & folder & _ & _ & _ & _ & Hr)];
      unfold after; [now rewrite Hw|].
    rewrite Hr. now apply (store_ok_same_files w).
  - destruct (revoke_access_cases u id userId w)
      as [(Hw & _) | (v & folder & _ & _ & _ & Hr)];
      unfold after; [now rewrite Hw|].
    rewrite Hr. now apply (store_ok_same_files w).
Qed.

(** X8.  Reviews, folder deletions and changes of access keep what uploads and
    restores establish: in every world that these five kinds of request
    reach from an empty file collection, each lineage that has a member has
    exactly one current version. *)
Theorem one_current_version_under_reviews_and_folder_deletions
        (w : World) (fid : nat) (name : string) :
  reachable_kept dep env w ->
  (exists f, In f (files w) /\ in_lineage fid name f = true) ->
  exists cur,
    filter (fun f => in_lineage fid name f && File.isCurrentVersion f) (files w)
    = [cur].
Proof.
  intros Hreach Hmember.
  destruct (reachable_kept_store_ok w Hreach) as [Hok _].
  pose proof (ok_current w Hok fid name Hmember) as H.
  unfold is_current_in in H.
  destruct (filter _ (files w)) as [|cur [|x r]]; try discriminate.
  now exists cur.
Qed.

End KeptVersions.

(** ** The versions of a file *)

Lemma insert_asc_In (f x : File.t) (l : list File.t) :
  In x (insert_asc f l) <-> x = f \/ In x l.
Proof.
  induction l as [|g r IH]; simpl.
  - intuition.
  - destruct (Nat.leb (File.version f) (File.version g)); simpl.
    + intuition.
    + rewrite IH. intuition.
Qed.

Lemma sort_version_asc_In (x : File.t) (l : list File.t) :
  In x (sort_version_asc l) <-> In x l.
Proof.
  induction l as [|f r IH]; simpl; [tauto|].
  rewrite insert_asc_In, IH. intuition.
Qed.

Lemma insert_asc_sorted (f : File.t) (l : list File.t) :
  StronglySorted (fun a b => File.version a <= File.version b) l ->
  StronglySorted (fun a b => File.version a <= File.version b) (insert_asc f l).
Proof.
  induction 1 as [|g r Hs IH Hall]; simpl.
  - repeat constructor.
  - destruct (Nat.leb (File.version f) (File.version g)) eqn:E.
    + apply Nat.leb_le in E. constructor; [now constructor|].
      constructor; [exact E|].
      rewrite Forall_forall in *. intros x Hx. specialize (Hall x Hx). lia.
    + apply Nat.leb_gt in E. constructor; [exact IH|].
      rewrite Forall_forall in *. intros x Hx.
      apply insert_asc_In in Hx as [->|Hx]; [lia | now apply Hall].
Qed.

Lemma sort_version_asc_sorted (l : list File.t) :
  StronglySorted (fun a b => File.version a <= File.version b) (sort_version_asc l).
Proof.
  induction l as [|f r IH]; simpl; [constructor | now apply insert_asc_sorted].
Qed.

Lemma findVersions_eq (id : nat) (w : World) :
  findVersions id w
  = (Done (match find (fun f => Nat.eqb (File._id f) id) (files w) with
           | Some f =>
               Some (sort_version_asc (filter (version_of (lineage_root f)) (files w)))
           | None => None
           end), w).
Proof.
  unfold findVersions, bind, File_findById, File_find, gets, ret.
  destruct (find _ (files w)); reflexivity.
Qed.

Lemma version_of_self (f : File.t) : version_of (lineage_root f) f = true.
Proof.
  unfold version_of, lineage_root.
  destruct (File.originalFile f) as [o|]; cbn.
  - rewrite Nat.eqb_refl. apply orb_true_r.
  - now rewrite Nat.eqb_refl.
Qed.

Lemma option_nat_eqb_eq (a b : option nat) : option_nat_eqb a b = true <-> a = b.
Proof.
  destruct a, b; cbn; try (split; congruence).
  rewrite Nat.eqb_eq. split; congruence.
Qed.

(** X9.  [findVersions] of a stored file returns, oldest version first, the
    stored documents whose id or whose [originalFile] is the root of the
    file, and nothing else; the file itself is always among them, so the
    versions route never answers 404 for a stored id; and the call changes
    nothing. *)
Theorem findVersions_lists_the_lineage (u : User) (id : nat) (w : World) (f : File.t) :
  find (fun x => Nat.eqb (File._id x) id) (files w) = Some f ->
  exists l,
    findVersions id w = (Done (Some l), w)
    /\ In f l
    /\ StronglySorted (fun a b => File.version a <= File.version b) l
    /\ (forall g, In g l
                  <-> In g (files w)
                      /\ (File._id g = lineage_root f
                          \/ File.originalFile g = Some (lineage_root f)))
    /\ answer (get_versions u id) w
       <> Done (Fail 404 "File not found or no versions available").
Proof.
  intros Hf. rewrite findVersions_eq, Hf. eexists. split; [reflexivity|].
  assert (Hin : In f (sort_version_asc
                        (filter (version_of (lineage_root f)) (files w)))).
  { apply sort_version_asc_In, filter_In. split; [|apply version_of_self].
    now apply find_some in Hf. }
  split; [exact Hin|]. split; [apply sort_version_asc_sorted|]. split.
  - intros g. rewrite sort_version_asc_In, filter_In. unfold version_of.
    rewrite orb_true_iff, Nat.eqb_eq, option_nat_eqb_eq. tauto.
  - unfold answer, get_versions, try_catch. unfold bind at 1.
    rewrite findVersions_eq, Hf.
    destruct (sort_version_asc _) as [|first rest]; [destruct Hin|].
    unfold bind.
    destruct (file_hasAccess u first w) as [[[|]|e|] w0]; cbn; discriminate.
Qed.

Lemma findVersions_lists_the_lineage_witness :
  exists l,
    findVersions 3 three_versions = (Done (Some l), three_versions)
    /\ map File._id l = [2; 3; 4]
    /\ answer (get_versions bob 3) three_versions
       <> Done (Fail 404 "File not found or no versions available").
Proof.
  destruct (findVersions_lists_the_lineage bob 3 three_versions
              (File.mk 3 "report(1).pdf" "report.pdf" "docs/report(1).pdf" 3
                       "application/pdf" ".pdf" 1 100 100 approved (Some 100)
                       (Some 12) 2 false [2] (Some 2) "sha256:BBB" false))
    as (l & Hl & _ & _ & _ & Hno).
  - vm_compute. reflexivity.
  - exists l. split; [exact Hl|]. split; [|exact Hno].
    vm_compute in Hl. injection Hl as <-. vm_compute. reflexivity.
Defined.

Lemma find_by_id_NoDup (l : list File.t) (g : File.t) :
  NoDup (map File._id l) -> In g l ->
  find (fun x => Nat.eqb (File._id x) (File._id g)) l = Some g.
Proof.
  intros Hnd Hg.
  destruct (find (fun x => Nat.eqb (File._id x) (File._id g)) l) as [x|] eqn:E.
  - apply find_some in E as [Hx Hid]. apply Nat.eqb_eq in Hid.
    now rewrite (NoDup_ids_unique l x g Hnd Hx Hg Hid).
  - exfalso. pose proof (find_none _ _ E g Hg) as H. cbn in H.
    now rewrite Nat.eqb_refl in H.
Qed.

Section VersionsOfMembers.

Variable dep : Deployment.
Variable env : Platform.

(** X10.  In every world that uploads, restores, reviews, folder deletions and
    changes of access reach, [findVersions] gives the same list for every
    member of the list it returns. *)
Theorem findVersions_same_for_every_member (w : World) (id : nat)
        (l : list File.t) (g : File.t) :
  reachable_kept dep env w ->
  answer (findVersions id) w = Done (Some l) ->
  In g l ->
  answer (findVersions (File._id g)) w = Done (Some l).
Proof.
  intros Hreach Hl Hg.
  destruct (reachable_kept_store_ok dep env w Hreach) as [Hok Hlinks].
  unfold answer in *. rewrite findVersions_eq in *. cbn [fst] in *.
  destruct (find (fun f => Nat.eqb (File._id f) id) (files w)) as [f|] eqn:Hf;
    [|discriminate].
  injection Hl as <-.
  apply sort_version_asc_In, filter_In in Hg as [Hgin Hgv].
  rewrite (find_by_id_NoDup (files w) g (ok_ids w Hok) Hgin).
  assert (Hroot : lineage_root g = lineage_root f).
  { unfold version_of in Hgv. apply orb_true_iff in Hgv as [Hgv|Hgv].
    - apply Nat.eqb_eq in Hgv.
      assert (Hnone : File.originalFile g = None).
      { apply find_some in Hf as [Hfin _].
        unfold lineage_root in Hgv.
        destruct (File.originalFile f) as [o|] eqn:Eo.
        - destruct (Hlinks f o Hfin Eo) as (r0 & Hr0 & Hrid & Hror).
          assert (g = r0)
            by (apply (NoDup_ids_unique (files w)); try assumption;
                [apply (ok_ids w Hok) | congruence]).
          now subst r0.
        - assert (g = f)
            by (apply (NoDup_ids_unique (files w)); try assumption;
                apply (ok_ids w Hok)).
          now subst g. }
      unfold lineage_root at 1. now rewrite Hnone.
    - apply option_nat_eqb_eq in Hgv. unfold lineage_root at 1. now rewrite Hgv. }
  now rewrite Hroot.
Qed.

End VersionsOfMembers.

Lemma findVersions_same_for_every_member_witness :
  answer (findVersions 4) three_versions = answer (findVersions 2) three_versions.
Proof.
  assert (Hreach : reachable_kept srv office three_versions).
  { unfold three_versions, docs_folder. repeat apply kept_upload.
    apply kept_start. reflexivity. }
  assert (Hl : answer (findVersions 2) three_versions
               = Done (Some (sort_version_asc
                               (filter (version_of 2) (files three_versions)))))
    by (vm_compute; reflexivity).
  rewrite Hl.
  apply (findVersions_same_for_every_member srv office three_versions 2 _
           (File.mk 4 "report(2).pdf" "report.pdf" "docs/report(2).pdf" 3
                    "application/pdf" ".pdf" 1 100 100 approved (Some 100)
                    (Some 13) 3 true [3; 2] (Some 2) "sha256:CCC" false)
           Hreach Hl).
  vm_compute. auto.
Defined.

(** ** A review and the folder view *)

(** The folder view reads the world and leaves it as it is. *)
Lemma view_folder_eq (u : User) (id : nat) (w : World) :
  view_folder u id w
  = (Done
       match find (fun f => Nat.eqb (Folder._id f) id) (folders w) with
       | None => Fail 404 "Folder not found"
       | Some folder =>
           match find (fun f =>
                         Nat.eqb (Folder._id f) id
                         && (Nat.eqb (Folder.createdBy f) (uid u)
                             || existsb (fun a => Nat.eqb (fst a) (uid u))
                                        (Folder.access f)))
                      (folders w) with
           | None => Fail 403 "Access denied"
           | Some granted =>
               Reply 200
                 (mkFolderView folder
                    (rev (filter (visible_in_folder u (Folder._id folder)) (files w)))
                    (filter (fun f => option_nat_eqb (Folder.parentFolder f)
                                                     (Some (Folder._id folder)))
                            (folders w))
                    (List.length
                       (filter (visible_in_folder u (Folder._id folder)) (files w)))
                    (role_eqb (role u) admin
                     || role_eqb (role u) sub_admin
                     || existsb (fun a => permission_eqb (snd a) perm_write)
                                (Folder.access granted))
                    (role_eqb (role u) admin || role_eqb (role u) sub_admin))
           end
       end, w).
Proof.
  unfold view_folder, try_catch, validateFolderAccess, Folder_findById,
    Folder_findOne, File_find, Folder_find, bind, gets, ret.
  destruct (find (fun f => Nat.eqb (Folder._id f) id) (folders w)) as [folder|];
    [|reflexivity].
  destruct (find _ (folders w)) as [granted|]; reflexivity.
Qed.

Lemma view_folder_files (u : User) (id : nat) (w : World) (v : FolderView) :
  answer (view_folder u id) w = Done (Reply 200 v) ->
  fv_files v = rev (filter (visible_in_folder u id) (files w))
  /\ exists granted, validateFolderAccess id (uid u) w = (Done (Some granted), w).
Proof.
  unfold answer. rewrite view_folder_eq. cbn [fst].
  unfold validateFolderAccess, Folder_findOne, gets.
  destruct (find (fun f => Nat.eqb (Folder._id f) id) (folders w)) as [folder|] eqn:Hf;
    [|discriminate].
  pose proof (find_id_eq _ _ _ Hf) as Hid.
  match goal with |- context [find ?p (folders w)] =>
    destruct (find p (folders w)) as [granted|] end; [|discriminate].
  intros H. injection H as <-. cbn [fv_files]. rewrite Hid.
  split; [reflexivity | eauto].
Qed.

Lemma view_folder_of_folders (u : User) (id : nat) (w w' : World) (v : FolderView) :
  folders w' = folders w ->
  answer (view_folder u id) w = Done (Reply 200 v) ->
  exists v', answer (view_folder u id) w' = Done (Reply 200 v')
             /\ fv_files v' = rev (filter (visible_in_folder u id) (files w')).
Proof.
  intros Hfo. unfold answer. rewrite !view_folder_eq. cbn [fst]. rewrite Hfo.
  destruct (find (fun f => Nat.eqb (Folder._id f) id) (folders w)) as [folder|] eqn:Hf;
    [|discriminate].
  pose proof (find_id_eq _ _ _ Hf) as Hid.
  match goal with |- context [find ?p (folders w)] =>
    destruct (find p (folders w)) as [granted|] end; [|discriminate].
  intros _. eexists. split; [reflexivity|]. cbn [fv_files]. now rewrite Hid.
Qed.

Section ReviewAndView.

Variable env : Platform.

(** X7.  An approval is what shows a pending upload to the other users of the
    folder.  A plain user who can open the folder does not see a file that
    somebody else uploaded and that is not approved; once an admin or a
    sub-admin has approved it, the same request shows the file, approved, with
    the approver
    and the time of the review. *)
Theorem approval_makes_visible (approver u : User) (id : nat) (f g : File.t)
        (reason : option string) (now : nat) (w : World) (v : FolderView) :
  role u = user ->
  find (fun x => Nat.eqb (File._id x) id) (files w) = Some f ->
  File.isDeleted f = false ->
  File.approvalStatus f <> approved ->
  File.uploadedBy f <> uid u ->
  answer (view_folder u (File.folder f)) w = Done (Reply 200 v) ->
  answer (review_file env approver (Some id) "approved" reason now) w
  = Done (Reply 200 (Some g)) ->
  ~ In f (fv_files v)
  /\ exists v',
       answer (view_folder u (File.folder f))
              (after (review_file env approver (Some id) "approved" reason now) w)
       = Done (Reply 200 v')
       /\ In g (fv_files v')
       /\ File.approvalStatus g = approved
       /\ File.approvedBy g = Some (uid approver)
       /\ File.approvedAt g = Some now.
Proof.
  intros Hrole Hf Hlive Hpending Hother Hview Hrev.
  destruct (view_folder_files u _ w v Hview) as [Hfiles _].
  split.
  - rewrite Hfiles, <- in_rev, filter_In. intros [_ Hvis].
    unfold visible_in_folder in Hvis. rewrite Hrole in Hvis.
    apply andb_prop in Hvis as [_ Hvis]. apply orb_prop in Hvis as [Hvis|Hvis].
    + apply status_eqb_eq in Hvis. contradiction.
    + apply andb_prop in Hvis as [Hvis _]. apply Nat.eqb_eq in Hvis. contradiction.
  - destruct (review_file_cases env approver (Some id) "approved" reason now w)
      as [(_ & Hno) | (id' & f' & g' & Hid & Hf' & _ & Hg & Hr)].
    { exfalso. exact (Hno _ Hrev). }
    injection Hid as <-. rewrite Hf in Hf'. injection Hf' as <-.
    unfold answer in Hrev. unfold after. rewrite Hr in *. cbn [fst snd] in *.
    injection Hrev as ->.
    destruct Hg as [(_ & Hg) | (Hbad & _)]; [|discriminate Hbad].
    destruct (view_folder_of_folders u (File.folder f) w
                (with_files (replace_file id g (files w)) w) v eq_refl Hview)
      as (v' & Hv' & Hfiles').
    exists v'. split; [exact Hv'|]. rewrite Hfiles', <- in_rev, filter_In.
    cbn [files with_files]. split; [split|].
    + unfold replace_file. apply in_map_iff. exists f.
      apply find_some in Hf as [Hin Hfid]. rewrite Hfid. auto.
    + unfold visible_in_folder, not_deleted. rewrite Hrole, Hg. cbn.
      now rewrite Nat.eqb_refl, Hlive.
    + rewrite Hg. repeat split.
Qed.

End ReviewAndView.

(** ** Deleting a folder *)



Section DeleteFolder.

Variable dep : Deployment.


End DeleteFolder.

(** ** Deleting the current version *)

Section DeleteCurrent.

Variable dep : Deployment.

Lemma unlink_tolerant_same_db (p : string) (w : World) :
  same_db w (snd (unlink_tolerant dep p w)).
Proof.
  unfold unlink_tolerant, fsp_unlink.
  destruct (entry_at dep p w) as [c| |]; [repeat split..|].
  destruct (through_file w _ || disk_has (disk w) _); repeat split.
Qed.

Lemma delete_file_reply (u : User) (id : nat) (w : World) :
  answer (delete_file dep u id) w = Done (Reply 200 tt) ->
  exists file,
    find (fun f => Nat.eqb (File._id f) id) (files w) = Some file
    /\ files (after (delete_file dep u id) w)
       = filter (fun f => negb (Nat.eqb (File._id f) (File._id file))) (files w).
Proof.
  unfold answer, after.
  remember (delete_file dep u id w) as r eqn:Hr.
  unfold delete_file, try_catch in Hr.
  unfold bind at 1 in Hr. unfold File_findById at 1, gets at 1 in Hr.
  destruct (find _ (files w)) as [file|] eqn:Hf; [|subst r; discriminate].
  unfold bind at 1 in Hr.
  destruct (file_hasAccess_state u file w) as [b Hb]. rewrite Hb in Hr.
  destruct b; cbn [negb] in Hr; [|subst r; discriminate].
  destruct (startsWith _ _); cbn [negb] in Hr; [|subst r; discriminate].
  unfold bind at 1 in Hr.
  match type of Hr with context [unlink_tolerant dep ?p w] =>
    pose proof (unlink_tolerant_same_db p w) as (_ & Hfi & _);
    destruct (unlink_tolerant dep p w) as [[[]|e|] w1]
  end; try (subst r; discriminate).
  cbn [snd] in Hfi.
  unfold File_deleteOne in Hr. unfold bind at 1 in Hr. unfold bind at 1 in Hr.
  unfold pathExists at 1, gets at 1 in Hr.
  match type of Hr with context [exists_at dep ?p w1] =>
    destruct (exists_at dep p w1) end;
    unfold bind, ret, throw, modify in Hr; subst r; cbn [fst snd];
    try discriminate.
  intros _. exists file. rewrite Hfi. split; reflexivity.
Qed.

(** X12.  Deleting the current version of a file promotes no other version: in
    a well-formed collection, after the current version of a lineage with
    other members has been deleted, the lineage still has members and none of
    them is current. *)
Theorem delete_current_version_leaves_none_current (u : User) (id : nat)
        (f other : File.t) (w : World) :
  files_ok w ->
  find (fun x => Nat.eqb (File._id x) id) (files w) = Some f ->
  File.isCurrentVersion f = true ->
  In other (files w) ->
  File._id other <> id ->
  in_lineage (File.folder f) (File.originalFilename f) other = true ->
  answer (delete_file dep u id) w = Done (Reply 200 tt) ->
  let w' := after (delete_file dep u id) w in
  In other (files w')
  /\ filter (fun x => in_lineage (File.folder f) (File.originalFilename f) x
                      && File.isCurrentVersion x) (files w') = [].
Proof.
  intros Hok Hf Hcur Hother Hne Hlin Hans w'.
  destruct (delete_file_reply u id w Hans) as (file & Hf' & Hfiles).
  rewrite Hf in Hf'. injection Hf' as <-.
  apply find_some in Hf as [Hfin Hfid]. apply Nat.eqb_eq in Hfid.
  subst w'. rewrite Hfiles. split.
  - apply filter_In. split; [exact Hother|].
    apply negb_true_iff, Nat.eqb_neq. congruence.
  - apply filter_nil_iff. intros x Hx. apply filter_In in Hx as [Hx Hxid].
    apply negb_true_iff, Nat.eqb_neq in Hxid.
    destruct (in_lineage _ _ x && File.isCurrentVersion x) eqn:E; [|reflexivity].
    exfalso. apply Hxid. f_equal.
    assert (Hflin : in_lineage (File.folder f) (File.originalFilename f) f = true).
    { apply in_lineage_true. repeat split. now apply (ok_live w Hok). }
    apply (filter_one_unique
             (is_current_in (File.folder f) (File.originalFilename f)) (files w));
      try assumption.
    + apply (ok_current w Hok). eauto.
    + unfold is_current_in. now rewrite Hflin, Hcur.
Qed.

End DeleteCurrent.

(** ** The properties above on the worked examples *)

Lemma grant_access_takes_effect_witness :
  answer (validateFolderAccess 1 200)
         (after (grant_access office alice 1 "bob@example.org" "write") docs_folder)
  = Done (Some (Folder.mk 1 "docs" "docs" 100 None false 0 [(200, perm_write)])).
Proof.
  destruct (grant_access_takes_effect office alice 1 "bob@example.org" "write"
              docs_folder
              (Folder.mk 1 "docs" "docs" 100 None false 0 [(200, perm_write)]))
    as (userId & p & folder & Hu & _ & _ & _ & _ & _ & Hv & _).
  - vm_compute. reflexivity.
  - vm_compute in Hu. injection Hu as <-. exact Hv.
Defined.

Lemma grant_access_decides_upload_witness :
  let w' := after (grant_access office alice 1 "bob@example.org" "read")
                  docs_shared_with_bob in
  upload_files srv bob 1 None "2024-05-01" 11 [pdf "notes.pdf" "NNN"] w'
  = (Done (Fail 403 "Write access required"), w').
Proof.
  apply (grant_access_decides_upload srv office alice bob 1 "bob@example.org"
           "read" docs_shared_with_bob
           (Folder.mk 1 "docs" "docs" 100 None false 0 [(200, perm_read)])
           (Folder.mk 1 "docs" "docs" 100 None false 0 [(200, perm_write)])).
  - vm_compute. reflexivity.
  - reflexivity.
  - reflexivity.
  - unfold one_entry_per_user. cbn. constructor; [intros [] | constructor].
  - discriminate.
  - cbn. discriminate.
  - reflexivity.
Defined.

Lemma revoke_access_locks_out_witness :
  let w' := after (revoke_access alice 1 (Some 200)) docs_shared_with_bob in
  view_folder bob 1 w' = (Done (Fail 403 "Access denied"), w').
Proof.
  apply (revoke_access_locks_out srv alice bob 1 docs_shared_with_bob
           (Folder.mk 1 "docs" "docs" 100 None false 0 [])).
  - vm_compute. reflexivity.
  - cbn. discriminate.
Defined.

Lemma view_folder_needs_entry_witness :
  view_folder erin 1 docs_folder = (Done (Fail 403 "Access denied"), docs_folder).
Proof.
  apply (view_folder_needs_entry erin 1
           (Folder.mk 1 "docs" "docs" 100 None false 0 [])).
  - vm_compute. reflexivity.
  - vm_compute. constructor; [intros [] | constructor].
  - cbn. discriminate.
  - intros a [].
Defined.

Lemma view_folder_files_for_user_witness :
  exists v,
    answer (view_folder dave 1) shared_docs = Done (Reply 200 v)
    /\ (forall f, In f (fv_files v)
                  <-> In f (files shared_docs)
                      /\ File.folder f = 1
                      /\ File.isDeleted f = false
                      /\ (File.approvalStatus f = approved
                          \/ File.uploadedBy f = uid dave))
    /\ fv_fileCount v = List.length (fv_files v)
    /\ after (view_folder dave 1) shared_docs = shared_docs.
Proof.
  eexists. split; [vm_compute; reflexivity|].
  apply (view_folder_files_for_user dave 1 shared_docs); [reflexivity|].
  vm_compute. reflexivity.
Defined.

Lemma canUpload_flag_overstates_witness :
  (exists v, view_folder carol 1 shared_docs = (Done (Reply 200 v), shared_docs)
             /\ fv_canUpload v = true)
  /\ upload_files srv carol 1 None "2024-05-03" 13 [pdf "c.pdf" "CCC"] shared_docs
     = (Done (Fail 403 "Write access required"), shared_docs).
Proof.
  destruct (canUpload_flag_overstates srv carol 1
              (Folder.mk 1 "docs" "docs" 100 None false 0
                 [(200, perm_write); (400, perm_read); (300, perm_read)])
              shared_docs) as [Hview Hupload].
  - reflexivity.
  - vm_compute. reflexivity.
  - cbn. discriminate.
  - cbn. auto.
  - intros a [<-|[<-|[<-|[]]]]; cbn; intros H; try discriminate H; reflexivity.
  - split; [exact Hview | apply Hupload].
Defined.

Lemma one_current_version_under_reviews_and_folder_deletions_witness :
  exists cur,
    filter (fun f => in_lineage 1 "notes.pdf" f && File.isCurrentVersion f)
           (files (after (review_file office carol (Some 3) "disapproved"
                            (Some "draft") 20) shared_docs))
    = [cur].
Proof.
  apply (one_current_version_under_reviews_and_folder_deletions srv office).
  - apply kept_review. unfold shared_docs. do 2 apply kept_upload.
    do 3 apply kept_grant. apply kept_start. reflexivity.
  - vm_compute. eexists. split; [right; left; reflexivity | reflexivity].
Defined.

Lemma approval_makes_visible_witness :
  let g := File.mk 3 "notes.pdf" "notes.pdf" "docs/notes.pdf" 3
                   "application/pdf" ".pdf" 1 200 200 approved (Some 300)
                   (Some 20) 1 true [] None "sha256:NNN" false in
  exists v',
    answer (view_folder dave 1)
      (after (review_file office carol (Some 3) "approved" None 20) shared_docs)
    = Done (Reply 200 v')
    /\ In g (fv_files v').
Proof.
  intros g.
  assert (Hview : exists v, answer (view_folder dave 1) shared_docs
                            = Done (Reply 200 v))
    by (eexists; vm_compute; reflexivity).
  destruct Hview as [v Hview].
  destruct (approval_makes_visible office carol dave 3
              (File.mk 3 "notes.pdf" "notes.pdf" "docs/notes.pdf" 3
                       "application/pdf" ".pdf" 1 200 200 pending None None
                       1 true [] None "sha256:NNN" false)
              g None 20 shared_docs v)
    as (_ & v' & Hv' & Hin & _);
    [reflexivity | vm_compute; reflexivity | reflexivity | discriminate
    | cbn; discriminate | exact Hview | vm_compute; reflexivity |].
  exists v'. split; [exact Hv' | exact Hin].
Defined.


Lemma delete_current_version_leaves_none_current_witness :
  let w' := after (delete_file srv alice 4) three_versions in
  map File._id (files w') = [2; 3]
  /\ filter (fun x => in_lineage 1 "report.pdf" x && File.isCurrentVersion x)
            (files w') = [].
Proof.
  split; [vm_compute; reflexivity|].
  apply (delete_current_version_leaves_none_current srv alice 4
           (File.mk 4 "report(2).pdf" "report.pdf" "docs/report(2).pdf" 3
                    "application/pdf" ".pdf" 1 100 100 approved (Some 100)
                    (Some 13) 3 true [3; 2] (Some 2) "sha256:CCC" false)
           (File.mk 3 "report(1).pdf" "report.pdf" "docs/report(1).pdf" 3
                    "application/pdf" ".pdf" 1 100 100 approved (Some 100)
                    (Some 12) 2 false [2] (Some 2) "sha256:BBB" false)
           three_versions).
  - apply (reachable_files_ok srv). unfold three_versions.
    do 3 apply reach_upload. apply reach_start. reflexivity.
  - vm_compute. reflexivity.
  - reflexivity.
  - vm_compute. auto.
  - cbn. discriminate.
  - reflexivity.
  - vm_compute. reflexivity.
Defined.
